(** * gpshud: the telemetry core of [myhud.py]

    A shallow embedding of the report merge ([Main.update_speed],
    [Main.update_sky]) and of the derived display texts
    ([HeadUpDisplay.update_data], [get_speed_text], [get_direction_text],
    [is_day]) of the GPS head-up display, of the unit and font choices of
    [HeadUpDisplay.__init__] and of the script, and of the report loop of
    [Main.run], and the properties of that code.

    Conventions of the embedding:
    - Python [int] is [Z]; a Python [float] is the rational [Q] that the
      binary64 number denotes, and a sum, product or quotient of floats is
      rounded to the nearest binary64 number, ties to even ([round64]);
      there are no NaN and no infinities, so a result of magnitude [2^1024]
      or more, which overflows in Python, is outside the embedding; the
      variance of [statistics.stdev] is exact and its square root is cut
      at twelve decimal places;
    - Python [str] is [string], holding the UTF-8 bytes of the text;
    - a Python exception is a [Raise] result; of the exceptions of the
      embedding the code of [myhud.py] catches only [ValueError], in
      [is_day];
    - a gpsd report is a record whose optional JSON keys are [option]
      fields; the keys the gpsd protocol always sends ([mode] of a TPV
      report, [PRN] and [used] of a satellite entry) are plain fields. *)

From Stdlib Require Import ZArith QArith Qround Qabs Qpower List String Ascii Bool
  Lia.
From Stdlib Require Import DecimalString.
From Stdlib Require Import Lqa.
Import ListNotations.

Local Open Scope string_scope.
Local Open Scope Z_scope.

(** ** Exceptions and results *)

Inductive exn : Set :=
| IndexError
| KeyError
| AttributeError
| ValueError
| StatisticsError.

Inductive result (A : Type) : Type :=
| Ok (a : A)
| Raise (e : exn).

Arguments Ok {A} a.
Arguments Raise {A} e.

Definition bind {A B : Type} (r : result A) (k : A -> result B) : result B :=
  match r with
  | Ok a => k a
  | Raise e => Raise e
  end.

Notation "x <- r ;; k" := (bind r (fun x => k))
  (at level 61, r at next level, right associativity).

(** ** Python containers *)

(** [t[i]] on a tuple: a negative index counts from the end, an index out of
    range raises [IndexError]. *)
Definition tuple_getitem {A : Type} (t : list A) (i : Z) : result A :=
  let n := Z.of_nat (List.length t) in
  let j := if i <? 0 then i + n else i in
  if (j <? 0) || (n <=? j) then Raise IndexError
  else match nth_error t (Z.to_nat j) with
       | Some a => Ok a
       | None => Raise IndexError
       end.

(** A [dict] keyed by integers, in insertion order. *)
Definition dict (V : Type) : Type := list (Z * V).

Fixpoint dict_get {V : Type} (d : dict V) (k : Z) : option V :=
  match d with
  | [] => None
  | (k', v) :: d' => if k' =? k then Some v else dict_get d' k
  end.

(** [d[k] = v]: an existing key keeps its place, a new key goes last. *)
Fixpoint dict_set {V : Type} (d : dict V) (k : Z) (v : V) : dict V :=
  match d with
  | [] => [(k, v)]
  | (k', v') :: d' =>
      if k' =? k then (k', v) :: d' else (k', v') :: dict_set d' k v
  end.

(** [d[k]] on a plain dict raises [KeyError] on a missing key. *)
Definition dict_getitem {V : Type} (d : dict V) (k : Z) : result V :=
  match dict_get d k with
  | Some v => Ok v
  | None => Raise KeyError
  end.

(** [d[k]] on a [collections.defaultdict] read for [+=]. *)
Definition defaultdict_get {V : Type} (default : V) (d : dict V) (k : Z) : V :=
  match dict_get d k with
  | Some v => v
  | None => default
  end.

Definition dict_values {V : Type} (d : dict V) : list V := map snd d.
Definition dict_keys {V : Type} (d : dict V) : list Z := map fst d.

(** ** Strings *)

(** [sep.join(items)]. *)
Fixpoint join (sep : string) (items : list string) : string :=
  match items with
  | [] => ""
  | [s] => s
  | s :: rest => s ++ sep ++ join sep rest
  end.

Fixpoint starts_with (p s : string) : bool :=
  match p, s with
  | EmptyString, _ => true
  | String a p', String b s' => Ascii.eqb a b && starts_with p' s'
  | String _ _, EmptyString => false
  end.

(** [sub in s]. *)
Fixpoint containsb (sub s : string) : bool :=
  starts_with sub s ||
  match s with
  | EmptyString => false
  | String _ s' => containsb sub s'
  end.

Definition contains (sub s : string) : Prop :=
  exists pre post, s = pre ++ sub ++ post.

Fixpoint occurs (c : ascii) (s : string) : bool :=
  match s with
  | EmptyString => false
  | String a s' => Ascii.eqb a c || occurs c s'
  end.

(** ** Number formatting *)

(** [str(i)] and [f'{i}'] for an [int]. *)
Definition format_int (i : Z) : string := NilZero.string_of_int (Z.to_int i).

Definition digit_char (d : Z) : ascii :=
  ascii_of_nat (48 + Z.to_nat (d mod 10)).

(** The [prec] low decimal digits of [m], most significant first. *)
Fixpoint frac_digits (prec : nat) (m : Z) : string :=
  match prec with
  | O => ""
  | S p => String (digit_char (m / 10 ^ Z.of_nat p)) (frac_digits p m)
  end.

(** [n/d] rounded to the nearest integer, ties to even. *)
Definition round_half_even (n : Z) (d : positive) : Z :=
  let q := n / Zpos d in
  let r := n mod Zpos d in
  match 2 * r ?= Zpos d with
  | Lt => q
  | Gt => q + 1
  | Eq => if Z.even q then q else q + 1
  end.

(** [f'{x:.{prec}f}'] and ['%.{prec}f' % x]: sign, integer part and [prec]
    decimals of the correctly rounded value. *)
Definition format_fixed (prec : nat) (x : Q) : string :=
  let scale := 10 ^ Z.of_nat prec in
  let m := round_half_even (Z.abs (Qnum x) * scale) (Qden x) in
  (if Qnum x <? 0 then "-" else "") ++
  format_int (m / scale) ++
  match prec with
  | O => ""
  | S _ => "." ++ frac_digits prec m
  end.

(** ** Binary64 arithmetic

    The arithmetic of Python's [float]: the exact result, rounded to the
    nearest number with a significand of 53 bits (below [2^-1022], to the
    nearest multiple of [2^-1074]), ties to the even significand. *)

(** [floor(log2 x)] of a positive rational. *)
Definition ilog2 (x : Q) : Z :=
  let l := Z.log2 (Qnum x) - Z.log2 (Zpos (Qden x)) in
  if Qle_bool (2 ^ l) x then l else l - 1.

(** The exponent of the unit in the last place at the magnitude of [x]. *)
Definition ulp_exponent (x : Q) : Z := Z.max (ilog2 (Qabs x) - 52) (-1074).

Definition round64 (x : Q) : Q :=
  if Qeq_bool x 0 then 0%Q
  else
    let e := ulp_exponent x in
    let y := (x / 2 ^ e)%Q in
    Qred (inject_Z (round_half_even (Qnum y) (Qden y)) * 2 ^ e).

(** [x + y], [x * y] and [x / y] on floats. *)
Definition fadd (x y : Q) : Q := round64 (x + y).
Definition fmul (x y : Q) : Q := round64 (x * y).
Definition fdiv (x y : Q) : Q := round64 (x / y).

(** The rationals that are binary64 numbers: rounding leaves them as they
    are. *)
Definition binary64 (x : Q) : bool := Qeq_bool (round64 x) x.

(** The numbers [k * 2^g] of the format, by significand and exponent. *)
Definition float53 (x : Q) : Prop :=
  exists k g : Z,
    Z.abs k < 2 ^ 53 /\ -1074 <= g /\ (x == inject_Z k * 2 ^ g)%Q.

(** ** Text constants *)

Definition dquote : string := String (ascii_of_nat 34) EmptyString.
Definition newline : string := String (ascii_of_nat 10) EmptyString.

(** U+200A HAIR SPACE, U+00B0 DEGREE SIGN, U+00B1 PLUS-MINUS SIGN and
    U+2013 EN DASH, in UTF-8. *)
Definition hair_space : string :=
  String (ascii_of_nat 226) (String (ascii_of_nat 128)
    (String (ascii_of_nat 138) EmptyString)).
Definition degree_sign : string := "°".
Definition plus_minus : string := "±".
Definition en_dash : string := "–".

(** U+1D465 U+0305 (x with a bar) and U+1D460 (italic s), in UTF-8. *)
Definition x_bar : string :=
  String (ascii_of_nat 240) (String (ascii_of_nat 157)
    (String (ascii_of_nat 145) (String (ascii_of_nat 165)
      (String (ascii_of_nat 204) (String (ascii_of_nat 133) EmptyString))))).
Definition italic_s : string :=
  String (ascii_of_nat 240) (String (ascii_of_nat 157)
    (String (ascii_of_nat 145) (String (ascii_of_nat 160) EmptyString))).

(** [chr(0x1f1e6+ord(x)-ord('A'))]: the regional-indicator symbol of a
    capital letter, U+1F1E6 to U+1F1FF, in UTF-8. *)
Definition regional_indicator (x : ascii) : string :=
  String (ascii_of_nat 240) (String (ascii_of_nat 159)
    (String (ascii_of_nat 135)
      (String (ascii_of_nat (166 + (nat_of_ascii x - 65))) EmptyString))).

(** U+1F6F0 SATELLITE. *)
Definition SATELLITE : string :=
  String (ascii_of_nat 240) (String (ascii_of_nat 159)
    (String (ascii_of_nat 155) (String (ascii_of_nat 176) EmptyString))).

Definition GNSS_FLAG_ISO : dict string :=
  [(0, "US"); (2, "EU"); (3, "CN"); (4, "IN"); (5, "JP"); (6, "RU")].

Definition flag_of_iso (v : string) : string :=
  String.concat EmptyString (map regional_indicator (list_ascii_of_string v)).

Definition GNSS_FLAG : dict string :=
  dict_set (map (fun kv => (fst kv, flag_of_iso (snd kv))) GNSS_FLAG_ISO)
           1 SATELLITE.

Definition format_latitude (latitude : Q) : string :=
  let hemisphere := if Qle_bool 0 latitude then "N" else "S" in
  format_fixed 5 (Qabs latitude) ++ degree_sign ++ hair_space ++ hemisphere.

Definition format_longitude (longitude : Q) : string :=
  let hemisphere := if Qle_bool 0 longitude then "E" else "W" in
  format_fixed 5 (Qabs longitude) ++ degree_sign ++ hair_space ++ hemisphere.

(** ** Statistics: [min], [max], [statistics.fmean], [statistics.stdev] *)

Definition Qltb (x y : Q) : bool := negb (Qle_bool y x).

Definition builtin_min (xs : list Q) : result Q :=
  match xs with
  | [] => Raise ValueError
  | x :: rest => Ok (fold_left (fun m y => if Qltb y m then y else m) rest x)
  end.

Definition builtin_max (xs : list Q) : result Q :=
  match xs with
  | [] => Raise ValueError
  | x :: rest => Ok (fold_left (fun m y => if Qltb m y then y else m) rest x)
  end.

Definition Qsum (xs : list Q) : Q := fold_left Qplus xs 0%Q.

Definition Qlen (xs : list Q) : Q := inject_Z (Z.of_nat (List.length xs)).

(** [statistics.fmean]: [math.fsum], the correctly rounded sum, divided by
    the count. *)
Definition fmean (xs : list Q) : result Q :=
  match xs with
  | [] => Raise StatisticsError
  | _ => Ok (fdiv (round64 (Qsum xs)) (Qlen xs))
  end.

(** The square root, to twelve decimal places. *)
Definition float_sqrt (x : Q) : Q :=
  Qred (Z.sqrt (Qnum x * 10 ^ 24 / Zpos (Qden x)) # 10 ^ 12).

(** [statistics.stdev]: the sample standard deviation, which divides by
    [n - 1] and raises [StatisticsError] on fewer than two values. *)
Definition stdev (xs : list Q) : result Q :=
  if (Z.of_nat (List.length xs) <? 2) then Raise StatisticsError
  else
    let m := (Qsum xs / Qlen xs)%Q in
    let sq := Qsum (map (fun x => (x - m) * (x - m))%Q xs) in
    Ok (float_sqrt (sq / (Qlen xs - 1))%Q).

(** ** Reports and the widget state *)

Record TPV : Type := {
  tpv_mode : Z;
  tpv_status : option Z;
  tpv_speed : option Q;
  tpv_track : option Q;
  tpv_lat : option Q;
  tpv_lon : option Q;
  tpv_altHAE : option Q;
  tpv_eph : option Q;
  tpv_epv : option Q;
  tpv_time : option string
}.

Record Satellite : Type := {
  gnssid : option Z;
  PRN : Z;
  used : bool;
  ss : option Q
}.

Record SKY : Type := {
  uSat : option Z;
  nSat : option Z;
  satellites : option (list Satellite)
}.

(** The attributes of [HeadUpDisplay] that the display texts read. *)
Record HeadUpDisplay : Type := {
  speed_unit : string;
  speedfactor : Q;
  altitude_unit : string;
  altfactor : Q;
  last_speed : Q;
  last_heading : Q;
  last_mode : Z;
  last_status : Z;
  latitude : option Q;
  longitude : option Q;
  altitude : option Q;
  skyview : option SKY;
  last_tpv : option TPV
}.

(** The fix modes of the data model. *)
Definition Unknown : Z := 0.
Definition NoFix : Z := 1.
Definition Fix2D : Z := 2.
Definition Fix3D : Z := 3.

(** ** [Main.update_speed] and [Main.update_sky]: merging a report *)

Definition set_last_tpv (w : HeadUpDisplay) (v : option TPV) : HeadUpDisplay :=
  {| speed_unit := speed_unit w; speedfactor := speedfactor w;
     altitude_unit := altitude_unit w; altfactor := altfactor w;
     last_speed := last_speed w; last_heading := last_heading w;
     last_mode := last_mode w; last_status := last_status w;
     latitude := latitude w; longitude := longitude w;
     altitude := altitude w; skyview := skyview w; last_tpv := v |}.

Definition set_last_mode (w : HeadUpDisplay) (v : Z) : HeadUpDisplay :=
  {| speed_unit := speed_unit w; speedfactor := speedfactor w;
     altitude_unit := altitude_unit w; altfactor := altfactor w;
     last_speed := last_speed w; last_heading := last_heading w;
     last_mode := v; last_status := last_status w;
     latitude := latitude w; longitude := longitude w;
     altitude := altitude w; skyview := skyview w; last_tpv := last_tpv w |}.

Definition set_last_status (w : HeadUpDisplay) (v : Z) : HeadUpDisplay :=
  {| speed_unit := speed_unit w; speedfactor := speedfactor w;
     altitude_unit := altitude_unit w; altfactor := altfactor w;
     last_speed := last_speed w; last_heading := last_heading w;
     last_mode := last_mode w; last_status := v;
     latitude := latitude w; longitude := longitude w;
     altitude := altitude w; skyview := skyview w; last_tpv := last_tpv w |}.

Definition set_last_speed (w : HeadUpDisplay) (v : Q) : HeadUpDisplay :=
  {| speed_unit := speed_unit w; speedfactor := speedfactor w;
     altitude_unit := altitude_unit w; altfactor := altfactor w;
     last_speed := v; last_heading := last_heading w;
     last_mode := last_mode w; last_status := last_status w;
     latitude := latitude w; longitude := longitude w;
     altitude := altitude w; skyview := skyview w; last_tpv := last_tpv w |}.

Definition set_last_heading (w : HeadUpDisplay) (v : Q) : HeadUpDisplay :=
  {| speed_unit := speed_unit w; speedfactor := speedfactor w;
     altitude_unit := altitude_unit w; altfactor := altfactor w;
     last_speed := last_speed w; last_heading := v;
     last_mode := last_mode w; last_status := last_status w;
     latitude := latitude w; longitude := longitude w;
     altitude := altitude w; skyview := skyview w; last_tpv := last_tpv w |}.

Definition set_latitude (w : HeadUpDisplay) (v : option Q) : HeadUpDisplay :=
  {| speed_unit := speed_unit w; speedfactor := speedfactor w;
     altitude_unit := altitude_unit w; altfactor := altfactor w;
     last_speed := last_speed w; last_heading := last_heading w;
     last_mode := last_mode w; last_status := last_status w;
     latitude := v; longitude := longitude w;
     altitude := altitude w; skyview := skyview w; last_tpv := last_tpv w |}.

Definition set_longitude (w : HeadUpDisplay) (v : option Q) : HeadUpDisplay :=
  {| speed_unit := speed_unit w; speedfactor := speedfactor w;
     altitude_unit := altitude_unit w; altfactor := altfactor w;
     last_speed := last_speed w; last_heading := last_heading w;
     last_mode := last_mode w; last_status := last_status w;
     latitude := latitude w; longitude := v;
     altitude := altitude w; skyview := skyview w; last_tpv := last_tpv w |}.

Definition set_altitude (w : HeadUpDisplay) (v : option Q) : HeadUpDisplay :=
  {| speed_unit := speed_unit w; speedfactor := speedfactor w;
     altitude_unit := altitude_unit w; altfactor := altfactor w;
     last_speed := last_speed w; last_heading := last_heading w;
     last_mode := last_mode w; last_status := last_status w;
     latitude := latitude w; longitude := longitude w;
     altitude := v; skyview := skyview w; last_tpv := last_tpv w |}.

Definition set_skyview (w : HeadUpDisplay) (v : option SKY) : HeadUpDisplay :=
  {| speed_unit := speed_unit w; speedfactor := speedfactor w;
     altitude_unit := altitude_unit w; altfactor := altfactor w;
     last_speed := last_speed w; last_heading := last_heading w;
     last_mode := last_mode w; last_status := last_status w;
     latitude := latitude w; longitude := longitude w;
     altitude := altitude w; skyview := v; last_tpv := last_tpv w |}.

(** [Main.update_speed], the assignments to the widget; the call of
    [update_data] that follows them reads the widget and leaves it as it is. *)
Definition update_speed (widget : HeadUpDisplay) (data : TPV) : HeadUpDisplay :=
  let widget := set_last_tpv widget (Some data) in
  let widget := set_last_mode widget (tpv_mode data) in
  let widget :=
    match tpv_status data with
    | Some v => set_last_status widget v
    | None => widget
    end in
  let widget :=
    match tpv_speed data with
    | Some v => set_last_speed widget v
    | None => widget
    end in
  let widget :=
    match tpv_track data with
    | Some v => set_last_heading widget v
    | None => widget
    end in
  let widget :=
    match tpv_lat data with
    | Some v => set_latitude widget (Some v)
    | None => widget
    end in
  let widget :=
    match tpv_lon data with
    | Some v => set_longitude widget (Some v)
    | None => widget
    end in
  let widget :=
    match tpv_altHAE data with
    | Some v => set_altitude widget (Some v)
    | None => widget
    end in
  widget.

Definition update_sky (widget : HeadUpDisplay) (data : SKY) : HeadUpDisplay :=
  set_skyview widget (Some data).

(** What [update_data] reads as horizontal and vertical error: the [eph] and
    [epv] keys of the stored report [last_tpv]. *)
Definition known_eph (w : HeadUpDisplay) : option Q :=
  match last_tpv w with
  | Some tpv => tpv_eph tpv
  | None => None
  end.

Definition known_epv (w : HeadUpDisplay) : option Q :=
  match last_tpv w with
  | Some tpv => tpv_epv tpv
  | None => None
  end.

(** ** [HeadUpDisplay.update_data]: the satellite loop *)

Record SatStats : Type := {
  ucount : dict Z;
  ncount : dict Z;
  sigstrength : dict Q;
  usedsigstrength : dict Q
}.

Definition empty_stats : SatStats :=
  {| ucount := []; ncount := []; sigstrength := []; usedsigstrength := [] |}.

(** One turn of the loop over [self.skyview.satellites]. *)
Definition count_satellite (st : SatStats) (sat : Satellite) : SatStats :=
  match gnssid sat with
  | Some g =>
      {| ucount :=
           dict_set (ucount st) g
                    (defaultdict_get 0 (ucount st) g + Z.b2z (used sat));
         ncount :=
           dict_set (ncount st) g (defaultdict_get 0 (ncount st) g + 1);
         sigstrength :=
           match ss sat with
           | Some v => dict_set (sigstrength st) (PRN sat) v
           | None => sigstrength st
           end;
         usedsigstrength :=
           match ss sat with
           | Some v =>
               if used sat then dict_set (usedsigstrength st) (PRN sat) v
               else usedsigstrength st
           | None => usedsigstrength st
           end |}
  | None => st
  end.

Definition count_satellites (sats : list Satellite) : SatStats :=
  fold_left count_satellite sats empty_stats.

(** The generator of [svlist]: one item per constellation with a positive
    used count, in the order of [ucount]; [GNSS_FLAG[gnss]] raises
    [KeyError] for a constellation without a flag. *)
Fixpoint svlist_items (uc : dict Z) (keys : list Z) : result (list string) :=
  match keys with
  | [] => Ok []
  | gnss :: rest =>
      if 0 <? defaultdict_get 0 uc gnss then
        flag <- dict_getitem GNSS_FLAG gnss ;;
        items <- svlist_items uc rest ;;
        Ok ((format_int (defaultdict_get 0 uc gnss) ++ " " ++ flag) :: items)
      else svlist_items uc rest
  end.

Definition span (size : string) : string :=
  newline ++ "<span font=" ++ dquote ++ size ++ dquote ++ ">".

(** The text one signal-strength block appends for a non-empty dict of
    strengths ([label] is [All SNR] or [Used SNR]). *)
Definition snr_line (label : string) (strengths : list Q) : result string :=
  min_ss <- builtin_min strengths ;;
  max_ss <- builtin_max strengths ;;
  let line :=
    span "10" ++ label ++ ": " ++
    format_fixed 0 min_ss ++ en_dash ++ format_fixed 0 max_ss in
  line <- (if 1 <? Z.of_nat (List.length strengths) then
             mean_ss <- fmean strengths ;;
             sd_ss <- stdev strengths ;;
             Ok (line ++ ", " ++ x_bar ++ "=" ++ format_fixed 1 mean_ss ++
                 ", " ++ italic_s ++ "=" ++ format_fixed 1 sd_ss)
           else Ok line) ;;
  Ok (line ++ "</span>").

Definition append_snr (label : string) (strengths : dict Q) (fixtext : string)
  : result string :=
  match strengths with
  | [] => Ok fixtext
  | _ => line <- snr_line label (dict_values strengths) ;; Ok (fixtext ++ line)
  end.

(** ** [HeadUpDisplay.update_data]: the fix text

    The value of the local [fixtext] when it is handed to the [Fix] label,
    stage by stage.  The date label and the Pango markup around the texts
    are rendering and are not modelled. *)

Definition STATUS_TEXT : list string :=
  ["Unknown"; "Normal"; "DGPS"; "RTK Fixed"; "RTK Floating"; "DR";
   "GNSS+DR"; "Time (surveyed)"; "Simulated"; "P(Y)"].

(** [if self.last_status: fixtext = (...)[self.last_status] else: fixtext = ''] *)
Definition fix_status_text (status : Z) : result string :=
  if status =? 0 then Ok EmptyString else tuple_getitem STATUS_TEXT status.

(** The three-way branch on [self.last_mode]. *)
Definition fix_mode_text (mode : Z) (fixtext : string) : string :=
  if (mode =? 2) || (mode =? 3) then
    fixtext ++ " " ++ format_int mode ++ "D fix"
  else if mode =? 1 then "No fix"
  else "Unknown fix".

(** The status and mode stages together. *)
Definition fix_narrative (status mode : Z) : result string :=
  fixtext <- fix_status_text status ;;
  Ok (fix_mode_text mode fixtext).

(** The block under [if self.skyview and 'uSat' in self.skyview and 'nSat'
    in self.skyview]. *)
Definition fix_sky_text (sky : option SKY) (fixtext : string) : result string :=
  match sky with
  | Some sv =>
      match uSat sv, nSat sv with
      | Some u, Some n =>
          let fixtext :=
            fixtext ++ ", " ++ format_int u ++ "/" ++ format_int n ++ " SVs" in
          sats <- match satellites sv with
                  | Some l => Ok l
                  | None => Raise AttributeError
                  end ;;
          let st := count_satellites sats in
          svlist <- svlist_items (ucount st) (dict_keys (ucount st)) ;;
          let fixtext :=
            match svlist with
            | [] => fixtext
            | _ => fixtext ++ span "12" ++ join " " svlist ++ "</span>"
            end in
          fixtext <- append_snr "All SNR" (sigstrength st) fixtext ;;
          append_snr "Used SNR" (usedsigstrength st) fixtext
      | _, _ => Ok fixtext
      end
  | None => Ok fixtext
  end.

Definition cep_line (eph : Q) (unit : string) : string :=
  newline ++ "CEP: " ++ plus_minus ++ hair_space ++
  format_fixed 1 eph ++ " " ++ unit.

(** The [eph] branch under [if self.latitude is not None and self.longitude
    is not None]. *)
Definition fix_cep_text (w : HeadUpDisplay) (fixtext : string) : string :=
  match latitude w, longitude w with
  | Some _, Some _ =>
      match last_tpv w with
      | Some tpv =>
          match tpv_eph tpv with
          | Some e =>
              fixtext ++ cep_line (fmul e (altfactor w)) (altitude_unit w)
          | None => fixtext
          end
      | None => fixtext
      end
  | _, _ => fixtext
  end.

Definition fix_text (w : HeadUpDisplay) : result string :=
  fixtext <- fix_status_text (last_status w) ;;
  let fixtext := fix_mode_text (last_mode w) fixtext in
  fixtext <- fix_sky_text (skyview w) fixtext ;;
  Ok (fix_cep_text w fixtext).

(** What the satellite loop collects for a widget state: the stats of the
    stored SKY report's satellite list (empty without one). *)
Definition sat_stats (w : HeadUpDisplay) : SatStats :=
  match skyview w with
  | Some sv =>
      match satellites sv with
      | Some l => count_satellites l
      | None => empty_stats
      end
  | None => empty_stats
  end.

(** ** The speed and direction texts *)

Definition get_speed_text (w : HeadUpDisplay) (speed : Q) : string :=
  if (last_mode w =? 0) || (last_mode w =? 1) then "-"
  else format_fixed 0 (fmul speed (speedfactor w)).

Definition COMPASS : list string :=
  ["N"; "NE"; "E"; "SE"; "S"; "SW"; "W"; "NW"; "N"].

(** [(heading+22.5)//45] is the floor of the quotient of the rounded sum:
    the floor division of floats is exact wherever its result can be an
    index of the tuple. *)
Definition get_direction_text (w : HeadUpDisplay) (heading : Q)
  : result string :=
  if (last_mode w =? 0) || (last_mode w =? 1) then Ok "-"
  else tuple_getitem COMPASS (Qfloor (fadd heading 22.5 / 45)%Q).

(** ** The position text *)

Section Locale.

(** [f'{alt:#.5n}']: the general format to five significant digits, with
    the decimal point and the grouping of the process locale. *)
Variable format_n5 : Q -> string.

Definition position_text (w : HeadUpDisplay) : string :=
  let postext := EmptyString in
  match latitude w, longitude w with
  | Some lat, Some lon =>
      let postext := format_latitude lat ++ newline ++ format_longitude lon in
      match altitude w with
      | Some a =>
          if Qeq_bool a 0 then postext
          else
            let alt := fmul a (altfactor w) in
            match known_epv w with
            | Some e =>
                let epv := fmul e (altfactor w) in
                postext ++ newline ++ format_n5 alt ++ hair_space ++
                plus_minus ++ hair_space ++ format_fixed 1 epv ++ " " ++
                altitude_unit w
            | None =>
                postext ++ newline ++ format_n5 alt ++ " " ++ altitude_unit w
            end
      | None => postext
      end
  | _, _ => postext
  end.

End Locale.

(** ** [HeadUpDisplay.is_day]

    Instants are microseconds since the epoch, dates are days since the
    epoch, a fixed-offset time zone is its offset in hours.  The [astral]
    library is outside the repository: its solar computations are the
    variables of the section, and only the calling convention of
    [astral.sun.elevation] is written out. *)

Record Observer : Type := {
  obs_latitude : Q;
  obs_longitude : Q
}.

(** The Python objects that [is_day] hands to [astral.sun.elevation] as its
    first positional argument. *)
Inductive pyobject : Type :=
| PyObserver (o : Observer)
| PyDatetime (t : Z).

(** [datetime.timezone(datetime.timedelta(hours=h))] raises [ValueError]
    unless the offset is strictly between -24 and 24 hours. *)
Definition solar_timezone (longitude : Q) : result Z :=
  let hours := Qfloor (fadd longitude 7.5 / 15)%Q in
  if (-24 <? hours) && (hours <? 24) then Ok hours else Raise ValueError.

(** [now.date()] for [now] in the zone of offset [tz]. *)
Definition local_date (tz : Z) (now : Z) : Z :=
  (now + tz * 3600000000) / 86400000000.

Section Astral.

(** [astral.sun.daylight(observer, date, tzinfo)]: sunrise and sunset, or
    [ValueError] when the sun does not rise or set on that date. *)
Variable daylight : Observer -> Z -> Z -> result (Z * Z).

(** [astral.sun.noon(observer, date=date)]. *)
Variable noon : Observer -> Z -> Z.

(** [astral.sun.zenith(observer, dateandtime)], in degrees. *)
Variable zenith : Observer -> Z -> Q.

(** [astral.sun.elevation(observer, dateandtime=None)]: the time defaults
    to the current instant, and the latitude and longitude are read from
    the first argument, which raises [AttributeError] on an object that
    has none. *)
Definition elevation (observer : pyobject) (dateandtime : option Z)
           (utcnow : Z) : result Q :=
  let dateandtime :=
    match dateandtime with
    | Some t => t
    | None => utcnow
    end in
  match observer with
  | PyObserver o => Ok (90 - zenith o dateandtime)%Q
  | PyDatetime _ => Raise AttributeError
  end.

(** [is_day] at the instant [now] of the wall clock. *)
Definition is_day (w : HeadUpDisplay) (now : Z) : result bool :=
  match longitude w, latitude w with
  | Some lon, Some lat =>
      solar_tz <- solar_timezone lon ;;
      let loc := {| obs_latitude := lat; obs_longitude := lon |} in
      let date := local_date solar_tz now in
      match daylight loc date solar_tz with
      | Ok (sunrise, sunset) => Ok ((sunrise <=? now) && (now <=? sunset))
      | Raise ValueError =>
          let noon := noon loc date in
          e <- elevation (PyDatetime noon) None now ;;
          if Qltb e 0 then Ok false else Ok true
      | Raise e => Raise e
      end
  | _, _ => Ok true
  end.

End Astral.

(** ** [Main.handle_response]: dispatch on the class of a report *)

Inductive report : Type :=
| TPVReport (data : TPV)
| SKYReport (data : SKY)
| OtherReport.

Definition handle_report (widget : HeadUpDisplay) (r : report) : HeadUpDisplay :=
  match r with
  | TPVReport data => update_speed widget data
  | SKYReport data => update_sky widget data
  | OtherReport => widget
  end.

(** ** Sample states *)

(** The widget as [__init__] leaves it for the units mph and ft; the two
    factors stand for [gps.MPS_TO_MPH] and [gps.METERS_TO_FEET], constants
    of the gps library: the binary64 numbers written [2.2369363] and
    [3.2808399]. *)
Definition initial_widget : HeadUpDisplay :=
  {| speed_unit := "mph";
     speedfactor := 629641592945721 # 281474976710656;
     altitude_unit := "ft";
     altfactor := 923474334443891 # 281474976710656;
     last_speed := 0; last_heading := 0; last_mode := 0; last_status := 0;
     latitude := None; longitude := None; altitude := None;
     skyview := None; last_tpv := None |}.

(** ** The vocabulary of the statements *)

(** A decimal digit, the minus sign or the decimal point. *)
Definition numeric_char (c : ascii) : bool :=
  let n := nat_of_ascii c in
  ((48 <=? n)%nat && (n <=? 57)%nat) || (n =? 45)%nat || (n =? 46)%nat.

Fixpoint numeric (s : string) : bool :=
  match s with
  | EmptyString => true
  | String a s' => numeric_char a && numeric s'
  end.

(** The value a field has after a report: the report's, or the old one. *)
Definition or_else {A : Type} (o : option A) (old : A) : A :=
  match o with
  | Some v => v
  | None => old
  end.

Definition or_keep {A : Type} (o old : option A) : option A :=
  match o with
  | Some v => Some v
  | None => old
  end.

(** The eight compass points and the bucket of a heading, as the data
    model gives them: by the exact sum. *)
Definition COMPASS_POINTS : list string :=
  ["N"; "NE"; "E"; "SE"; "S"; "SW"; "W"; "NW"].

Definition compass_bucket (heading : Q) : Z :=
  Qfloor ((heading + 22.5) / 45)%Q mod 8.

(** The binary64 numbers written [44.9], [359.9] and
    [22.499999999999996]; the last one is the float just below [22.5]. *)
Definition heading_44_9 : Q := 6319113227154227 # 140737488355328.
Definition heading_359_9 : Q := 3165713878692659 # 8796093022208.
Definition heading_below_NE : Q := 6333186975989759 # 281474976710656.

(** The binary64 number written [7.499999999999999], the float just below
    [7.5]. *)
Definition longitude_below_1h : Q := 8444249301319679 # 1125899906842624.

(** The bucket by the sum that the code computes. *)
Definition float_bucket (heading : Q) : Z :=
  Qfloor (fadd heading 22.5 / 45)%Q mod 8.

(** A satellite entry that reaches the signal-strength dicts: it carries a
    [gnssid] and an [ss]. *)
Definition heard (sat : Satellite) : bool :=
  match gnssid sat, ss sat with
  | Some _, Some _ => true
  | _, _ => false
  end.

Definition heard_used (sat : Satellite) : bool := heard sat && used sat.

(** The [ss] of the last entry of the list that is selected by [sel] and
    has the given PRN. *)
Definition last_ss (sel : Satellite -> bool) (sats : list Satellite) (prn : Z)
  : option Q :=
  match find (fun sat => sel sat && (PRN sat =? prn)) (rev sats) with
  | Some sat => ss sat
  | None => None
  end.

(** The capital letter C, which number formatting, the status labels, the
    flags and the satellite lines never write. *)
Definition letter_C : ascii := "C"%char.

(** The constellations of the data model: those with a flag. *)
Definition known_constellation (sat : Satellite) : Prop :=
  match gnssid sat with
  | Some g => 0 <= g <= 6
  | None => True
  end.

(** An entry that counts as used for constellation [g]. *)
Definition used_in (g : Z) (sat : Satellite) : bool :=
  match gnssid sat with
  | Some g' => (g' =? g) && used sat
  | None => false
  end.

(** An entry that counts for constellation [g], used or not. *)
Definition seen_in (g : Z) (sat : Satellite) : bool :=
  match gnssid sat with
  | Some g' => g' =? g
  | None => false
  end.

(** A sky view of the data model: when it carries the visibility counts, it
    carries a satellite list, whose constellations are known. *)
Definition sky_well_formed (sky : option SKY) : Prop :=
  match sky with
  | Some sv =>
      match uSat sv, nSat sv with
      | Some _, Some _ =>
          exists sats, satellites sv = Some sats /\
                       Forall known_constellation sats
      | _, _ => True
      end
  | None => True
  end.

(** The labels of the status table from index 1 on, as the code spells
    them. *)
Definition STATUS_LABELS : list (Z * string) :=
  [(1, "Normal"); (2, "DGPS"); (3, "RTK Fixed"); (4, "RTK Floating");
   (5, "DR"); (6, "GNSS+DR"); (7, "Time (surveyed)"); (8, "Simulated");
   (9, "P(Y)")].

Definition newline_char : ascii := ascii_of_nat 10.

(** What follows the formatted altitude on the altitude line. *)
Definition altitude_suffix (w : HeadUpDisplay) : string :=
  match known_epv w with
  | Some e =>
      hair_space ++ plus_minus ++ hair_space ++
      format_fixed 1 (fmul e (altfactor w)) ++ " " ++ altitude_unit w
  | None => " " ++ altitude_unit w
  end.

(** ** More sample reports and states *)

Definition report_with_eph : TPV :=
  {| tpv_mode := 3; tpv_status := Some 1; tpv_speed := Some 5%Q;
     tpv_track := Some 90%Q; tpv_lat := Some 50%Q; tpv_lon := Some 8%Q;
     tpv_altHAE := Some 120%Q; tpv_eph := Some 4%Q; tpv_epv := Some 7%Q;
     tpv_time := None |}.

Definition report_without_eph : TPV :=
  {| tpv_mode := 3; tpv_status := None; tpv_speed := Some 6%Q;
     tpv_track := None; tpv_lat := None; tpv_lon := None;
     tpv_altHAE := None; tpv_eph := None; tpv_epv := None;
     tpv_time := None |}.

Definition widget_in_mode (mode : Z) : HeadUpDisplay :=
  set_last_mode initial_widget mode.

Definition sat_without_gnssid : Satellite :=
  {| gnssid := None; PRN := 7; used := true; ss := Some 30%Q |}.

Definition sat_gps_used : Satellite :=
  {| gnssid := Some 0; PRN := 3; used := true; ss := Some 30%Q |}.

Definition sat_gps_unused : Satellite :=
  {| gnssid := Some 0; PRN := 4; used := false; ss := Some 20%Q |}.

Definition sat_galileo_used : Satellite :=
  {| gnssid := Some 2; PRN := 301; used := true; ss := Some 40%Q |}.

Definition sample_satellites : list Satellite :=
  [sat_gps_used; sat_gps_unused; sat_galileo_used].

Definition sky_with_counts : SKY :=
  {| uSat := Some 2; nSat := Some 3; satellites := Some sample_satellites |}.

Definition sky_without_counts : SKY :=
  {| uSat := None; nSat := None; satellites := Some sample_satellites |}.

Definition report_eph_no_position : TPV :=
  {| tpv_mode := 1; tpv_status := None; tpv_speed := None;
     tpv_track := None; tpv_lat := None; tpv_lon := None;
     tpv_altHAE := None; tpv_eph := Some 4%Q; tpv_epv := None;
     tpv_time := None |}.

Definition report_at_sea_level : TPV :=
  {| tpv_mode := 3; tpv_status := None; tpv_speed := None;
     tpv_track := None; tpv_lat := Some (5225 # 100);
     tpv_lon := Some (-45 # 10); tpv_altHAE := Some 0%Q;
     tpv_eph := None; tpv_epv := Some 3%Q; tpv_time := None |}.

(** Stand-ins for the astral computations in the examples: sunrise at 6 h
    and sunset at 18 h local solar time between the polar circles, neither
    beyond them; the sun at the zenith angle 100 degrees. *)
Definition sample_daylight (loc : Observer) (date tz : Z) : result (Z * Z) :=
  if Qle_bool (Qabs (obs_latitude loc)) 66 then
    Ok (date * 86400000000 + (6 - tz) * 3600000000,
        date * 86400000000 + (18 - tz) * 3600000000)
  else Raise ValueError.

Definition sample_noon (loc : Observer) (date : Z) : Z :=
  date * 86400000000 + 12 * 3600000000.

Definition sample_zenith (loc : Observer) (t : Z) : Q := 100.

Definition widget_at (lat lon : Q) : HeadUpDisplay :=
  set_longitude (set_latitude initial_widget (Some lat)) (Some lon).

(** ** The stream of reports *)

(** The reports that [handle_response] sees, one after the other, and the
    attributes of the widget that they leave. *)
Definition handle_reports (widget : HeadUpDisplay) (reports : list report)
  : HeadUpDisplay :=
  fold_left handle_report reports widget.

Definition is_tpv (r : report) : bool :=
  match r with
  | TPVReport _ => true
  | _ => false
  end.

(** ** More vocabulary *)

(** A used satellite entry of a constellation that has no flag. *)
Definition used_unflagged (sat : Satellite) : bool :=
  match gnssid sat with
  | Some g => used sat && negb ((0 <=? g) && (g <=? 6))
  | None => false
  end.

(** The stored SKY report, when it carries both visibility counts. *)
Definition counted_sky (w : HeadUpDisplay) : option SKY :=
  match skyview w with
  | Some sv =>
      match uSat sv, nSat sv with
      | Some _, Some _ => Some sv
      | _, _ => None
      end
  | None => None
  end.

Definition sat_navic_used : Satellite :=
  {| gnssid := Some 7; PRN := 401; used := true; ss := Some 25%Q |}.

Definition sat_navic_unused : Satellite :=
  {| gnssid := Some 7; PRN := 402; used := false; ss := Some 15%Q |}.

Definition sky_of (sats : list Satellite) : SKY :=
  {| uSat := Some 1; nSat := Some 2; satellites := Some sats |}.

(** A decimal digit or the decimal point. *)
Definition unsigned_char (c : ascii) : bool :=
  let n := nat_of_ascii c in
  ((48 <=? n)%nat && (n <=? 57)%nat) || (n =? 46)%nat.

Fixpoint unsigned (s : string) : bool :=
  match s with
  | EmptyString => true
  | String a s' => unsigned_char a && unsigned s'
  end.

Definition minus_sign : ascii := "-"%char.

(** ** [HeadUpDisplay.__init__]: the units *)

(** A [dict] keyed by strings, as [self.conversions]. *)
Fixpoint str_dict_get (d : list (string * Q)) (k : string) : option Q :=
  match d with
  | [] => None
  | (k', v) :: d' => if String.eqb k' k then Some v else str_dict_get d' k
  end.

(** [arg or default] for an argument that is [None] or a string: the empty
    string is false like [None]. *)
Definition or_default (arg : option string) (default : string) : string :=
  match arg with
  | Some EmptyString => default
  | Some s => s
  | None => default
  end.

(** What the constructor gives: the widget, or [TypeError] with its
    message. *)
Inductive construction : Type :=
| Built (w : HeadUpDisplay)
| TypeError (message : string).

Section Units.

(** The conversion factors of the gps library. *)
Variables MPS_TO_MPH MPS_TO_KPH MPS_TO_KNOTS METERS_TO_FEET : Q.

(** [repr] of the argument, [None] or a string. *)
Variable repr : option string -> string.

Definition conversions : list (string * Q) :=
  [("mph", MPS_TO_MPH); ("km/h", MPS_TO_KPH); ("knots", MPS_TO_KNOTS)].

Definition alt_conversions : list (string * Q) :=
  [("m", 1%Q); ("ft", METERS_TO_FEET)].

(** The attributes that [__init__] sets, up to the font and the builder. *)
Definition HeadUpDisplay_init (speed_unit_arg altitude_unit_arg : option string)
  : construction :=
  let speed_unit := or_default speed_unit_arg "mph" in
  match str_dict_get conversions speed_unit with
  | None => TypeError (repr speed_unit_arg ++ " is not a valid speed unit")
  | Some speedfactor =>
      let altitude_unit := or_default altitude_unit_arg "ft" in
      match str_dict_get alt_conversions altitude_unit with
      | None =>
          TypeError (repr altitude_unit_arg ++ " is not a valid altitude unit")
      | Some altfactor =>
          Built {| speed_unit := speed_unit; speedfactor := speedfactor;
                   altitude_unit := altitude_unit; altfactor := altfactor;
                   last_speed := 0; last_heading := 0;
                   last_mode := 0; last_status := 0;
                   latitude := None; longitude := None; altitude := None;
                   skyview := None; last_tpv := None |}
      end
  end.

(** The branch on [args.units] at the end of the script, for the default
    units of [gps.clienthelpers.unit_adjustments()]. *)
Definition main_units (units default_speed default_alt : string)
  : string * string :=
  if String.eqb units "traditional" || String.eqb units "imperial"
  then ("mph", "ft")
  else if String.eqb units "nautical" then ("knots", "ft")
  else if String.eqb units "metric" then ("km/h", "m")
  else (default_speed, default_alt).

Definition UNITS_CHOICES : list string :=
  ["metric"; "imperial"; "traditional"; "nautical"].

Definition default_units_argument (default_alt : string) : string :=
  if String.eqb default_alt "ft" then "imperial" else "metric".

(** [args.units] after [parse_args]: the default without the option, the
    given value when it is one of the choices, and no value (the parser
    exits) otherwise. *)
Definition parse_units (given : option string) (default_alt : string)
  : option string :=
  match given with
  | None => Some (default_units_argument default_alt)
  | Some u =>
      if existsb (String.eqb u) UNITS_CHOICES then Some u else None
  end.

(** The widget that the script builds. *)
Definition main_widget (given : option string) (default_speed default_alt : string)
  : option construction :=
  match parse_units given default_alt with
  | Some units =>
      let (speed_unit, altitude_unit) :=
        main_units units default_speed default_alt in
      Some (HeadUpDisplay_init (Some speed_unit) (Some altitude_unit))
  | None => None
  end.

End Units.

(** ** [HeadUpDisplay.__init__]: the font

    [families] is a generator over the names of the Pango font families,
    and [font in families] reads it up to the first name equal to [font],
    or to its end. *)

Definition FONTS : list string :=
  ["Roboto Slab"; "Inter"; "Roboto"; "Piboto"; "Open Sans"; "DejaVu Sans"].

(** [x in generator]: the answer and what is left of the generator. *)
Fixpoint generator_contains (x : string) (generator : list string)
  : bool * list string :=
  match generator with
  | [] => (false, [])
  | y :: rest =>
      if String.eqb y x then (true, rest) else generator_contains x rest
  end.

(** The loop [for font in FONTS] with its [break], from [font_face = '']. *)
Fixpoint choose_font (fonts : list string) (families : list string) : string :=
  match fonts with
  | [] => EmptyString
  | font :: rest =>
      let (found, families) := generator_contains font families in
      if found then font else choose_font rest families
  end.

Definition font_face (family_names : list string) : string :=
  choose_font FONTS family_names.

(** ** [HeadUpDisplay.update_data]: the labels

    The markups of the labels of the window, which [update_data] sets one
    after the other, and whether the [Time] label is visible.  An exception
    leaves the labels set so far as they are and the others with their old
    markup. *)

Record Labels : Type := {
  Heading : string;
  Speed : string;
  Unit : string;
  Date : string;
  Time_visible : bool;
  Fix : string;
  Position : string
}.

Definition set_Heading (l : Labels) (m : string) : Labels :=
  {| Heading := m; Speed := Speed l; Unit := Unit l; Date := Date l;
     Time_visible := Time_visible l; Fix := Fix l; Position := Position l |}.

Definition set_Speed (l : Labels) (m : string) : Labels :=
  {| Heading := Heading l; Speed := m; Unit := Unit l; Date := Date l;
     Time_visible := Time_visible l; Fix := Fix l; Position := Position l |}.

Definition set_Unit (l : Labels) (m : string) : Labels :=
  {| Heading := Heading l; Speed := Speed l; Unit := m; Date := Date l;
     Time_visible := Time_visible l; Fix := Fix l; Position := Position l |}.

Definition set_Date (l : Labels) (m : string) : Labels :=
  {| Heading := Heading l; Speed := Speed l; Unit := Unit l; Date := m;
     Time_visible := Time_visible l; Fix := Fix l; Position := Position l |}.

Definition set_Time_visible (l : Labels) (v : bool) : Labels :=
  {| Heading := Heading l; Speed := Speed l; Unit := Unit l; Date := Date l;
     Time_visible := v; Fix := Fix l; Position := Position l |}.

Definition set_Fix (l : Labels) (m : string) : Labels :=
  {| Heading := Heading l; Speed := Speed l; Unit := Unit l; Date := Date l;
     Time_visible := Time_visible l; Fix := m; Position := Position l |}.

Definition set_Position (l : Labels) (m : string) : Labels :=
  {| Heading := Heading l; Speed := Speed l; Unit := Unit l; Date := Date l;
     Time_visible := Time_visible l; Fix := Fix l; Position := m |}.

(** [str.upper] on the bytes of an ASCII string. *)
Definition ascii_upper (c : ascii) : ascii :=
  let n := nat_of_ascii c in
  if ((97 <=? n)%nat && (n <=? 122)%nat)%bool then ascii_of_nat (n - 32) else c.

Fixpoint str_upper (s : string) : string :=
  match s with
  | EmptyString => EmptyString
  | String c s' => String (ascii_upper c) (str_upper s')
  end.

Definition now_fmt : string := "%-I:%M %p".
Definition date_fmt : string := "%a, %b %-d".

Section Display.

(** [self.font_face], a font name without a percent sign. *)
Variable face : string.

(** The astral computations, as for [is_day]. *)
Variable daylight : Observer -> Z -> Z -> result (Z * Z).
Variable noon : Observer -> Z -> Z.
Variable zenith : Observer -> Z -> Q.

(** [dateutil.parser.isoparse(text).astimezone()], an instant or
    [ValueError], and [instant.strftime(format)] in the local zone. *)
Variable isoparse : string -> result Z.
Variable strftime : string -> Z -> string.

(** [f'{alt:#.5n}'], as for the position text. *)
Variable format_n5 : Q -> string.

Definition heading_markup (color text : string) : string :=
  "<span font='28' face='" ++ face ++ "' color='" ++ color ++ "'>" ++
  text ++ "</span>".

Definition speed_markup (color text : string) : string :=
  "<span font='140' face='" ++ face ++ "' color='" ++ color ++
  "' font_features='tnum=1,lnum=1'>" ++ text ++ "</span>".

Definition unit_markup (color text : string) : string :=
  "<span font='14' face='" ++ face ++ "' color='" ++ color ++ "'><b>" ++
  text ++ "</b></span>".

Definition today_markup (color text : string) : string :=
  "<span font='17.5' face='" ++ face ++ "' color='" ++ color ++
  "' font_features='tnum=1,lnum=1'>" ++ text ++ "</span>".

Definition now_markup (color text : string) : string :=
  "<span font='21' face='" ++ face ++ "' weight='bold' color='" ++ color ++
  "' font_features='tnum=1,lnum=1'>" ++ text ++ "</span>".

Definition fix_markup (color text : string) : string :=
  "<span font='17.5' face='" ++ face ++ "' color='" ++ color ++
  "' font_features='tnum=1,lnum=1'>" ++ text ++ "</span>".

Definition position_markup (color text : string) : string :=
  "<span font='17.5' face='" ++ face ++ "' color='" ++ color ++
  "' font_features='tnum=1,lnum=1'>" ++ text ++ "</span>".

(** The instant that the date label shows: the time of the stored report
    with a 2D or 3D fix, the wall clock otherwise.  [self.last_tpv.time] is
    read whenever the mode is 2 or more, and raises [AttributeError] when
    there is no stored report or no [time] key in it. *)
Definition display_time (w : HeadUpDisplay) (wall_clock : Z) : result Z :=
  if 2 <=? last_mode w then
    match last_tpv w with
    | Some tpv =>
        match tpv_time tpv with
        | Some EmptyString => Ok wall_clock
        | Some text => isoparse text
        | None => Raise AttributeError
        end
    | None => Raise AttributeError
    end
  else Ok wall_clock.

(** [update_data], for the two readings of the clock (the one of [is_day]
    and the one of the date label): the labels afterwards and the exception
    that ended the call, if any. *)
Definition update_data (w : HeadUpDisplay) (solar_clock wall_clock : Z)
           (labels : Labels) : Labels * option exn :=
  match is_day daylight noon zenith w solar_clock with
  | Raise e => (labels, Some e)
  | Ok day =>
      let color := if day then "#FFFFFF" else "#BBBBBB" in
      let unitcolor := if day then "#888888" else "#666666" in
      match get_direction_text w (last_heading w) with
      | Raise e => (labels, Some e)
      | Ok direction =>
          let labels := set_Heading labels (heading_markup color direction) in
          let labels :=
            set_Speed labels
                      (speed_markup color (get_speed_text w (last_speed w))) in
          let labels :=
            set_Unit labels (unit_markup unitcolor (str_upper (speed_unit w))) in
          match display_time w wall_clock with
          | Raise e => (labels, Some e)
          | Ok now =>
              let dtstr :=
                today_markup color (strftime date_fmt now) ++ newline ++
                now_markup color (strftime now_fmt now) in
              let labels := set_Date labels dtstr in
              let labels := set_Time_visible labels false in
              match fix_text w with
              | Raise e => (labels, Some e)
              | Ok fixtext =>
                  let postext := position_text format_n5 w in
                  let labels := set_Fix labels (fix_markup color fixtext) in
                  let labels :=
                    set_Position labels (position_markup color postext) in
                  (labels, None)
              end
          end
      end
  end.

(** [Main.update_speed] and [Main.update_sky] with the call of
    [update_data] that ends them. *)
Definition show_tpv (w : HeadUpDisplay) (data : TPV) (solar_clock wall_clock : Z)
           (labels : Labels) : HeadUpDisplay * (Labels * option exn) :=
  let w := update_speed w data in
  (w, update_data w solar_clock wall_clock labels).

Definition show_sky (w : HeadUpDisplay) (data : SKY) (solar_clock wall_clock : Z)
           (labels : Labels) : HeadUpDisplay * (Labels * option exn) :=
  let w := update_sky w data in
  (w, update_data w solar_clock wall_clock labels).

(** The [for report in daemon] loop of [Main.run].  An event is a report
    with the two readings of the clock of the call of [update_data] that
    ends its handling.  The loop ends by [break] at a TPV report whose mode
    is not negative, at the end of the stream, or by an exception of
    [update_data], which neither the loop nor [run] catches: [run] handles
    [SocketError] and [KeyboardInterrupt] only. *)
Definition event : Type := report * (Z * Z).

Inductive loop_end : Type :=
| Break
| StreamEnd
| Uncaught (e : exn).

(** The widget, the labels, how the loop ended and the events not read. *)
Fixpoint run_loop (widget : HeadUpDisplay) (labels : Labels)
         (events : list event)
  : HeadUpDisplay * Labels * loop_end * list event :=
  match events with
  | [] => (widget, labels, StreamEnd, [])
  | (TPVReport data, (solar_clock, wall_clock)) :: rest =>
      match show_tpv widget data solar_clock wall_clock labels with
      | (widget, (labels, Some e)) => (widget, labels, Uncaught e, rest)
      | (widget, (labels, None)) =>
          if 0 <=? tpv_mode data then (widget, labels, Break, rest)
          else run_loop widget labels rest
      end
  | (SKYReport data, (solar_clock, wall_clock)) :: rest =>
      match show_sky widget data solar_clock wall_clock labels with
      | (widget, (labels, Some e)) => (widget, labels, Uncaught e, rest)
      | (widget, (labels, None)) => run_loop widget labels rest
      end
  | (OtherReport, _) :: rest => run_loop widget labels rest
  end.

End Display.

Definition blank_labels : Labels :=
  {| Heading := EmptyString; Speed := EmptyString; Unit := EmptyString;
     Date := EmptyString; Time_visible := true; Fix := EmptyString;
     Position := EmptyString |}.

Definition report_fix_without_time : TPV :=
  {| tpv_mode := 3; tpv_status := Some 1; tpv_speed := Some 5%Q;
     tpv_track := Some 90%Q; tpv_lat := None; tpv_lon := None;
     tpv_altHAE := None; tpv_eph := None; tpv_epv := None;
     tpv_time := None |}.

Definition sample_isoparse (text : string) : result Z := Ok 0.

Definition sample_strftime (format : string) (t : Z) : string := format.

(** * Properties *)

(** ** Binary64 rounding *)

Lemma pow2_pos (e : Z) : (0 < 2 ^ e)%Q.
Proof. apply Qpower_0_lt. reflexivity. Qed.

Lemma pow2_add (a b : Z) : (2 ^ (a + b) == 2 ^ a * 2 ^ b)%Q.
Proof. apply Qpower_plus. discriminate. Qed.

Lemma pow2_Z (a : Z) : 0 <= a -> (2 ^ a == inject_Z (2 ^ a))%Q.
Proof. intros Ha. symmetry. apply (Zpower_Qpower 2 a Ha). Qed.

Lemma pow2_le (a b : Z) : a <= b -> (2 ^ a <= 2 ^ b)%Q.
Proof. intros H. apply Qpower_le_compat_l; [exact H|discriminate]. Qed.

Lemma pow2_lt (a b : Z) : a < b -> (2 ^ a < 2 ^ b)%Q.
Proof. intros H. apply Qpower_lt_compat_l; [exact H|reflexivity]. Qed.

Lemma pow2_lt_inv (a b : Z) : (2 ^ a < 2 ^ b)%Q -> a < b.
Proof. intros H. apply (Qpower_lt_compat_l_inv 2); [exact H|reflexivity]. Qed.

Lemma pow2_sub (a b : Z) : (2 ^ (a - b) == 2 ^ a / 2 ^ b)%Q.
Proof.
  unfold Z.sub. rewrite pow2_add, Qpower_opp. reflexivity.
Qed.

(** [n/d] between quotients of powers of two. *)
Lemma ilog2_spec (x : Q) :
  (0 < x)%Q -> (2 ^ ilog2 x <= x)%Q /\ (x < 2 ^ (ilog2 x + 1))%Q.
Proof.
  intros Hx. destruct x as [n d].
  assert (Hn : 0 < n) by (unfold Qlt in Hx; simpl in Hx; lia).
  unfold ilog2. cbn [Qnum Qden].
  set (a := Z.log2 n). set (b := Z.log2 (Zpos d)).
  assert (Ha : 0 <= a) by apply Z.log2_nonneg.
  assert (Hb : 0 <= b) by apply Z.log2_nonneg.
  destruct (Z.log2_spec n Hn) as [Ha1 Ha2]. fold a in Ha1, Ha2.
  destruct (Z.log2_spec (Zpos d) (Pos2Z.is_pos d)) as [Hb1 Hb2].
  fold b in Hb1, Hb2.
  rewrite <- Z.add_1_r in Ha2, Hb2.
  assert (Hnd : (n # d == inject_Z n / inject_Z (Zpos d))%Q).
  { rewrite (Qmake_Qdiv n d). reflexivity. }
  assert (Hd : (0 < inject_Z (Zpos d))%Q) by (unfold Qlt; simpl; lia).
  assert (Hup : (n # d < 2 ^ (a - b + 1))%Q).
  { replace (a - b + 1) with ((a + 1) - b) by lia.
    rewrite pow2_sub, Hnd, (pow2_Z (a + 1)), (pow2_Z b) by lia.
    apply Qlt_shift_div_l.
    - rewrite <- (pow2_Z b) by lia. apply pow2_pos.
    - unfold Qdiv. rewrite <- Qmult_assoc, (Qmult_comm (/ _)), Qmult_assoc.
      apply Qlt_shift_div_r; [exact Hd|].
      rewrite <- !inject_Z_mult, <- Zlt_Qlt. nia. }
  assert (Hlow : (2 ^ (a - b - 1) <= n # d)%Q).
  { replace (a - b - 1) with (a - (b + 1)) by lia.
    rewrite pow2_sub, Hnd, (pow2_Z a), (pow2_Z (b + 1)) by lia.
    apply Qle_shift_div_r.
    - rewrite <- (pow2_Z (b + 1)) by lia. apply pow2_pos.
    - unfold Qdiv. rewrite <- Qmult_assoc, (Qmult_comm (/ _)), Qmult_assoc.
      apply Qle_shift_div_l; [exact Hd|].
      rewrite <- !inject_Z_mult, <- Zle_Qle. nia. }
  destruct (Qle_bool (2 ^ (a - b)) (n # d)) eqn:E.
  - apply Qle_bool_iff in E. split; [exact E|exact Hup].
  - split; [exact Hlow|].
    replace (a - b - 1 + 1) with (a - b) by lia.
    apply Qnot_le_lt. intros H. apply Qle_bool_iff in H. congruence.
Qed.

Lemma round_half_even_half (n : Z) (d : positive) :
  2 * Z.abs (round_half_even n d * Zpos d - n) <= Zpos d.
Proof.
  unfold round_half_even.
  pose proof (Z.div_mod n (Zpos d) ltac:(lia)) as Hdm.
  pose proof (Z.mod_pos_bound n (Zpos d) ltac:(lia)) as Hr.
  set (q := n / Zpos d) in *. set (r := n mod Zpos d) in *.
  destruct (Z.compare_spec (2 * r) (Zpos d)) as [E|E|E];
    [destruct (Z.even q)|..]; nia.
Qed.

(** No integer is nearer to [n/d] than [round_half_even n d]. *)
Lemma round_half_even_nearest (n : Z) (d : positive) (j : Z) :
  Z.abs (round_half_even n d * Zpos d - n) <= Z.abs (j * Zpos d - n).
Proof.
  pose proof (round_half_even_half n d) as Hh.
  set (m := round_half_even n d) in *.
  destruct (Z.eq_dec j m) as [->|Hj]; [lia|].
  assert (Hd : Zpos d <= Z.abs ((j - m) * Zpos d)) by nia.
  replace (j * Zpos d - n) with ((m * Zpos d - n) + (j - m) * Zpos d) by ring.
  lia.
Qed.

Lemma Qabs_Z_over (a : Z) (d : positive) : Qabs (a # d) = (Z.abs a # d).
Proof. reflexivity. Qed.

(** On the grid of the multiples of [2^e], the rounded value is nearest. *)
Lemma grid_nearest (e : Z) (x : Q) (j : Z) :
  let y := (x / 2 ^ e)%Q in
  (Qabs (inject_Z (round_half_even (Qnum y) (Qden y)) * 2 ^ e - x) <=
   Qabs (inject_Z j * 2 ^ e - x))%Q.
Proof.
  intros y.
  pose proof (pow2_pos e) as Hp.
  assert (Hx : (x == y * 2 ^ e)%Q).
  { unfold y. field. intros H. rewrite H in Hp. discriminate. }
  set (m := round_half_even (Qnum y) (Qden y)).
  assert (Hs : forall k : Z,
    (Qabs (inject_Z k * 2 ^ e - x) == Qabs (inject_Z k - y) * 2 ^ e)%Q).
  { intros k.
    assert (E : (inject_Z k * 2 ^ e - x == (inject_Z k - y) * 2 ^ e)%Q)
      by (rewrite Hx at 1; ring).
    rewrite E, Qabs_Qmult, (Qabs_pos (2 ^ e)) by (apply Qlt_le_weak, Hp).
    reflexivity. }
  rewrite (Hs m), (Hs j).
  apply Qmult_le_compat_r; [|apply Qlt_le_weak, Hp].
  pose proof (round_half_even_nearest (Qnum y) (Qden y) j) as Hn.
  fold m in Hn. destruct y as [n d]. cbn [Qnum Qden] in *.
  unfold Qle, Qabs, Qminus, Qplus, Qopp, inject_Z. cbn [Qnum Qden].
  rewrite !Z.mul_1_r, !Pos.mul_1_l.
  replace (m * Zpos d + - n * 1) with (m * Zpos d - n) by ring.
  replace (j * Zpos d + - n * 1) with (j * Zpos d - n) by ring.
  apply Z.mul_le_mono_nonneg_r; lia.
Qed.

Lemma float53_bound (f : Q) (k g : Z) :
  Z.abs k < 2 ^ 53 -> (f == inject_Z k * 2 ^ g)%Q ->
  (- 2 ^ (g + 53) < f)%Q /\ (f < 2 ^ (g + 53))%Q.
Proof.
  intros Hk Ef. pose proof (pow2_pos g) as Hp.
  rewrite Ef, pow2_add, (pow2_Z 53) by lia.
  assert (H1 : (inject_Z k < inject_Z (2 ^ 53))%Q) by (rewrite <- Zlt_Qlt; lia).
  assert (H2 : (inject_Z (- 2 ^ 53) < inject_Z k)%Q)
    by (rewrite <- Zlt_Qlt; lia).
  rewrite inject_Z_opp in H2.
  split.
  - setoid_replace (- (2 ^ g * inject_Z (2 ^ 53)))%Q
      with ((- inject_Z (2 ^ 53)) * 2 ^ g)%Q by ring.
    apply Qmult_lt_compat_r; assumption.
  - rewrite (Qmult_comm (2 ^ g)). apply Qmult_lt_compat_r; assumption.
Qed.

Lemma ulp_exponent_min (x : Q) : -1074 <= ulp_exponent x.
Proof. unfold ulp_exponent. lia. Qed.

(** Above the subnormal range the magnitude has 53 bits at the ulp. *)
Lemma Qabs_pos_lt (x : Q) : ~ (x == 0)%Q -> (0 < Qabs x)%Q.
Proof.
  intros Hx. destruct (Qlt_le_dec 0 (Qabs x)) as [H0|H0]; [exact H0|exfalso].
  apply Hx. apply Qabs_Qle_condition in H0. lra.
Qed.

Lemma ulp_exponent_normal (x : Q) :
  ~ (x == 0)%Q -> -1074 < ulp_exponent x ->
  (2 ^ (ulp_exponent x + 52) <= Qabs x)%Q.
Proof.
  intros Hx H.
  destruct (ilog2_spec (Qabs x) (Qabs_pos_lt x Hx)) as [Hl _].
  replace (ulp_exponent x + 52) with (ilog2 (Qabs x))
    by (unfold ulp_exponent in *; lia).
  exact Hl.
Qed.

Lemma ulp_exponent_above (x : Q) :
  ~ (x == 0)%Q -> (Qabs x < 2 ^ (ulp_exponent x + 53))%Q.
Proof.
  intros Hx.
  destruct (ilog2_spec (Qabs x) (Qabs_pos_lt x Hx)) as [_ Hu].
  eapply Qlt_le_trans; [exact Hu|].
  apply pow2_le. unfold ulp_exponent. lia.
Qed.

(** [round64 x] is as near to [x] as any number of the format. *)
Lemma round64_nearest (x f : Q) :
  float53 f -> (Qabs (round64 x - x) <= Qabs (f - x))%Q.
Proof.
  intros (k & g & Hk & Hg & Ef). unfold round64.
  destruct (Qeq_bool x 0) eqn:E0.
  { apply Qeq_bool_iff in E0.
    setoid_replace (0 - x)%Q with 0%Q by (rewrite E0; ring).
    apply Qabs_nonneg. }
  assert (Hx : ~ (x == 0)%Q).
  { intros H. apply Qeq_bool_iff in H. congruence. }
  set (e := ulp_exponent x). cbv zeta.
  set (m := round_half_even _ _). rewrite Qred_correct.
  destruct (Z_le_gt_dec e g) as [Hge|Hlt].
  - assert (E : (f == inject_Z (k * 2 ^ (g - e)) * 2 ^ e)%Q).
    { rewrite Ef, inject_Z_mult, <- (pow2_Z (g - e)), <- Qmult_assoc,
        <- pow2_add by lia.
      replace (g - e + e) with g by lia. reflexivity. }
    rewrite E. apply grid_nearest.
  - pose proof (ulp_exponent_normal x Hx ltac:(fold e; lia)) as Hn. fold e in Hn.
    destruct (float53_bound f k g Hk Ef) as [Hf1 Hf2].
    pose proof (pow2_le (g + 53) (e + 52) ltac:(lia)) as Hp.
    assert (E52 : (inject_Z (2 ^ 52) * 2 ^ e == 2 ^ (e + 52))%Q).
    { rewrite <- (pow2_Z 52), <- pow2_add by lia.
      replace (52 + e) with (e + 52) by lia. reflexivity. }
    destruct (Qlt_le_dec 0 x) as [Hpos|Hneg].
    + rewrite (Qabs_pos x) in Hn by lra.
      eapply Qle_trans; [apply (grid_nearest e x (2 ^ 52))|].
      rewrite E52.
      rewrite (Qabs_neg (2 ^ (e + 52) - x)), (Qabs_neg (f - x)) by lra. lra.
    + rewrite (Qabs_neg x) in Hn by lra.
      eapply Qle_trans; [apply (grid_nearest e x (- 2 ^ 52))|].
      rewrite inject_Z_opp.
      setoid_replace (- inject_Z (2 ^ 52) * 2 ^ e)%Q
        with (- 2 ^ (e + 52))%Q by (rewrite <- E52; ring).
      rewrite (Qabs_pos (- 2 ^ (e + 52) - x)), (Qabs_pos (f - x)) by lra. lra.
Qed.

(** Rounding does not cross a number of the format. *)
Lemma round64_le (x c : Q) : float53 c -> (x <= c)%Q -> (round64 x <= c)%Q.
Proof.
  intros Hc Hx. pose proof (round64_nearest x c Hc) as Hn.
  destruct (Qlt_le_dec c (round64 x)) as [H|H]; [exfalso|exact H].
  rewrite (Qabs_pos (round64 x - x)), (Qabs_pos (c - x)) in Hn by lra. lra.
Qed.

Lemma round64_ge (x c : Q) : float53 c -> (c <= x)%Q -> (c <= round64 x)%Q.
Proof.
  intros Hc Hx. pose proof (round64_nearest x c Hc) as Hn.
  destruct (Qlt_le_dec (round64 x) c) as [H|H]; [exfalso|exact H].
  rewrite (Qabs_neg (round64 x - x)), (Qabs_neg (c - x)) in Hn by lra. lra.
Qed.

Lemma round64_exact (x : Q) : float53 x -> (round64 x == x)%Q.
Proof.
  intros Hx. apply Qle_antisym.
  - apply round64_le; [exact Hx|lra].
  - apply round64_ge; [exact Hx|lra].
Qed.

(** The rounded value is a number of the format. *)
Lemma round64_float53 (x : Q) : float53 (round64 x).
Proof.
  unfold round64. destruct (Qeq_bool x 0) eqn:E0.
  { exists 0, 0. repeat split; try lia. }
  assert (Hx : ~ (x == 0)%Q).
  { intros H. apply Qeq_bool_iff in H. congruence. }
  set (e := ulp_exponent x). cbv zeta.
  pose proof (ulp_exponent_min x) as He. fold e in He.
  pose proof (ulp_exponent_above x Hx) as Hu. fold e in Hu.
  pose proof (pow2_pos e) as Hp.
  set (y := (x / 2 ^ e)%Q).
  assert (Hy : (Qabs y < inject_Z (2 ^ 53))%Q).
  { unfold y, Qdiv. rewrite Qabs_Qmult, Qabs_Qinv, (Qabs_pos (2 ^ e)) by lra.
    apply Qlt_shift_div_r; [exact Hp|].
    rewrite <- (pow2_Z 53), <- pow2_add by lia.
    replace (53 + e) with (e + 53) by lia. exact Hu. }
  pose proof (round_half_even_half (Qnum y) (Qden y)) as Hh.
  set (m := round_half_even (Qnum y) (Qden y)) in *.
  assert (Hm : Z.abs m <= 2 ^ 53).
  { destruct y as [n d]. cbn [Qnum Qden] in *.
    unfold Qlt, Qabs, inject_Z in Hy. cbn [Qnum Qden] in Hy.
    assert (Z.abs m * Zpos d < (2 ^ 53 + 1) * Zpos d) by lia.
    nia. }
  destruct (Z_lt_le_dec (Z.abs m) (2 ^ 53)) as [Hlt|Hge].
  - exists m, e. split; [exact Hlt|]. split; [exact He|]. apply Qred_correct.
  - destruct (Z_le_gt_dec 0 m) as [Hs|Hs].
    + exists 1, (e + 53). split; [lia|]. split; [lia|].
      rewrite Qred_correct, pow2_add, (pow2_Z 53) by lia.
      replace m with (2 ^ 53) by lia. ring.
    + exists (-1), (e + 53). split; [lia|]. split; [lia|].
      rewrite Qred_correct, pow2_add, (pow2_Z 53) by lia.
      replace m with (- 2 ^ 53) by lia. rewrite inject_Z_opp.
      change (inject_Z (-1)) with (- (1))%Q. ring.
Qed.

(** The binary64 numbers are the numbers that rounding leaves alone. *)
Lemma binary64_float53 (x : Q) : binary64 x = true <-> float53 x.
Proof.
  unfold binary64. rewrite Qeq_bool_iff. split.
  - intros E. destruct (round64_float53 x) as (k & g & Hk & Hg & Er).
    exists k, g. rewrite <- E. auto.
  - apply round64_exact.
Qed.

(** A number of the format of magnitude at least [2^p] is a multiple of
    [2^(p-52)]. *)
Lemma float53_grid (h : Q) (p : Z) :
  float53 h -> (2 ^ p <= Qabs h)%Q ->
  exists j : Z, (h == inject_Z j * 2 ^ (p - 52))%Q.
Proof.
  intros (k & g & Hk & Hg & Eh) Hp.
  destruct (float53_bound h k g Hk Eh) as [H1 H2].
  assert (Hlt : (2 ^ p < 2 ^ (g + 53))%Q).
  { eapply Qle_lt_trans; [exact Hp|].
    destruct (Qlt_le_dec h 0) as [Hn|Hn].
    - rewrite Qabs_neg by lra. lra.
    - rewrite Qabs_pos by lra. lra. }
  apply pow2_lt_inv in Hlt.
  exists (k * 2 ^ (g - (p - 52))).
  rewrite Eh, inject_Z_mult, <- (pow2_Z (g - (p - 52))), <- Qmult_assoc,
    <- pow2_add by lia.
  replace (g - (p - 52) + (p - 52)) with g by lia. reflexivity.
Qed.

(** Two multiples of [2^g] in strict order are at least [2^g] apart. *)
Lemma grid_gap (g j k : Z) (h c : Q) :
  (h == inject_Z j * 2 ^ g)%Q -> (c == inject_Z k * 2 ^ g)%Q ->
  (h < c)%Q -> (h <= c - 2 ^ g)%Q.
Proof.
  intros Eh Ec Hlt. pose proof (pow2_pos g) as Hp.
  assert (Hjk : j < k).
  { rewrite Eh, Ec in Hlt.
    destruct (Z_lt_le_dec j k) as [H|H]; [exact H|exfalso].
    assert (inject_Z k <= inject_Z j)%Q by (rewrite <- Zle_Qle; exact H).
    assert (inject_Z k * 2 ^ g <= inject_Z j * 2 ^ g)%Q
      by (apply Qmult_le_compat_r; lra).
    lra. }
  assert (H1 : (inject_Z j <= inject_Z k - 1)%Q).
  { assert (H : (inject_Z j <= inject_Z (k - 1))%Q) by (rewrite <- Zle_Qle; lia).
    unfold Z.sub in H. rewrite inject_Z_plus in H. exact H. }
  rewrite Eh, Ec.
  setoid_replace (inject_Z k * 2 ^ g - 2 ^ g)%Q
    with ((inject_Z k - 1) * 2 ^ g)%Q by ring.
  apply Qmult_le_compat_r; lra.
Qed.

(** ** Number formatting, by example *)

Example format_fixed_1 : format_fixed 1 (3141 # 1000) = "3.1".
Proof. reflexivity. Qed.

Example format_fixed_0 : format_fixed 0 (-5 # 2) = "-2".
Proof. reflexivity. Qed.

Example format_fixed_5 : format_fixed 5 (1 # 8) = "0.12500".
Proof. reflexivity. Qed.

(** ** Strings *)

Lemma app_assoc_s (a b c : string) : (a ++ b) ++ c = a ++ b ++ c.
Proof. induction a as [|x a IH]; simpl; [reflexivity | now rewrite IH]. Qed.

Lemma app_empty_r (a : string) : a ++ EmptyString = a.
Proof. induction a as [|x a IH]; simpl; [reflexivity | now rewrite IH]. Qed.

Lemma starts_with_spec (p s : string) :
  starts_with p s = true <-> exists post, s = p ++ post.
Proof.
  revert s; induction p as [|a p IH]; intros s; simpl.
  - split; [intros _; now exists s | reflexivity].
  - destruct s as [|b s].
    + split; [discriminate | intros [post H]; discriminate].
    + rewrite andb_true_iff, Ascii.eqb_eq, IH. split.
      * intros [-> [post ->]]. now exists post.
      * intros [post H]. injection H as -> ->. split; [reflexivity | now exists post].
Qed.

Lemma containsb_spec (sub s : string) :
  containsb sub s = true <-> contains sub s.
Proof.
  unfold contains. induction s as [|b s IH].
  - simpl. rewrite orb_false_r, starts_with_spec. split.
    + intros [post H]. now exists EmptyString, post.
    + intros [pre [post H]]. destruct pre; [now exists post | discriminate].
  - cbn [containsb]. rewrite orb_true_iff, starts_with_spec, IH. split.
    + intros [[post H] | [pre [post H]]].
      * now exists EmptyString, post.
      * exists (String b pre), post. simpl. now rewrite H.
    + intros [pre [post H]]. destruct pre as [|c pre].
      * left. now exists post.
      * right. simpl in H. injection H as _ H. now exists pre, post.
Qed.

Lemma not_contains (sub s : string) :
  containsb sub s = false -> ~ contains sub s.
Proof.
  intros H C. apply containsb_spec in C. congruence.
Qed.

Lemma contains_app_l (sub a b : string) : contains sub a -> contains sub (a ++ b).
Proof.
  intros [pre [post ->]]. exists pre, (post ++ b).
  now rewrite !app_assoc_s.
Qed.

Lemma contains_app_r (sub a b : string) : contains sub b -> contains sub (a ++ b).
Proof.
  intros [pre [post ->]]. exists (a ++ pre), post.
  now rewrite !app_assoc_s.
Qed.

Lemma occurs_app (c : ascii) (a b : string) :
  occurs c (a ++ b) = occurs c a || occurs c b.
Proof.
  induction a as [|x a IH]; simpl; [reflexivity | now rewrite IH, orb_assoc].
Qed.

Lemma contains_occurs (c : ascii) (sub s : string) :
  contains sub s -> occurs c sub = true -> occurs c s = true.
Proof.
  intros [pre [post ->]] H. rewrite !occurs_app, H.
  now rewrite orb_true_r.
Qed.

Lemma occurs_join (c : ascii) (sep : string) (items : list string) :
  occurs c sep = false ->
  Forall (fun s => occurs c s = false) items ->
  occurs c (join sep items) = false.
Proof.
  intros Hsep H. induction H as [|s rest Hs Hrest IH]; [reflexivity|].
  destruct rest as [|s' rest]; [exact Hs|].
  change (join sep (s :: s' :: rest)) with (s ++ sep ++ join sep (s' :: rest)).
  now rewrite !occurs_app, Hs, Hsep, IH.
Qed.

(** ** Number formatting writes digits, a sign and a point only *)

Lemma numeric_app (a b : string) : numeric (a ++ b) = numeric a && numeric b.
Proof.
  induction a as [|x a IH]; simpl; [reflexivity | now rewrite IH, andb_assoc].
Qed.

Lemma numeric_occurs (c : ascii) (s : string) :
  numeric s = true -> numeric_char c = false -> occurs c s = false.
Proof.
  intros Hs Hc. induction s as [|a s IH]; [reflexivity|].
  simpl in *. apply andb_true_iff in Hs as [Ha Hs].
  rewrite (IH Hs), orb_false_r. apply Ascii.eqb_neq. congruence.
Qed.

Lemma numeric_uint (d : Decimal.uint) : numeric (NilEmpty.string_of_uint d) = true.
Proof. induction d; simpl; auto. Qed.

Lemma numeric_format_int (i : Z) : numeric (format_int i) = true.
Proof.
  unfold format_int, NilZero.string_of_int.
  destruct (Z.to_int i) as [d|d]; unfold NilZero.string_of_uint;
    destruct d; simpl; auto using numeric_uint.
Qed.

Lemma numeric_digit_char (d : Z) : numeric_char (digit_char d) = true.
Proof.
  unfold digit_char.
  assert (H : 0 <= d mod 10 < 10) by (apply Z.mod_pos_bound; lia).
  assert (E : d mod 10 = 0 \/ d mod 10 = 1 \/ d mod 10 = 2 \/ d mod 10 = 3 \/
              d mod 10 = 4 \/ d mod 10 = 5 \/ d mod 10 = 6 \/ d mod 10 = 7 \/
              d mod 10 = 8 \/ d mod 10 = 9) by lia.
  repeat (destruct E as [E | E]; [rewrite E; reflexivity|]).
  rewrite E; reflexivity.
Qed.

Lemma numeric_frac_digits (prec : nat) (m : Z) : numeric (frac_digits prec m) = true.
Proof.
  induction prec as [|p IH]; [reflexivity|].
  cbn [frac_digits numeric]. now rewrite numeric_digit_char, IH.
Qed.

Lemma numeric_format_fixed (prec : nat) (x : Q) : numeric (format_fixed prec x) = true.
Proof.
  unfold format_fixed. rewrite !numeric_app, numeric_format_int.
  assert (Hs : numeric (if Qnum x <? 0 then "-" else "") = true)
    by (destruct (Qnum x <? 0); reflexivity).
  rewrite Hs. destruct prec as [|p]; [reflexivity|].
  rewrite numeric_app, numeric_frac_digits. reflexivity.
Qed.

(** ** Merging a TPV report *)

(** C1, as the code has it: a TPV report always overwrites the fix mode;
    it overwrites status, speed, heading, latitude, longitude and altitude
    when it carries them and leaves them as they were when it does not; the
    stored report is replaced by the new one, so the eph and epv that the
    display reads are those of the latest report alone; the sky view and the
    units are untouched. *)
Theorem update_speed_merge (w : HeadUpDisplay) (data : TPV) :
  let w' := update_speed w data in
  last_mode w' = tpv_mode data /\
  last_status w' = or_else (tpv_status data) (last_status w) /\
  last_speed w' = or_else (tpv_speed data) (last_speed w) /\
  last_heading w' = or_else (tpv_track data) (last_heading w) /\
  latitude w' = or_keep (tpv_lat data) (latitude w) /\
  longitude w' = or_keep (tpv_lon data) (longitude w) /\
  altitude w' = or_keep (tpv_altHAE data) (altitude w) /\
  last_tpv w' = Some data /\
  known_eph w' = tpv_eph data /\
  known_epv w' = tpv_epv data /\
  skyview w' = skyview w /\
  speed_unit w' = speed_unit w /\ speedfactor w' = speedfactor w /\
  altitude_unit w' = altitude_unit w /\ altfactor w' = altfactor w.
Proof.
  unfold update_speed, known_eph, known_epv.
  destruct data as [m st sp tr la lo al eh ev ti]; cbn [tpv_mode tpv_status
    tpv_speed tpv_track tpv_lat tpv_lon tpv_altHAE tpv_eph tpv_epv].
  destruct st, sp, tr, la, lo, al; cbn; repeat split; reflexivity.
Qed.

(** C1 as stated fails: a report without eph and epv, processed after one
    that carried them, leaves the display without either. *)
Lemma update_speed_forgets_eph :
  let w1 := update_speed initial_widget report_with_eph in
  let w2 := update_speed w1 report_without_eph in
  known_eph w1 = Some 4%Q /\ known_epv w1 = Some 7%Q /\
  tpv_eph report_without_eph = None /\ tpv_epv report_without_eph = None /\
  known_eph w2 = None /\ known_epv w2 = None /\
  fix_text w1 = Ok ("Normal 3D fix" ++ newline ++ "CEP: " ++ plus_minus ++
                    hair_space ++ "13.1 ft") /\
  fix_text w2 = Ok "Normal 3D fix".
Proof. cbv. repeat split; reflexivity. Qed.

(** ** The direction text *)

Lemma Qfloor_lt_iff (x : Q) (n : Z) : Qfloor x < n <-> (x < inject_Z n)%Q.
Proof.
  split; intros H.
  - apply Qlt_le_trans with (inject_Z (Qfloor x + 1)); [apply Qlt_floor|].
    rewrite <- Zle_Qle. lia.
  - rewrite Zlt_Qlt. apply Qle_lt_trans with x; [apply Qfloor_le | exact H].
Qed.

Lemma Qfloor_ge_iff (x : Q) (n : Z) : n <= Qfloor x <-> (inject_Z n <= x)%Q.
Proof.
  split; intros H.
  - apply Qle_trans with (inject_Z (Qfloor x)); [|apply Qfloor_le].
    rewrite <- Zle_Qle. exact H.
  - apply (Qfloor_resp_le (inject_Z n) x) in H. now rewrite Qfloor_Z in H.
Qed.

Lemma Qfloor_eq (x : Q) (n : Z) :
  (inject_Z n <= x)%Q -> (x < inject_Z (n + 1))%Q -> Qfloor x = n.
Proof.
  intros H1 H2. apply Qfloor_ge_iff in H1. apply Qfloor_lt_iff in H2. lia.
Qed.

Ltac float53_const k g :=
  exists k, g;
  split; [vm_compute; reflexivity|split; [lia|vm_compute; reflexivity]].

Lemma float53_Z (k : Z) : Z.abs k < 2 ^ 53 -> float53 (inject_Z k).
Proof.
  intros H. exists k, 0. split; [exact H|]. split; [lia|].
  change (2 ^ 0)%Q with 1%Q. ring.
Qed.

(** The sum of two floats stays between the numbers of the format that
    bound the exact sum. *)
Lemma fadd_between (x y lo hi : Q) :
  float53 lo -> float53 hi -> (lo <= x + y)%Q -> (x + y <= hi)%Q ->
  (lo <= fadd x y)%Q /\ (fadd x y <= hi)%Q.
Proof.
  intros Hlo Hhi H1 H2. unfold fadd. split.
  - apply round64_ge; assumption.
  - apply round64_le; assumption.
Qed.

(** Rounding moves the quotient by an integer [d] into the next bucket at
    most, and only by reaching the multiple of [d] above. *)
Lemma floor_round_step (x : Q) (d : Z) :
  0 < d ->
  let b := Qfloor (x / inject_Z d) in
  Z.abs (d * b) < 2 ^ 53 -> Z.abs (d * (b + 1)) < 2 ^ 53 ->
  Qfloor (round64 x / inject_Z d) = b \/
  ((round64 x == inject_Z (d * (b + 1)))%Q /\
   Qfloor (round64 x / inject_Z d) = b + 1).
Proof.
  intros Hd b Hb Hb1.
  assert (HdQ : (0 < inject_Z d)%Q)
    by (change 0%Q with (inject_Z 0); rewrite <- Zlt_Qlt; exact Hd).
  assert (Ex : (x == x / inject_Z d * inject_Z d)%Q).
  { field. intros H. rewrite H in HdQ. discriminate. }
  assert (Hlo : (inject_Z (d * b) <= x)%Q).
  { rewrite inject_Z_mult, Qmult_comm, Ex.
    apply Qmult_le_compat_r; [apply Qfloor_le | lra]. }
  assert (Hhi : (x < inject_Z (d * (b + 1)))%Q).
  { rewrite inject_Z_mult, Qmult_comm, Ex.
    apply Qmult_lt_compat_r; [exact HdQ | apply Qlt_floor]. }
  pose proof (round64_ge x _ (float53_Z _ Hb) Hlo) as Rlo.
  pose proof (round64_le x _ (float53_Z _ Hb1) (Qlt_le_weak _ _ Hhi)) as Rhi.
  set (r := round64 x) in *.
  assert (Qlo : (inject_Z b <= r / inject_Z d)%Q).
  { apply Qle_shift_div_l; [exact HdQ|].
    rewrite Qmult_comm, <- inject_Z_mult. exact Rlo. }
  destruct (Qlt_le_dec r (inject_Z (d * (b + 1)))) as [Hlt|Hge].
  - left. apply Qfloor_eq; [exact Qlo|].
    apply Qlt_shift_div_r; [exact HdQ|].
    rewrite Qmult_comm, <- inject_Z_mult. exact Hlt.
  - assert (E : (r == inject_Z (d * (b + 1)))%Q) by (apply Qle_antisym; assumption).
    right. split; [exact E|].
    assert (Eq : (r / inject_Z d == inject_Z (b + 1))%Q).
    { rewrite E, inject_Z_mult. field. intros H. rewrite H in HdQ.
      discriminate. }
    rewrite Eq. apply Qfloor_Z.
Qed.

(** The bucket of the exact sum, for a heading of the data model. *)
Lemma compass_bucket_range (heading : Q) :
  (0 <= heading)%Q -> (heading < 360)%Q ->
  0 <= Qfloor ((heading + 22.5) / 45)%Q <= 8.
Proof.
  intros H0 H360. split.
  - apply Qfloor_ge_iff. apply Qle_shift_div_l; [reflexivity|].
    change (inject_Z 0) with 0%Q. lra.
  - assert (H : Qfloor ((heading + 22.5) / 45)%Q < 9); [|lia].
    apply Qfloor_lt_iff. apply Qlt_shift_div_r; [reflexivity|].
    change (inject_Z 9) with 9%Q. lra.
Qed.

(** The index that the code computes, for a heading of the data model. *)
Lemma compass_index_range (heading : Q) :
  (0 <= heading)%Q -> (heading < 360)%Q ->
  0 <= Qfloor (fadd heading 22.5 / 45)%Q <= 8.
Proof.
  intros H0 H360.
  destruct (fadd_between heading 22.5 22.5 382.5) as [Hlo Hhi];
    [float53_const 45 (-1) | float53_const 765 (-1) | lra | lra |].
  split.
  - apply Qfloor_ge_iff. apply Qle_shift_div_l; [reflexivity|].
    change (inject_Z 0) with 0%Q. lra.
  - assert (H : Qfloor (fadd heading 22.5 / 45)%Q < 9); [|lia].
    apply Qfloor_lt_iff. apply Qlt_shift_div_r; [reflexivity|].
    change (inject_Z 9) with 9%Q. lra.
Qed.

Lemma compass_wraps (i : Z) :
  0 <= i <= 8 ->
  tuple_getitem COMPASS i =
  Ok (nth (Z.to_nat (i mod 8)) COMPASS_POINTS EmptyString).
Proof.
  intros H.
  assert (E : i = 0 \/ i = 1 \/ i = 2 \/ i = 3 \/ i = 4 \/ i = 5 \/ i = 6 \/
              i = 7 \/ i = 8) by lia.
  repeat (destruct E as [E | E]; [subst i; reflexivity|]).
  subst i; reflexivity.
Qed.

(** C6, as the code has it: with a 2D or 3D fix, a heading in [0, 360) is
    shown as the compass point at index floor((heading (+) 22.5) / 45)
    mod 8 of N, NE, E, SE, S, SW, W, NW, where (+) is the binary64 sum.
    That is the index floor((heading + 22.5) / 45) mod 8 of the exact sum,
    or the next one; the next one only when the sum rounds up to a
    multiple of 45, and never when the sum is exact.  The binary64
    headings 0.0, 44.9 and 359.9 give N, NE and N; a boundary 45 k + 22.5
    falls into the higher bucket k + 1 (mod 8); with mode Unknown or NoFix
    the text is a dash. *)
Theorem direction_text_float_bucket (w : HeadUpDisplay) (heading : Q) :
  ((last_mode w = Fix2D \/ last_mode w = Fix3D) ->
   (0 <= heading)%Q -> (heading < 360)%Q ->
   get_direction_text w heading =
   Ok (nth (Z.to_nat (float_bucket heading)) COMPASS_POINTS EmptyString) /\
   (float_bucket heading = compass_bucket heading \/
    (fadd heading 22.5 ==
     inject_Z (45 * (Qfloor ((heading + 22.5) / 45) + 1)))%Q /\
    float_bucket heading = (compass_bucket heading + 1) mod 8) /\
   (binary64 (heading + 22.5) = true ->
    float_bucket heading = compass_bucket heading)) /\
  ((last_mode w = Fix2D \/ last_mode w = Fix3D) ->
   get_direction_text w 0%Q = Ok "N" /\
   get_direction_text w heading_44_9 = Ok "NE" /\
   get_direction_text w heading_359_9 = Ok "N") /\
  ((last_mode w = Fix2D \/ last_mode w = Fix3D) ->
   forall k : Z, 0 <= k < 8 ->
   compass_bucket (inject_Z k * 45 + 22.5)%Q = (k + 1) mod 8 /\
   get_direction_text w (inject_Z k * 45 + 22.5)%Q =
   Ok (nth (Z.to_nat ((k + 1) mod 8)) COMPASS_POINTS EmptyString)) /\
  ((last_mode w = Unknown \/ last_mode w = NoFix) ->
   get_direction_text w heading = Ok "-").
Proof.
  unfold Fix2D, Fix3D, Unknown, NoFix.
  split; [|split; [|split]].
  - intros Hm H0 H360.
    assert (Hg : (last_mode w =? 0) || (last_mode w =? 1) = false)
      by (destruct Hm as [-> | ->]; reflexivity).
    pose proof (compass_bucket_range heading H0 H360) as Hb.
    split; [|split].
    + unfold get_direction_text, float_bucket. rewrite Hg.
      apply compass_wraps. now apply compass_index_range.
    + unfold float_bucket, compass_bucket, fadd.
      pose proof (floor_round_step (heading + 22.5) 45 ltac:(lia)) as Hstep.
      change (inject_Z 45) with 45%Q in Hstep. cbv zeta in Hstep.
      assert (H53 : 2 ^ 53 = 9007199254740992) by reflexivity.
      destruct Hstep as [E | [E1 E2]]; [lia | lia | left | right].
      * now rewrite E.
      * split; [exact E1|].
        rewrite E2. now rewrite Z.add_mod_idemp_l by lia.
    + intros Hx. apply binary64_float53 in Hx.
      unfold float_bucket, compass_bucket, fadd.
      now rewrite (round64_exact _ Hx).
  - intros Hm. unfold get_direction_text.
    destruct Hm as [-> | ->]; repeat split; vm_compute; reflexivity.
  - intros Hm k Hk.
    assert (E : k = 0 \/ k = 1 \/ k = 2 \/ k = 3 \/ k = 4 \/ k = 5 \/ k = 6 \/
                k = 7) by lia.
    unfold get_direction_text.
    destruct Hm as [-> | ->];
      (repeat (destruct E as [E | E];
               [subst k; split; vm_compute; reflexivity|]));
      subst k; split; vm_compute; reflexivity.
  - unfold get_direction_text. intros [-> | ->]; reflexivity.
Qed.

Lemma direction_text_float_bucket_witness :
  get_direction_text (widget_in_mode Fix3D) 200%Q = Ok "S" /\
  get_direction_text (widget_in_mode Fix3D) (inject_Z 7 * 45 + 22.5)%Q = Ok "N" /\
  get_direction_text (widget_in_mode NoFix) 200%Q = Ok "-".
Proof.
  destruct (direction_text_float_bucket (widget_in_mode Fix3D) 200%Q)
    as [H1 [_ [H3 _]]].
  destruct (direction_text_float_bucket (widget_in_mode NoFix) 200%Q)
    as [_ [_ [_ H4]]].
  split; [|split].
  - destruct (H1 (or_intror eq_refl)) as [E _];
      [discriminate | reflexivity | exact E].
  - apply (H3 (or_intror eq_refl) 7). lia.
  - apply H4. right; reflexivity.
Defined.

(** C6, where the data model differs: the binary64 heading
    22.499999999999996 lies in [0, 360) and its exact sum with 22.5 is
    below 45, index 0 and N by the data model; the binary64 sum is 45, and
    the code shows NE. *)
Lemma direction_text_rounds_up :
  binary64 heading_below_NE = true /\
  (0 <= heading_below_NE)%Q /\ (heading_below_NE < 360)%Q /\
  compass_bucket heading_below_NE = 0 /\
  nth (Z.to_nat (compass_bucket heading_below_NE)) COMPASS_POINTS EmptyString
  = "N" /\
  (fadd heading_below_NE 22.5 == 45)%Q /\
  get_direction_text (widget_in_mode Fix3D) heading_below_NE = Ok "NE".
Proof.
  split; [vm_compute; reflexivity|].
  split; [discriminate|]. split; [reflexivity|].
  split; [vm_compute; reflexivity|]. split; [vm_compute; reflexivity|].
  split; vm_compute; reflexivity.
Qed.

(** ** Dicts *)

Section DictFacts.

Context {V : Type}.

Lemma dict_get_set (d : dict V) (k p : Z) (v : V) :
  dict_get (dict_set d k v) p = if k =? p then Some v else dict_get d p.
Proof.
  induction d as [|[k' v'] d IH]; simpl.
  - reflexivity.
  - destruct (k' =? k) eqn:E; simpl.
    + apply Z.eqb_eq in E; subst k'. now destruct (k =? p).
    + destruct (k' =? p) eqn:E'; [|exact IH].
      apply Z.eqb_eq in E'; subst k'. now rewrite Z.eqb_sym, E.
Qed.

Lemma dict_keys_set (d : dict V) (k p : Z) (v : V) :
  In p (dict_keys (dict_set d k v)) <-> p = k \/ In p (dict_keys d).
Proof.
  unfold dict_keys. induction d as [|[k' v'] d IH]; simpl.
  - intuition.
  - destruct (k' =? k) eqn:E; simpl.
    + apply Z.eqb_eq in E; subst k'. intuition.
    + rewrite IH. intuition.
Qed.

Lemma dict_get_keys (d : dict V) (k : Z) :
  In k (dict_keys d) <-> dict_get d k <> None.
Proof.
  unfold dict_keys. induction d as [|[k' v'] d IH]; simpl.
  - intuition.
  - destruct (k' =? k) eqn:E.
    + apply Z.eqb_eq in E. split; [discriminate | auto].
    + apply Z.eqb_neq in E. rewrite <- IH. intuition.
Qed.

End DictFacts.

(** ** The satellite loop *)

Lemma count_satellites_snoc (sats : list Satellite) (sat : Satellite) :
  count_satellites (sats ++ [sat]) = count_satellite (count_satellites sats) sat.
Proof. unfold count_satellites. now rewrite fold_left_app. Qed.

Lemma last_ss_snoc (sel : Satellite -> bool) (sats : list Satellite)
      (sat : Satellite) (prn : Z) :
  last_ss sel (sats ++ [sat]) prn =
  if sel sat && (PRN sat =? prn) then ss sat else last_ss sel sats prn.
Proof.
  unfold last_ss. rewrite rev_app_distr. simpl.
  now destruct (sel sat && (PRN sat =? prn)).
Qed.

Lemma sigstrength_last (sats : list Satellite) (prn : Z) :
  dict_get (sigstrength (count_satellites sats)) prn = last_ss heard sats prn.
Proof.
  induction sats as [|sat sats IH] using rev_ind; [reflexivity|].
  rewrite count_satellites_snoc, last_ss_snoc.
  unfold count_satellite, heard.
  destruct (gnssid sat) as [g|]; [|exact IH].
  destruct (ss sat) as [v|]; cbn [sigstrength]; [|exact IH].
  rewrite dict_get_set. cbn [andb]. now destruct (PRN sat =? prn).
Qed.

Lemma usedsigstrength_last (sats : list Satellite) (prn : Z) :
  dict_get (usedsigstrength (count_satellites sats)) prn =
  last_ss heard_used sats prn.
Proof.
  induction sats as [|sat sats IH] using rev_ind; [reflexivity|].
  rewrite count_satellites_snoc, last_ss_snoc.
  unfold count_satellite, heard_used, heard.
  destruct (gnssid sat) as [g|]; [|exact IH].
  destruct (ss sat) as [v|]; cbn [usedsigstrength]; [|exact IH].
  destruct (used sat); cbn [andb]; [|exact IH].
  rewrite dict_get_set. now destruct (PRN sat =? prn).
Qed.

Lemma last_ss_found (sel : Satellite -> bool) (sats : list Satellite)
      (prn : Z) (v : Q) :
  last_ss sel sats prn = Some v ->
  exists sat, In sat sats /\ sel sat = true /\ PRN sat = prn /\ ss sat = Some v.
Proof.
  unfold last_ss.
  destruct (find _ (rev sats)) as [sat|] eqn:F; [|discriminate].
  intros E. apply find_some in F as [Hin Hsel].
  apply andb_true_iff in Hsel as [Hsel Hp]. apply Z.eqb_eq in Hp.
  exists sat. rewrite in_rev. auto.
Qed.

Lemma last_ss_present (sel : Satellite -> bool) (sats : list Satellite)
      (sat : Satellite) :
  (forall s, sel s = true -> ss s <> None) ->
  In sat sats -> sel sat = true ->
  last_ss sel sats (PRN sat) <> None.
Proof.
  intros Hss Hin Hsel. unfold last_ss.
  destruct (find _ (rev sats)) as [s|] eqn:F.
  - apply find_some in F as [_ Hs]. apply andb_true_iff in Hs as [Hs _].
    now apply Hss.
  - rewrite in_rev in Hin. apply (find_none _ _ F sat) in Hin.
    rewrite Hsel, Z.eqb_refl in Hin. discriminate.
Qed.

Lemma last_ss_unique (sel : Satellite -> bool) (sats : list Satellite)
      (sat : Satellite) :
  NoDup (map PRN sats) ->
  In sat sats -> sel sat = true ->
  last_ss sel sats (PRN sat) = ss sat.
Proof.
  intros Hnd Hin Hsel. unfold last_ss.
  destruct (find _ (rev sats)) as [s|] eqn:F.
  - apply find_some in F as [Hs Hp]. apply andb_true_iff in Hp as [_ Hp].
    apply Z.eqb_eq in Hp. rewrite <- in_rev in Hs.
    assert (E : s = sat); [|now subst].
    clear Hsel. induction sats as [|x sats IH]; [contradiction|].
    simpl in Hnd. inversion Hnd as [|? ? Hx Hnd']; subst.
    destruct Hs as [-> | Hs], Hin as [<- | Hin]; auto.
    + exfalso. apply Hx. rewrite Hp. now apply in_map.
    + exfalso. apply Hx. rewrite <- Hp. now apply in_map.
  - rewrite in_rev in Hin. apply (find_none _ _ F sat) in Hin.
    rewrite Hsel, Z.eqb_refl in Hin. discriminate.
Qed.

Lemma heard_has_ss (sat : Satellite) : heard sat = true -> ss sat <> None.
Proof. unfold heard. destruct (gnssid sat), (ss sat); congruence. Qed.

Lemma heard_used_has_ss (sat : Satellite) : heard_used sat = true -> ss sat <> None.
Proof.
  unfold heard_used. intros H. apply andb_true_iff in H as [H _].
  now apply heard_has_ss.
Qed.

Lemma last_ss_unique_none (sel : Satellite -> bool) (sats : list Satellite)
      (sat : Satellite) :
  NoDup (map PRN sats) ->
  In sat sats -> sel sat = false ->
  last_ss sel sats (PRN sat) = None.
Proof.
  intros Hnd Hin Hsel.
  destruct (last_ss sel sats (PRN sat)) as [v|] eqn:E; [|reflexivity].
  apply last_ss_found in E as [s [Hs [Hsel' [Hp _]]]].
  assert (Es : s = sat); [|subst; congruence].
  clear Hsel Hsel'. induction sats as [|x sats IH]; [contradiction|].
  simpl in Hnd. inversion Hnd as [|? ? Hx Hnd']; subst.
  destruct Hs as [-> | Hs], Hin as [<- | Hin]; auto.
  - exfalso. apply Hx. rewrite Hp. now apply in_map.
  - exfalso. apply Hx. rewrite <- Hp. now apply in_map.
Qed.

(** C3, as the code has it: the loop skips an entry without gnssid.  Of
    the entries that carry both gnssid and ss, all_snr maps each PRN to the
    ss of the last such entry with that PRN, and used_snr does the same
    over those of them that are used; every such entry has its PRN in
    all_snr (and in used_snr when used); when the PRNs of the report are
    distinct, all_snr maps the PRN of each such entry to its own ss and
    used_snr holds exactly those with the used flag; the dicts hold nothing
    else. *)
Theorem snr_dicts_collect (sats : list Satellite) :
  let st := count_satellites sats in
  (forall prn, dict_get (sigstrength st) prn = last_ss heard sats prn) /\
  (forall prn, dict_get (usedsigstrength st) prn = last_ss heard_used sats prn) /\
  (forall sat, In sat sats -> gnssid sat <> None -> ss sat <> None ->
     dict_get (sigstrength st) (PRN sat) <> None /\
     (used sat = true -> dict_get (usedsigstrength st) (PRN sat) <> None)) /\
  (NoDup (map PRN sats) ->
   forall sat, In sat sats -> gnssid sat <> None -> ss sat <> None ->
     dict_get (sigstrength st) (PRN sat) = ss sat /\
     dict_get (usedsigstrength st) (PRN sat) =
       if used sat then ss sat else None) /\
  (forall prn v, dict_get (sigstrength st) prn = Some v ->
     exists sat, In sat sats /\ gnssid sat <> None /\
                 PRN sat = prn /\ ss sat = Some v) /\
  (forall prn v, dict_get (usedsigstrength st) prn = Some v ->
     exists sat, In sat sats /\ gnssid sat <> None /\ used sat = true /\
                 PRN sat = prn /\ ss sat = Some v) /\
  (forall sat, gnssid sat = None ->
     count_satellites (sats ++ [sat]) = count_satellites sats).
Proof.
  assert (Hheard : forall sat, gnssid sat <> None -> ss sat <> None ->
                               heard sat = true).
  { intros sat. unfold heard. destruct (gnssid sat), (ss sat); congruence. }
  assert (Hgnss : forall sat, heard sat = true -> gnssid sat <> None).
  { intros sat. unfold heard. destruct (gnssid sat); congruence. }
  cbv zeta. repeat split.
  - apply sigstrength_last.
  - apply usedsigstrength_last.
  - rewrite sigstrength_last.
    apply last_ss_present; auto using heard_has_ss.
  - intros Hu. rewrite usedsigstrength_last.
    apply last_ss_present; auto using heard_used_has_ss.
    unfold heard_used. now rewrite Hheard, Hu.
  - rewrite sigstrength_last. apply last_ss_unique; auto.
  - rewrite usedsigstrength_last. destruct (used sat) eqn:Hu.
    + apply last_ss_unique; auto. unfold heard_used. now rewrite Hheard, Hu.
    + apply last_ss_unique_none; auto. unfold heard_used.
      now rewrite Hu, andb_false_r.
  - intros prn v E. rewrite sigstrength_last in E.
    apply last_ss_found in E as [sat [Hin [Hsel [Hp Hv]]]].
    exists sat. auto.
  - intros prn v E. rewrite usedsigstrength_last in E.
    apply last_ss_found in E as [sat [Hin [Hsel [Hp Hv]]]].
    apply andb_true_iff in Hsel as [Hsel Hu].
    exists sat. auto.
  - intros sat Hg. rewrite count_satellites_snoc.
    unfold count_satellite. now rewrite Hg.
Qed.

Lemma snr_dicts_collect_witness :
  let st := count_satellites sample_satellites in
  dict_get (sigstrength st) 4 = Some 20%Q /\
  dict_get (usedsigstrength st) 4 = None /\
  dict_get (usedsigstrength st) 301 = Some 40%Q.
Proof.
  destruct (snr_dicts_collect sample_satellites) as [_ [_ [_ [H _]]]].
  assert (Hnd : NoDup (map PRN sample_satellites)).
  { repeat constructor; simpl; intuition discriminate. }
  split; [|split].
  - apply (H Hnd sat_gps_unused); simpl; auto; discriminate.
  - apply (H Hnd sat_gps_unused); simpl; auto; discriminate.
  - apply (H Hnd sat_galileo_used); simpl; auto; discriminate.
Defined.

(** C3 as stated fails: an entry with ss but without gnssid reaches
    neither all_snr nor used_snr. *)
Lemma snr_dicts_skip_without_gnssid :
  let st := count_satellites [sat_without_gnssid] in
  In sat_without_gnssid [sat_without_gnssid] /\
  ss sat_without_gnssid = Some 30%Q /\
  used sat_without_gnssid = true /\
  dict_get (sigstrength st) (PRN sat_without_gnssid) = None /\
  dict_get (usedsigstrength st) (PRN sat_without_gnssid) = None /\
  sigstrength st = [] /\ usedsigstrength st = [].
Proof. cbv. intuition. Qed.

(** ** Signal-strength statistics *)

Lemma stdev_defined (xs : list Q) :
  (1 < List.length xs)%nat -> exists sd, stdev xs = Ok sd.
Proof.
  intros H. unfold stdev.
  destruct (Z.of_nat (List.length xs) <? 2) eqn:E; [|eauto].
  apply Z.ltb_lt in E. lia.
Qed.









Example snr_line_single :
  snr_line "All SNR" [30%Q] =
  Ok (span "10" ++ "All SNR: 30" ++ en_dash ++ "30</span>").
Proof. vm_compute. reflexivity. Qed.

Example snr_line_pair :
  snr_line "Used SNR" [30%Q; 40%Q] =
  Ok (span "10" ++ "Used SNR: 30" ++ en_dash ++ "40, " ++ x_bar ++
      "=35.0, " ++ italic_s ++ "=7.1</span>").
Proof. vm_compute. reflexivity. Qed.

(** ** The satellite block of the fix text *)

Lemma occurs_String (c a : ascii) (s : string) :
  occurs c (String a s) = Ascii.eqb a c || occurs c s.
Proof. reflexivity. Qed.

Ltac split_occurs := repeat (rewrite occurs_app || rewrite occurs_String).

Lemma occurs_numeric_C (s : string) : numeric s = true -> occurs letter_C s = false.
Proof. intros H. now apply numeric_occurs. Qed.

Lemma occurs_C_int (i : Z) : occurs letter_C (format_int i) = false.
Proof. apply occurs_numeric_C, numeric_format_int. Qed.

Lemma occurs_C_fixed (prec : nat) (x : Q) :
  occurs letter_C (format_fixed prec x) = false.
Proof. apply occurs_numeric_C, numeric_format_fixed. Qed.

Lemma snr_line_shape (label : string) (xs : list Q) :
  xs <> [] ->
  exists lo hi rest,
    builtin_min xs = Ok lo /\ builtin_max xs = Ok hi /\
    occurs letter_C rest = false /\
    snr_line label xs =
    Ok ((span "10" ++ label ++ ": " ++
         format_fixed 0 lo ++ en_dash ++ format_fixed 0 hi) ++ rest).
Proof.
  intros H. destruct xs as [|x rest]; [contradiction|].
  cbn [builtin_min builtin_max]. eexists. eexists.
  unfold snr_line. cbn [builtin_min builtin_max bind].
  destruct (1 <? Z.of_nat (List.length (x :: rest))) eqn:E.
  - apply Z.ltb_lt in E.
    destruct (stdev_defined (x :: rest)) as [sd Hsd]; [lia|].
    rewrite Hsd. cbn [fmean bind].
    eexists. split; [reflexivity|]. split; [reflexivity|].
    rewrite !app_assoc_s. split; [|reflexivity].
    rewrite !occurs_app, !occurs_C_fixed. reflexivity.
  - cbn [bind]. exists "</span>". repeat split; reflexivity.
Qed.

Lemma append_snr_line (label : string) (d : dict Q) :
  exists line,
    (forall fixtext, append_snr label d fixtext = Ok (fixtext ++ line)) /\
    (occurs letter_C label = false -> occurs letter_C line = false) /\
    (d = [] -> line = EmptyString) /\
    (d <> [] ->
     exists lo hi rest,
       builtin_min (dict_values d) = Ok lo /\
       builtin_max (dict_values d) = Ok hi /\
       line = (span "10" ++ label ++ ": " ++
               format_fixed 0 lo ++ en_dash ++ format_fixed 0 hi) ++ rest).
Proof.
  destruct d as [|kv d].
  - exists EmptyString. repeat split; try congruence.
    intros ft. simpl. now rewrite app_empty_r.
  - destruct (snr_line_shape label (dict_values (kv :: d)))
      as [lo [hi [rest [Hlo [Hhi [Hc Hl]]]]]]; [discriminate|].
    eexists. split; [|split; [|split]].
    + intros ft. unfold append_snr. rewrite Hl. reflexivity.
    + intros Hlab. rewrite !occurs_app, Hlab, !occurs_C_fixed, Hc. reflexivity.
    + discriminate.
    + intros _. exists lo, hi, rest. auto.
Qed.

Lemma GNSS_FLAG_known (g : Z) :
  0 <= g <= 6 -> exists flag, dict_getitem GNSS_FLAG g = Ok flag.
Proof.
  intros H.
  assert (E : g = 0 \/ g = 1 \/ g = 2 \/ g = 3 \/ g = 4 \/ g = 5 \/ g = 6) by lia.
  repeat (destruct E as [E | E]; [subst g; eexists; reflexivity|]).
  subst g; eexists; reflexivity.
Qed.

Lemma GNSS_FLAG_no_C (g : Z) (flag : string) :
  dict_getitem GNSS_FLAG g = Ok flag -> occurs letter_C flag = false.
Proof.
  unfold dict_getitem. destruct (dict_get GNSS_FLAG g) as [f|] eqn:E; [|discriminate].
  intros H. injection H as ->. revert E.
  let flags := eval vm_compute in GNSS_FLAG in change GNSS_FLAG with flags.
  cbn [dict_get].
  repeat (match goal with
          | |- context [?a =? g] => destruct (a =? g)
          end; [intros H; injection H as <-; reflexivity|]).
  discriminate.
Qed.

Lemma ucount_keys (sats : list Satellite) (g : Z) :
  In g (dict_keys (ucount (count_satellites sats))) ->
  exists sat, In sat sats /\ gnssid sat = Some g.
Proof.
  induction sats as [|sat sats IH] using rev_ind; [contradiction|].
  rewrite count_satellites_snoc. unfold count_satellite.
  destruct (gnssid sat) as [g'|] eqn:Eg; cbn [ucount].
  - rewrite dict_keys_set. intros [-> | H].
    + exists sat. split; [apply in_or_app; right; now left | exact Eg].
    + destruct (IH H) as [s [Hs Hg]]. exists s.
      split; [apply in_or_app; now left | exact Hg].
  - intros H. destruct (IH H) as [s [Hs Hg]]. exists s.
    split; [apply in_or_app; now left | exact Hg].
Qed.

Lemma defaultdict_get_set (d : dict Z) (k p v : Z) :
  defaultdict_get 0 (dict_set d k v) p =
  if k =? p then v else defaultdict_get 0 d p.
Proof.
  unfold defaultdict_get. rewrite dict_get_set. now destruct (k =? p).
Qed.

Lemma ucount_counts (sats : list Satellite) (g : Z) :
  defaultdict_get 0 (ucount (count_satellites sats)) g =
  Z.of_nat (List.length (filter (used_in g) sats)).
Proof.
  induction sats as [|sat sats IH] using rev_ind; [reflexivity|].
  rewrite count_satellites_snoc, filter_app, length_app.
  unfold count_satellite, used_in at 2. cbn [filter].
  destruct (gnssid sat) as [g'|]; cbn [ucount].
  - rewrite defaultdict_get_set. destruct (g' =? g) eqn:E.
    + apply Z.eqb_eq in E; subst g'. rewrite IH.
      destruct (used sat); simpl; lia.
    + simpl. lia.
  - simpl. lia.
Qed.

Lemma ncount_counts (sats : list Satellite) (g : Z) :
  defaultdict_get 0 (ncount (count_satellites sats)) g =
  Z.of_nat (List.length (filter (seen_in g) sats)).
Proof.
  induction sats as [|sat sats IH] using rev_ind; [reflexivity|].
  rewrite count_satellites_snoc, filter_app, length_app.
  unfold count_satellite, seen_in at 2. cbn [filter].
  destruct (gnssid sat) as [g'|]; cbn [ncount].
  - rewrite defaultdict_get_set. destruct (g' =? g) eqn:E.
    + apply Z.eqb_eq in E; subst g'. rewrite IH. simpl. lia.
    + simpl. lia.
  - simpl. lia.
Qed.

(** Per constellation, the used count is at most the total count. *)
Lemma used_count_le_total (sats : list Satellite) (g : Z) :
  0 <= defaultdict_get 0 (ucount (count_satellites sats)) g <=
  defaultdict_get 0 (ncount (count_satellites sats)) g.
Proof.
  rewrite ucount_counts, ncount_counts. split; [lia|].
  apply Nat2Z.inj_le.
  induction sats as [|sat sats IH]; [apply le_n|].
  cbn [filter]. unfold used_in at 1, seen_in at 1.
  destruct (gnssid sat) as [g'|]; [|exact IH].
  destruct (g' =? g); cbn [andb]; [|exact IH].
  destruct (used sat); simpl; lia.
Qed.

Lemma svlist_items_defined (uc : dict Z) (keys : list Z) :
  (forall g, In g keys -> 0 <= g <= 6) ->
  exists items, svlist_items uc keys = Ok items.
Proof.
  induction keys as [|g rest IH]; intros H; simpl; [eauto|].
  destruct IH as [items Hi]; [intros; apply H; now right|].
  destruct (0 <? defaultdict_get 0 uc g); [|eauto].
  destruct (GNSS_FLAG_known g) as [flag Hf]; [apply H; now left|].
  rewrite Hf, Hi. cbn [bind]. eauto.
Qed.

Lemma svlist_items_no_C (uc : dict Z) (keys : list Z) (items : list string) :
  svlist_items uc keys = Ok items ->
  Forall (fun s => occurs letter_C s = false) items.
Proof.
  revert items. induction keys as [|g rest IH]; intros items; simpl.
  - intros H. injection H as <-. constructor.
  - destruct (0 <? defaultdict_get 0 uc g); [|apply IH].
    destruct (dict_getitem GNSS_FLAG g) as [flag|] eqn:Ef; [|discriminate].
    cbn [bind]. destruct (svlist_items uc rest) as [its|]; [|discriminate].
    cbn [bind]. intros H. injection H as <-. constructor; [|now apply IH].
    rewrite occurs_app, occurs_C_int.
    change (occurs letter_C flag = false). exact (GNSS_FLAG_no_C _ _ Ef).
Qed.

Lemma svlist_items_some (uc : dict Z) (keys : list Z) (items : list string) (g : Z) :
  svlist_items uc keys = Ok items ->
  In g keys -> 0 < defaultdict_get 0 uc g -> items <> [].
Proof.
  revert items. induction keys as [|k rest IH]; intros items; simpl;
    [contradiction|].
  intros H [-> | Hin] Hpos.
  - apply Z.ltb_lt in Hpos. rewrite Hpos in H.
    destruct (dict_getitem GNSS_FLAG g); [|discriminate].
    cbn [bind] in H. destruct (svlist_items uc rest); [|discriminate].
    cbn [bind] in H. injection H as <-. discriminate.
  - destruct (0 <? defaultdict_get 0 uc k); [|now apply IH].
    destruct (dict_getitem GNSS_FLAG k); [|discriminate].
    cbn [bind] in H. destruct (svlist_items uc rest); [|discriminate].
    cbn [bind] in H. injection H as <-. discriminate.
Qed.

(** ** The fix text as a whole *)

Lemma tuple_getitem_in {A : Type} (t : list A) (i : Z) (a : A) :
  tuple_getitem t i = Ok a -> In a t.
Proof.
  unfold tuple_getitem. destruct (_ || _); [discriminate|].
  destruct (nth_error _ _) eqn:E; [|discriminate].
  intros H. injection H as <-. eapply nth_error_In; eassumption.
Qed.

Lemma fix_status_text_no_C (status : Z) (label : string) :
  fix_status_text status = Ok label -> occurs letter_C label = false.
Proof.
  unfold fix_status_text. destruct (status =? 0).
  - intros H. injection H as <-. reflexivity.
  - intros H. apply tuple_getitem_in in H.
    assert (F : Forall (fun s => occurs letter_C s = false) STATUS_TEXT)
      by (repeat constructor).
    rewrite Forall_forall in F. now apply F.
Qed.

Lemma fix_status_text_defined (status : Z) :
  0 <= status <= 9 -> exists label, fix_status_text status = Ok label.
Proof.
  intros H.
  assert (E : status = 0 \/ status = 1 \/ status = 2 \/ status = 3 \/
              status = 4 \/ status = 5 \/ status = 6 \/ status = 7 \/
              status = 8 \/ status = 9) by lia.
  repeat (destruct E as [E | E]; [subst status; eexists; reflexivity|]).
  subst status; eexists; reflexivity.
Qed.

Lemma fix_mode_text_no_C (mode : Z) (fixtext : string) :
  occurs letter_C fixtext = false ->
  occurs letter_C (fix_mode_text mode fixtext) = false.
Proof.
  intros H. unfold fix_mode_text.
  destruct ((mode =? 2) || (mode =? 3)).
  - rewrite !occurs_app, H, occurs_C_int. reflexivity.
  - destruct (mode =? 1); reflexivity.
Qed.

Lemma fix_cep_text_app (w : HeadUpDisplay) (fixtext : string) :
  fix_cep_text w fixtext = fixtext ++ fix_cep_text w EmptyString.
Proof.
  unfold fix_cep_text.
  destruct (latitude w), (longitude w), (last_tpv w) as [tpv|];
    try destruct (tpv_eph tpv); simpl; now rewrite ?app_empty_r.
Qed.

Lemma fix_cep_text_without_position (w : HeadUpDisplay) (fixtext : string) :
  latitude w = None \/ longitude w = None ->
  fix_cep_text w fixtext = fixtext.
Proof.
  unfold fix_cep_text. intros [-> | ->]; [reflexivity|].
  now destruct (latitude w).
Qed.

Lemma fix_sky_text_no_C (sky : option SKY) (fixtext t : string) :
  occurs letter_C fixtext = false ->
  fix_sky_text sky fixtext = Ok t ->
  occurs letter_C t = false.
Proof.
  intros Hc. unfold fix_sky_text.
  destruct sky as [sv|]; [|congruence].
  destruct (uSat sv) as [u|]; [|congruence].
  destruct (nSat sv) as [n|]; [|congruence].
  destruct (satellites sv) as [sats|]; [|discriminate].
  cbn [bind].
  destruct (svlist_items _ _) as [items|] eqn:Ei; [|discriminate].
  cbn [bind].
  destruct (append_snr_line "All SNR" (sigstrength (count_satellites sats)))
    as [l1 [H1 [C1 _]]].
  destruct (append_snr_line "Used SNR" (usedsigstrength (count_satellites sats)))
    as [l2 [H2 [C2 _]]].
  rewrite H1. cbn [bind]. rewrite H2. intros E. injection E as <-.
  rewrite !occurs_app, C1, C2 by reflexivity. rewrite !orb_false_r.
  apply svlist_items_no_C in Ei.
  destruct items as [|i its].
  - split_occurs. rewrite Hc, !occurs_C_int. reflexivity.
  - split_occurs. rewrite Hc, !occurs_C_int.
    rewrite (occurs_join letter_C " " (i :: its)) by (auto; reflexivity).
    reflexivity.
Qed.

Lemma svlist_of_known (sats : list Satellite) :
  Forall known_constellation sats ->
  exists items,
    svlist_items (ucount (count_satellites sats))
                 (dict_keys (ucount (count_satellites sats))) = Ok items.
Proof.
  intros H. apply svlist_items_defined. intros g Hg.
  apply ucount_keys in Hg as [sat [Hin Hs]].
  rewrite Forall_forall in H. specialize (H sat Hin).
  unfold known_constellation in H. now rewrite Hs in H.
Qed.

Lemma fix_sky_text_defined (sky : option SKY) (fixtext : string) :
  sky_well_formed sky -> exists t, fix_sky_text sky fixtext = Ok t.
Proof.
  unfold sky_well_formed, fix_sky_text.
  destruct sky as [sv|]; [|eauto].
  destruct (uSat sv) as [u|]; [|eauto].
  destruct (nSat sv) as [n|]; [|eauto].
  intros [sats [-> Hk]]. cbn [bind].
  destruct (svlist_of_known sats Hk) as [items ->]. cbn [bind].
  destruct (append_snr_line "All SNR" (sigstrength (count_satellites sats)))
    as [l1 [H1 _]].
  destruct (append_snr_line "Used SNR" (usedsigstrength (count_satellites sats)))
    as [l2 [H2 _]].
  rewrite H1. cbn [bind]. rewrite H2. eauto.
Qed.

Lemma fix_text_defined (w : HeadUpDisplay) :
  0 <= last_status w <= 9 -> sky_well_formed (skyview w) ->
  exists t, fix_text w = Ok t.
Proof.
  intros Hs Hsky. unfold fix_text.
  destruct (fix_status_text_defined _ Hs) as [label ->]. cbn [bind].
  destruct (fix_sky_text_defined (skyview w)
              (fix_mode_text (last_mode w) label) Hsky) as [t ->].
  cbn [bind]. eauto.
Qed.

Lemma fix_sky_text_prefix (sky : option SKY) (fixtext t : string) :
  fix_sky_text sky fixtext = Ok t -> exists rest, t = fixtext ++ rest.
Proof.
  unfold fix_sky_text.
  destruct sky as [sv|];
    [|intros H; injection H as <-; exists EmptyString; now rewrite app_empty_r].
  destruct (uSat sv) as [u|];
    [|intros H; injection H as <-; exists EmptyString; now rewrite app_empty_r].
  destruct (nSat sv) as [n|];
    [|intros H; injection H as <-; exists EmptyString; now rewrite app_empty_r].
  destruct (satellites sv) as [sats|]; [|discriminate].
  cbn [bind].
  destruct (svlist_items _ _) as [items|] eqn:Ei; [|discriminate].
  cbn [bind].
  destruct (append_snr_line "All SNR" (sigstrength (count_satellites sats)))
    as [l1 [H1 _]].
  destruct (append_snr_line "Used SNR" (usedsigstrength (count_satellites sats)))
    as [l2 [H2 _]].
  rewrite H1. cbn [bind]. rewrite H2. intros E. injection E as <-.
  destruct items; rewrite !app_assoc_s; eauto.
Qed.

(** C2, as the code has it: the satellite lines of the fix text all sit
    under one test, that the stored SKY report carries both uSat and nSat.
    With both counts (and status and constellations of the data model) the
    fix text is produced and holds the counts, an All SNR line with minimum
    and maximum when all_snr is non-empty, a Used SNR line when used_snr is
    non-empty, and the constellation line when some constellation has a used
    satellite.  Without uSat or without nSat none of these is written: the
    fix text is the status and mode narrative, followed by the CEP line if
    there is one. *)
Theorem fix_text_sky_lines (w : HeadUpDisplay) (sv : SKY) (sats : list Satellite) :
  0 <= last_status w <= 9 ->
  skyview w = Some sv -> satellites sv = Some sats ->
  Forall known_constellation sats ->
  let st := count_satellites sats in
  (forall u n, uSat sv = Some u -> nSat sv = Some n ->
     exists t, fix_text w = Ok t /\
       contains (", " ++ format_int u ++ "/" ++ format_int n ++ " SVs") t /\
       (sigstrength st <> [] ->
        exists lo hi,
          builtin_min (dict_values (sigstrength st)) = Ok lo /\
          builtin_max (dict_values (sigstrength st)) = Ok hi /\
          contains (span "10" ++ "All SNR: " ++
                    format_fixed 0 lo ++ en_dash ++ format_fixed 0 hi) t) /\
       (usedsigstrength st <> [] ->
        exists lo hi,
          builtin_min (dict_values (usedsigstrength st)) = Ok lo /\
          builtin_max (dict_values (usedsigstrength st)) = Ok hi /\
          contains (span "10" ++ "Used SNR: " ++
                    format_fixed 0 lo ++ en_dash ++ format_fixed 0 hi) t) /\
       ((exists sat g, In sat sats /\ gnssid sat = Some g /\ used sat = true) ->
        exists items,
          svlist_items (ucount st) (dict_keys (ucount st)) = Ok items /\
          items <> [] /\
          contains (span "12" ++ join " " items ++ "</span>") t)) /\
  (uSat sv = None \/ nSat sv = None ->
     exists narrative,
       fix_narrative (last_status w) (last_mode w) = Ok narrative /\
       fix_text w = Ok (fix_cep_text w narrative)).
Proof.
  intros Hstatus Hsky Hsats Hknown. cbv zeta.
  destruct (fix_status_text_defined _ Hstatus) as [label Hlabel].
  split.
  - intros u n Hu Hn.
    destruct (svlist_of_known sats Hknown) as [items Hitems].
    destruct (append_snr_line "All SNR" (sigstrength (count_satellites sats)))
      as [l1 [H1 [_ [_ S1]]]].
    destruct (append_snr_line "Used SNR" (usedsigstrength (count_satellites sats)))
      as [l2 [H2 [_ [_ S2]]]].
    unfold fix_text, fix_sky_text.
    rewrite Hlabel, Hsky, Hu, Hn, Hsats. cbn [bind].
    rewrite Hitems. cbn [bind]. rewrite H1. cbn [bind]. rewrite H2. cbn [bind].
    eexists. split; [reflexivity|].
    rewrite fix_cep_text_app.
    split; [|split; [|split]].
    + do 3 apply contains_app_l.
      assert (C : contains (", " ++ format_int u ++ "/" ++ format_int n ++ " SVs")
                    (fix_mode_text (last_mode w) label ++
                     ", " ++ format_int u ++ "/" ++ format_int n ++ " SVs")).
      { exists (fix_mode_text (last_mode w) label), EmptyString.
        now rewrite app_empty_r. }
      destruct items; [exact C | now apply contains_app_l].
    + intros Hne. destruct (S1 Hne) as [lo [hi [rest [Hlo [Hhi ->]]]]].
      exists lo, hi. split; [exact Hlo|]. split; [exact Hhi|].
      do 2 apply contains_app_l. apply contains_app_r.
      eexists EmptyString, rest. reflexivity.
    + intros Hne. destruct (S2 Hne) as [lo [hi [rest [Hlo [Hhi ->]]]]].
      exists lo, hi. split; [exact Hlo|]. split; [exact Hhi|].
      apply contains_app_l. apply contains_app_r.
      eexists EmptyString, rest. reflexivity.
    + intros [sat [g [Hin [Hg Hused]]]].
      exists items. split; [reflexivity|].
      assert (Hpos : 0 < defaultdict_get 0 (ucount (count_satellites sats)) g).
      { rewrite ucount_counts.
        assert (Hf : In sat (filter (used_in g) sats)).
        { apply filter_In. split; [exact Hin|].
          unfold used_in. now rewrite Hg, Hused, Z.eqb_refl. }
        destruct (filter (used_in g) sats); [contradiction | simpl; lia]. }
      assert (Hkey : In g (dict_keys (ucount (count_satellites sats)))).
      { apply dict_get_keys. intros Hnone. unfold defaultdict_get in Hpos.
        rewrite Hnone in Hpos. lia. }
      assert (Hitems' : items <> []) by
        (eapply svlist_items_some; eassumption).
      split; [exact Hitems'|].
      do 3 apply contains_app_l.
      destruct items as [|i its]; [contradiction|].
      apply contains_app_r.
      eexists EmptyString, EmptyString. now rewrite app_empty_r.
  - intros Hnone. exists (fix_mode_text (last_mode w) label).
    unfold fix_narrative, fix_text, fix_sky_text.
    rewrite Hlabel, Hsky. cbn [bind]. split; [reflexivity|].
    destruct Hnone as [-> | ->]; [reflexivity|].
    now destruct (uSat sv).
Qed.

Lemma fix_text_sky_lines_witness :
  let w := set_skyview initial_widget (Some sky_with_counts) in
  exists t, fix_text w = Ok t /\
    contains ", 2/3 SVs" t /\
    (exists lo hi, contains (span "10" ++ "All SNR: " ++
                             format_fixed 0 lo ++ en_dash ++ format_fixed 0 hi) t).
Proof.
  cbv zeta.
  assert (Hk : Forall known_constellation sample_satellites).
  { repeat constructor; unfold known_constellation; simpl; lia. }
  destruct (fix_text_sky_lines
              (set_skyview initial_widget (Some sky_with_counts))
              sky_with_counts sample_satellites) as [H _];
    [simpl; lia | reflexivity | reflexivity | exact Hk |].
  destruct (H 2 3 eq_refl eq_refl) as [t [Ht [Hc [Hall _]]]].
  exists t. split; [exact Ht|]. split; [exact Hc|].
  destruct Hall as [lo [hi [_ [_ Hl]]]]; [discriminate|].
  exists lo, hi. exact Hl.
Defined.

(** C2 as stated fails: a SKY report with satellites and signal strengths
    but without uSat and nSat gives non-empty all_snr and used_snr and a
    used GPS satellite, and a fix text with none of the three lines. *)
Lemma fix_text_no_lines_without_counts :
  let w := set_skyview initial_widget (Some sky_without_counts) in
  sigstrength (sat_stats w) <> [] /\
  usedsigstrength (sat_stats w) <> [] /\
  defaultdict_get 0 (ucount (sat_stats w)) 0 = 1 /\
  fix_text w = Ok "Unknown fix" /\
  ~ contains "All SNR" "Unknown fix" /\
  ~ contains "Used SNR" "Unknown fix" /\
  ~ contains "<span" "Unknown fix".
Proof.
  cbv zeta. split; [discriminate|]. split; [discriminate|].
  split; [reflexivity|]. split; [reflexivity|].
  split; [|split]; apply not_contains; reflexivity.
Qed.

Example fix_text_with_counts :
  fix_text (set_skyview initial_widget (Some sky_with_counts)) =
  Ok ("Unknown fix, 2/3 SVs" ++
      span "12" ++ "1 " ++ flag_of_iso "US" ++ " 1 " ++ flag_of_iso "EU" ++
      "</span>" ++
      span "10" ++ "All SNR: 20" ++ en_dash ++ "40, " ++ x_bar ++ "=30.0, " ++
      italic_s ++ "=10.0</span>" ++
      span "10" ++ "Used SNR: 30" ++ en_dash ++ "40, " ++ x_bar ++ "=35.0, " ++
      italic_s ++ "=7.1</span>").
Proof. vm_compute. reflexivity. Qed.

(** ** The CEP line *)

Lemma fix_text_no_C (w : HeadUpDisplay) (t : string) :
  latitude w = None \/ longitude w = None ->
  fix_text w = Ok t -> occurs letter_C t = false.
Proof.
  intros Hpos. unfold fix_text.
  destruct (fix_status_text (last_status w)) as [label|] eqn:El; [|discriminate].
  cbn [bind].
  destruct (fix_sky_text (skyview w) (fix_mode_text (last_mode w) label))
    as [ft|] eqn:Es; [|discriminate].
  cbn [bind]. rewrite (fix_cep_text_without_position w ft Hpos).
  intros E. injection E as <-.
  eapply fix_sky_text_no_C; [|exact Es].
  apply fix_mode_text_no_C. eapply fix_status_text_no_C. exact El.
Qed.

(** With latitude and longitude known, the eph of the stored report is
    written as the last line of the fix text. *)
Lemma fix_text_cep_with_position (w : HeadUpDisplay) (lat lon e : Q) (t : string) :
  latitude w = Some lat -> longitude w = Some lon -> known_eph w = Some e ->
  fix_text w = Ok t ->
  exists before,
    t = before ++ cep_line (fmul e (altfactor w)) (altitude_unit w).
Proof.
  intros Hlat Hlon He. unfold fix_text.
  destruct (fix_status_text (last_status w)) as [label|]; [|discriminate].
  cbn [bind].
  destruct (fix_sky_text _ _) as [ft|]; [|discriminate].
  cbn [bind]. intros E. injection E as <-.
  unfold fix_cep_text, known_eph in *. rewrite Hlat, Hlon.
  destruct (last_tpv w) as [tpv|]; [|discriminate].
  rewrite He. now exists ft.
Qed.

(** C10: while latitude or longitude is unknown, the eph branch is not
    reached: the fix text is what the status, mode and satellite stages
    wrote, and the text CEP does not occur in it, whether or not the stored
    report carries eph. *)
Theorem fix_text_cep_needs_position (w : HeadUpDisplay) :
  latitude w = None \/ longitude w = None ->
  (forall fixtext, fix_cep_text w fixtext = fixtext) /\
  fix_text w =
    (fixtext <- fix_narrative (last_status w) (last_mode w) ;;
     fix_sky_text (skyview w) fixtext) /\
  (forall t, fix_text w = Ok t -> ~ contains "CEP" t) /\
  (0 <= last_status w <= 9 -> sky_well_formed (skyview w) ->
   exists t, fix_text w = Ok t /\ ~ contains "CEP" t).
Proof.
  intros Hpos.
  assert (Hnot : forall t, fix_text w = Ok t -> ~ contains "CEP" t).
  { intros t Ht Hc. apply (contains_occurs letter_C) in Hc; [|reflexivity].
    rewrite (fix_text_no_C w t Hpos Ht) in Hc. discriminate. }
  split; [|split; [|split]].
  - intros fixtext. now apply fix_cep_text_without_position.
  - unfold fix_text, fix_narrative.
    destruct (fix_status_text (last_status w)) as [label|]; [|reflexivity].
    cbn [bind].
    destruct (fix_sky_text _ _) as [ft|]; [|reflexivity].
    cbn [bind]. now rewrite fix_cep_text_without_position.
  - exact Hnot.
  - intros Hs Hsky. destruct (fix_text_defined w Hs Hsky) as [t Ht].
    exists t. split; [exact Ht | now apply Hnot].
Qed.

Lemma fix_text_cep_needs_position_witness :
  let w := update_speed initial_widget report_eph_no_position in
  known_eph w = Some 4%Q /\ latitude w = None /\
  fix_text w = Ok "No fix" /\
  (exists t, fix_text w = Ok t /\ ~ contains "CEP" t).
Proof.
  cbv zeta. split; [reflexivity|]. split; [reflexivity|].
  split; [reflexivity|].
  destruct (fix_text_cep_needs_position
              (update_speed initial_widget report_eph_no_position))
    as [_ [_ [_ H]]]; [left; reflexivity|].
  apply H; [simpl; lia | exact I].
Defined.

(** ** The status and mode narrative *)

Lemma fix_text_starts_with_narrative (w : HeadUpDisplay) (t : string) :
  fix_text w = Ok t ->
  exists narrative rest,
    fix_narrative (last_status w) (last_mode w) = Ok narrative /\
    t = narrative ++ rest.
Proof.
  unfold fix_text, fix_narrative.
  destruct (fix_status_text (last_status w)) as [label|]; [|discriminate].
  cbn [bind].
  destruct (fix_sky_text _ _) as [ft|] eqn:Es; [|discriminate].
  cbn [bind]. intros E. injection E as <-.
  apply fix_sky_text_prefix in Es as [rest ->].
  rewrite fix_cep_text_app, app_assoc_s. eauto.
Qed.

(** C5, as the code has it, for a status of the data model (0 to 9), the
    fix text being the text that the status and mode stages produce (the
    later stages append to it): status 2 with a 3D fix gives DGPS 3D fix;
    mode NoFix gives exactly No fix and mode Unknown exactly Unknown fix,
    whatever the status; a nonzero status with a 2D or 3D fix gives the
    label of the status from the table 1 Normal, 2 DGPS, 3 RTK Fixed,
    4 RTK Floating, 5 DR, 6 GNSS+DR, 7 Time (surveyed), 8 Simulated,
    9 P(Y), followed by a space, the digit of the mode and D fix.  Every fix
    text starts with this narrative, and is this narrative when there is no
    sky view and no position. *)
Theorem fix_narrative_table (status : Z) :
  0 <= status <= 9 ->
  fix_narrative 2 Fix3D = Ok "DGPS 3D fix" /\
  fix_narrative status NoFix = Ok "No fix" /\
  fix_narrative status Unknown = Ok "Unknown fix" /\
  (status <> 0 ->
   exists label,
     In (status, label) STATUS_LABELS /\
     fix_narrative status Fix2D = Ok (label ++ " 2D fix") /\
     fix_narrative status Fix3D = Ok (label ++ " 3D fix")) /\
  (forall w t,
     last_status w = status -> fix_text w = Ok t ->
     exists narrative rest,
       fix_narrative status (last_mode w) = Ok narrative /\
       t = narrative ++ rest) /\
  (forall w,
     last_status w = status -> skyview w = None ->
     latitude w = None \/ longitude w = None ->
     fix_text w = fix_narrative status (last_mode w)).
Proof.
  intros H.
  assert (E : status = 0 \/ status = 1 \/ status = 2 \/ status = 3 \/
              status = 4 \/ status = 5 \/ status = 6 \/ status = 7 \/
              status = 8 \/ status = 9) by lia.
  split; [reflexivity|].
  split; [repeat (destruct E as [E | E]; [subst status; reflexivity|]);
          subst status; reflexivity|].
  split; [repeat (destruct E as [E | E]; [subst status; reflexivity|]);
          subst status; reflexivity|].
  split; [|split].
  - intros Hnz. destruct E as [E | E]; [contradiction|].
    repeat (destruct E as [E | E];
            [subst status; eexists; split;
             [simpl; repeat (try (left; reflexivity); right)
             |split; reflexivity]|]).
    subst status; eexists; split;
      [simpl; repeat (try (left; reflexivity); right)|split; reflexivity].
  - intros w t <- Ht. now apply fix_text_starts_with_narrative.
  - intros w <- Hsky Hpos. unfold fix_text, fix_narrative.
    destruct (fix_status_text (last_status w)) as [label|]; [|reflexivity].
    cbn [bind]. rewrite Hsky. cbn [fix_sky_text bind].
    now rewrite fix_cep_text_without_position.
Qed.

Lemma fix_narrative_table_witness :
  fix_narrative 4 NoFix = Ok "No fix" /\
  fix_narrative 4 Unknown = Ok "Unknown fix" /\
  (exists label, In (4, label) STATUS_LABELS /\
                 fix_narrative 4 Fix2D = Ok (label ++ " 2D fix")).
Proof.
  destruct (fix_narrative_table 4) as [_ [H1 [H2 [H3 _]]]]; [lia|].
  split; [exact H1|]. split; [exact H2|].
  destruct H3 as [label [Hin [Hl _]]]; [discriminate|].
  exists label. split; [exact Hin | exact Hl].
Defined.

(** C5 as stated fails at status 7: the code spells the label with a space,
    Time (surveyed), so the text with a 3D fix does not begin with
    Time(surveyed) followed by 3D fix. *)
Lemma fix_narrative_time_surveyed :
  fix_narrative 7 Fix3D = Ok "Time (surveyed) 3D fix" /\
  fix_narrative 7 Fix3D <> Ok ("Time(surveyed)" ++ " 3D fix") /\
  starts_with ("Time(surveyed)" ++ " 3D fix") "Time (surveyed) 3D fix" = false /\
  fix_text (set_last_status (set_last_mode initial_widget Fix3D) 7) =
    Ok "Time (surveyed) 3D fix".
Proof.
  split; [reflexivity|]. split; [discriminate|].
  split; reflexivity.
Qed.

(** ** The position text *)

Lemma format_latitude_one_line (lat : Q) :
  occurs newline_char (format_latitude lat) = false.
Proof.
  unfold format_latitude. rewrite !occurs_app.
  rewrite (numeric_occurs newline_char _ (numeric_format_fixed 5 (Qabs lat)))
    by reflexivity.
  now destruct (Qle_bool 0 lat).
Qed.

Lemma format_longitude_one_line (lon : Q) :
  occurs newline_char (format_longitude lon) = false.
Proof.
  unfold format_longitude. rewrite !occurs_app.
  rewrite (numeric_occurs newline_char _ (numeric_format_fixed 5 (Qabs lon)))
    by reflexivity.
  now destruct (Qle_bool 0 lon).
Qed.

(** C9: with latitude and longitude known, an altitude equal to zero is
    treated like an unknown one: the position text is the latitude line and
    the longitude line and nothing else.  The altitude line is written only
    for a known, nonzero altitude. *)
Theorem position_text_zero_altitude (format_n5 : Q -> string)
        (w : HeadUpDisplay) (lat lon : Q) :
  latitude w = Some lat -> longitude w = Some lon ->
  let coords := format_latitude lat ++ newline ++ format_longitude lon in
  occurs newline_char (format_latitude lat) = false /\
  occurs newline_char (format_longitude lon) = false /\
  (forall a, altitude w = Some a -> (a == 0)%Q ->
     position_text format_n5 w = coords) /\
  (altitude w = None -> position_text format_n5 w = coords) /\
  (forall a, altitude w = Some a -> ~ (a == 0)%Q ->
     position_text format_n5 w =
     coords ++ newline ++ format_n5 (fmul a (altfactor w)) ++ altitude_suffix w).
Proof.
  intros Hlat Hlon. cbv zeta.
  split; [apply format_latitude_one_line|].
  split; [apply format_longitude_one_line|].
  unfold position_text, altitude_suffix. rewrite Hlat, Hlon.
  split; [|split].
  - intros a -> Ha. apply Qeq_bool_iff in Ha. now rewrite Ha.
  - intros ->. reflexivity.
  - intros a -> Ha.
    destruct (Qeq_bool a 0) eqn:E; [apply Qeq_bool_iff in E; contradiction|].
    destruct (known_epv w); now rewrite !app_assoc_s.
Qed.

Lemma position_text_zero_altitude_witness :
  let w := update_speed initial_widget report_at_sea_level in
  altitude w = Some 0%Q /\
  forall format_n5,
    position_text format_n5 w =
    format_latitude (5225 # 100) ++ newline ++ format_longitude (-45 # 10).
Proof.
  cbv zeta. split; [reflexivity|]. intros format_n5.
  destruct (position_text_zero_altitude format_n5
              (update_speed initial_widget report_at_sea_level)
              (5225 # 100) (-45 # 10) eq_refl eq_refl) as [_ [_ [H _]]].
  apply (H 0%Q); reflexivity.
Defined.

Example position_text_sea_level :
  position_text (format_fixed 1)
                (update_speed initial_widget report_at_sea_level) =
  "52.25000" ++ degree_sign ++ hair_space ++ "N" ++ newline ++
  "4.50000" ++ degree_sign ++ hair_space ++ "W".
Proof. vm_compute. reflexivity. Qed.

(** ** Day and night *)

Lemma solar_timezone_defined (lon : Q) :
  (-180 <= lon)%Q -> (lon <= 180)%Q ->
  solar_timezone lon = Ok (Qfloor (fadd lon 7.5 / 15)%Q) /\
  -12 <= Qfloor (fadd lon 7.5 / 15)%Q <= 12.
Proof.
  intros Hlo Hhi.
  destruct (fadd_between lon 7.5 (-172.5) 187.5) as [Flo Fhi];
    [float53_const (-345) (-1) | float53_const 375 (-1) | lra | lra |].
  set (x := (fadd lon 7.5 / 15)%Q).
  assert (R : -12 <= Qfloor x <= 12).
  { split.
    - apply Qfloor_ge_iff. unfold x. apply Qle_shift_div_l; [reflexivity|].
      change (inject_Z (-12)) with (-12)%Q. lra.
    - assert (H : Qfloor x < 13); [|lia].
      apply Qfloor_lt_iff. unfold x. apply Qlt_shift_div_r; [reflexivity|].
      change (inject_Z 13) with 13%Q. lra. }
  split; [|exact R].
  unfold solar_timezone. fold x.
  assert (E : (-24 <? Qfloor x) && (Qfloor x <? 24) = true).
  { apply andb_true_iff. split; apply Z.ltb_lt; lia. }
  now rewrite E.
Qed.

(** The offset of the exact sum, for a longitude of the data model. *)
Lemma solar_offset_exact_range (lon : Q) :
  (-180 <= lon)%Q -> (lon <= 180)%Q ->
  -12 <= Qfloor ((lon + 7.5) / 15)%Q <= 12.
Proof.
  intros Hlo Hhi. split.
  - apply Qfloor_ge_iff. apply Qle_shift_div_l; [reflexivity|].
    change (inject_Z (-12)) with (-12)%Q. lra.
  - assert (H : Qfloor ((lon + 7.5) / 15)%Q < 13); [|lia].
    apply Qfloor_lt_iff. apply Qlt_shift_div_r; [reflexivity|].
    change (inject_Z 13) with 13%Q. lra.
Qed.

Section DayNight.

Variable daylight : Observer -> Z -> Z -> result (Z * Z).
Variable noon : Observer -> Z -> Z.
Variable zenith : Observer -> Z -> Q.

Lemma is_day_without_position (w : HeadUpDisplay) (now : Z) :
  latitude w = None \/ longitude w = None ->
  is_day daylight noon zenith w now = Ok true.
Proof.
  unfold is_day. intros [H | H]; rewrite H; [|reflexivity].
  now destruct (longitude w).
Qed.

Lemma is_day_unfold (w : HeadUpDisplay) (now : Z) (lat lon : Q) :
  latitude w = Some lat -> longitude w = Some lon ->
  (-180 <= lon)%Q -> (lon <= 180)%Q ->
  let tz := Qfloor (fadd lon 7.5 / 15)%Q in
  let loc := {| obs_latitude := lat; obs_longitude := lon |} in
  let date := local_date tz now in
  is_day daylight noon zenith w now =
  match daylight loc date tz with
  | Ok (sunrise, sunset) => Ok ((sunrise <=? now) && (now <=? sunset))
  | Raise ValueError =>
      e <- elevation zenith (PyDatetime (noon loc date)) None now ;;
      if Qltb e 0 then Ok false else Ok true
  | Raise e => Raise e
  end.
Proof.
  intros Hlat Hlon Hlo Hhi. cbv zeta. unfold is_day.
  rewrite Hlat, Hlon.
  destruct (solar_timezone_defined lon Hlo Hhi) as [-> _].
  reflexivity.
Qed.

End DayNight.

(** C8, as the code has it: without a latitude or without a longitude the
    classifier answers Day.  With both, for a longitude between -180 and
    180 degrees, the solar time zone is the offset of
    floor((longitude (+) 7.5) / 15) hours, where (+) is the binary64 sum,
    between -12 and 12.  That is the offset floor((longitude + 7.5) / 15)
    of the exact sum, or one hour more; one hour more only when the sum
    rounds up to a multiple of 15, and never when the sum is exact.  When
    sunrise and sunset exist for the date of the current instant in that
    zone at that place, the answer is Day exactly when
    sunrise <= now <= sunset and Night otherwise. *)
Theorem is_day_sunrise_sunset_float
        (daylight : Observer -> Z -> Z -> result (Z * Z))
        (noon : Observer -> Z -> Z) (zenith : Observer -> Z -> Q)
        (w : HeadUpDisplay) (now : Z) :
  (latitude w = None \/ longitude w = None ->
   is_day daylight noon zenith w now = Ok true) /\
  (forall lat lon sunrise sunset,
     latitude w = Some lat -> longitude w = Some lon ->
     (-180 <= lon)%Q -> (lon <= 180)%Q ->
     let tz := Qfloor (fadd lon 7.5 / 15)%Q in
     let exact := Qfloor ((lon + 7.5) / 15)%Q in
     let loc := {| obs_latitude := lat; obs_longitude := lon |} in
     solar_timezone lon = Ok tz /\
     -12 <= tz <= 12 /\
     (tz = exact \/
      (fadd lon 7.5 == inject_Z (15 * (exact + 1)))%Q /\ tz = exact + 1) /\
     (binary64 (lon + 7.5) = true -> tz = exact) /\
     (daylight loc (local_date tz now) tz = Ok (sunrise, sunset) ->
      is_day daylight noon zenith w now =
        Ok ((sunrise <=? now) && (now <=? sunset)) /\
      (is_day daylight noon zenith w now = Ok true <->
       sunrise <= now <= sunset) /\
      (is_day daylight noon zenith w now = Ok false <->
       ~ sunrise <= now <= sunset))).
Proof.
  split; [apply is_day_without_position|].
  intros lat lon sunrise sunset Hlat Hlon Hlo Hhi. cbv zeta.
  destruct (solar_timezone_defined lon Hlo Hhi) as [Etz Rtz].
  split; [exact Etz|]. split; [exact Rtz|].
  split; [|split].
  - pose proof (solar_offset_exact_range lon Hlo Hhi) as Hb.
    pose proof (floor_round_step (lon + 7.5) 15 ltac:(lia)) as Hstep.
    change (inject_Z 15) with 15%Q in Hstep. cbv zeta in Hstep.
    assert (H53 : 2 ^ 53 = 9007199254740992) by reflexivity.
    unfold fadd.
    destruct Hstep as [E | [E1 E2]]; [lia | lia | left | right].
    + exact E.
    + split; assumption.
  - intros Hx. apply binary64_float53 in Hx. unfold fadd.
    now rewrite (round64_exact _ Hx).
  - intros Hd.
    rewrite (is_day_unfold daylight noon zenith w now lat lon Hlat Hlon Hlo Hhi).
    cbv zeta. rewrite Hd.
    split; [reflexivity|].
    destruct (sunrise <=? now) eqn:E1; destruct (now <=? sunset) eqn:E2;
      cbn [andb];
      try apply Z.leb_le in E1; try apply Z.leb_gt in E1;
      try apply Z.leb_le in E2; try apply Z.leb_gt in E2;
      (split; split; intros H; try discriminate; try reflexivity; try lia).
Qed.

Lemma is_day_sunrise_sunset_float_witness :
  is_day sample_daylight sample_noon sample_zenith initial_widget 0 = Ok true /\
  (is_day sample_daylight sample_noon sample_zenith
          (widget_at 50 8) (12 * 3600000000) = Ok true <->
   5 * 3600000000 <= 12 * 3600000000 <= 17 * 3600000000) /\
  (is_day sample_daylight sample_noon sample_zenith
          (widget_at 50 8) (20 * 3600000000) = Ok false <->
   ~ 5 * 3600000000 <= 20 * 3600000000 <= 17 * 3600000000).
Proof.
  split; [|split].
  - apply (is_day_sunrise_sunset_float sample_daylight sample_noon
             sample_zenith initial_widget 0). left; reflexivity.
  - destruct (is_day_sunrise_sunset_float sample_daylight sample_noon
                sample_zenith (widget_at 50 8) (12 * 3600000000)) as [_ H].
    destruct (H 50%Q 8%Q (5 * 3600000000) (17 * 3600000000)
                eq_refl eq_refl) as [_ [_ [_ [_ H']]]];
      [discriminate | discriminate |].
    destruct H' as [_ [Hday _]]; [vm_compute; reflexivity | exact Hday].
  - destruct (is_day_sunrise_sunset_float sample_daylight sample_noon
                sample_zenith (widget_at 50 8) (20 * 3600000000)) as [_ H].
    destruct (H 50%Q 8%Q (5 * 3600000000) (17 * 3600000000)
                eq_refl eq_refl) as [_ [_ [_ [_ H']]]];
      [discriminate | discriminate |].
    destruct H' as [_ [_ Hnight]]; [vm_compute; reflexivity | exact Hnight].
Defined.

(** C8, where the data model differs: for the binary64 longitude
    7.499999999999999 the exact sum with 7.5 is below 15, an offset of 0
    hours by the data model; the binary64 sum is 15, and the code forms
    the offset of 1 hour.  Half an hour before midnight UTC the current
    date in that zone is the next day. *)
Lemma solar_timezone_rounds_up :
  binary64 longitude_below_1h = true /\
  (-180 <= longitude_below_1h)%Q /\ (longitude_below_1h <= 180)%Q /\
  Qfloor ((longitude_below_1h + 7.5) / 15)%Q = 0 /\
  (fadd longitude_below_1h 7.5 == 15)%Q /\
  solar_timezone longitude_below_1h = Ok 1 /\
  local_date 0 (84600 * 1000000) = 0 /\
  local_date 1 (84600 * 1000000) = 1.
Proof.
  split; [vm_compute; reflexivity|].
  split; [discriminate|]. split; [discriminate|].
  split; [vm_compute; reflexivity|]. split; [vm_compute; reflexivity|].
  split; [vm_compute; reflexivity|]. split; reflexivity.
Qed.

Example is_day_at_noon :
  is_day sample_daylight sample_noon sample_zenith
         (widget_at 50 8) (12 * 3600000000) = Ok true.
Proof. vm_compute. reflexivity. Qed.

Example is_day_in_the_evening :
  is_day sample_daylight sample_noon sample_zenith
         (widget_at 50 8) (20 * 3600000000) = Ok false.
Proof. vm_compute. reflexivity. Qed.

(** C4 fails on the code: in the polar branch [is_day] calls
    [astral.sun.elevation(noon)], with the noon instant in the place of the
    observer and no observer at all, so the call raises AttributeError and
    [is_day] returns neither Day nor Night. *)
Theorem is_day_polar_raises
        (daylight : Observer -> Z -> Z -> result (Z * Z))
        (noon : Observer -> Z -> Z) (zenith : Observer -> Z -> Q)
        (w : HeadUpDisplay) (now : Z) (lat lon : Q) :
  latitude w = Some lat -> longitude w = Some lon ->
  (-180 <= lon)%Q -> (lon <= 180)%Q ->
  let tz := Qfloor (fadd lon 7.5 / 15)%Q in
  let loc := {| obs_latitude := lat; obs_longitude := lon |} in
  daylight loc (local_date tz now) tz = Raise ValueError ->
  is_day daylight noon zenith w now = Raise AttributeError.
Proof.
  intros Hlat Hlon Hlo Hhi. cbv zeta. intros Hd.
  rewrite (is_day_unfold daylight noon zenith w now lat lon Hlat Hlon Hlo Hhi).
  cbv zeta. rewrite Hd. reflexivity.
Qed.

Lemma is_day_polar_raises_witness :
  is_day sample_daylight sample_noon sample_zenith (widget_at 85 0) 0 =
  Raise AttributeError.
Proof.
  apply (is_day_polar_raises sample_daylight sample_noon sample_zenith
           (widget_at 85 0) 0 85%Q 0%Q eq_refl eq_refl);
    [discriminate | discriminate | vm_compute; reflexivity].
Defined.

(** What the polar branch would compute had the observer been passed. *)
Lemma elevation_of_observer (zenith : Observer -> Z -> Q) (loc : Observer)
      (t now : Z) :
  elevation zenith (PyObserver loc) (Some t) now = Ok (90 - zenith loc t)%Q.
Proof. reflexivity. Qed.

(** * Further properties of the code *)

(** ** Reports, one after the other *)

Lemma update_speed_twice (w : HeadUpDisplay) (data : TPV) :
  update_speed (update_speed w data) data = update_speed w data.
Proof.
  unfold update_speed.
  destruct data as [m st sp tr la lo al eh ev ti]; cbn [tpv_mode tpv_status
    tpv_speed tpv_track tpv_lat tpv_lon tpv_altHAE].
  destruct st, sp, tr, la, lo, al; reflexivity.
Qed.

(** X1: a TPV report and a SKY report write different attributes of the
    widget: processed in either order they leave the same state, and the
    SKY report changes nothing but the sky view. *)
Theorem tpv_and_sky_commute (w : HeadUpDisplay) (tpv : TPV) (sky : SKY) :
  update_sky (update_speed w tpv) sky = update_speed (update_sky w sky) tpv /\
  skyview (update_sky w sky) = Some sky /\
  last_tpv (update_sky w sky) = last_tpv w /\
  last_mode (update_sky w sky) = last_mode w /\
  last_status (update_sky w sky) = last_status w /\
  last_speed (update_sky w sky) = last_speed w /\
  last_heading (update_sky w sky) = last_heading w /\
  latitude (update_sky w sky) = latitude w /\
  longitude (update_sky w sky) = longitude w /\
  altitude (update_sky w sky) = altitude w.
Proof.
  split; [|repeat split].
  unfold update_speed, update_sky.
  destruct tpv as [m st sp tr la lo al eh ev ti]; cbn [tpv_mode tpv_status
    tpv_speed tpv_track tpv_lat tpv_lon tpv_altHAE].
  destruct st, sp, tr, la, lo, al; reflexivity.
Qed.

(** X2: processing the same report twice in a row leaves the widget as
    processing it once, for every class of report. *)
Theorem handle_report_idempotent (w : HeadUpDisplay) (r : report) :
  handle_report (handle_report w r) r = handle_report w r.
Proof.
  destruct r as [data|data|]; cbn [handle_report].
  - apply update_speed_twice.
  - reflexivity.
  - reflexivity.
Qed.

Lemma handle_reports_snoc (w : HeadUpDisplay) (rs : list report) (r : report) :
  handle_reports w (rs ++ [r]) = handle_report (handle_reports w rs) r.
Proof. unfold handle_reports. now rewrite fold_left_app. Qed.

Lemma handle_reports_app (w : HeadUpDisplay) (rs1 rs2 : list report) :
  handle_reports w (rs1 ++ rs2) = handle_reports (handle_reports w rs1) rs2.
Proof. unfold handle_reports. now rewrite fold_left_app. Qed.

Lemma update_speed_keeps_position (w : HeadUpDisplay) (data : TPV) :
  (latitude w <> None -> latitude (update_speed w data) <> None) /\
  (longitude w <> None -> longitude (update_speed w data) <> None) /\
  (altitude w <> None -> altitude (update_speed w data) <> None).
Proof.
  unfold update_speed.
  destruct data as [m st sp tr la lo al eh ev ti]; cbn [tpv_mode tpv_status
    tpv_speed tpv_track tpv_lat tpv_lon tpv_altHAE].
  destruct st, sp, tr, la, lo, al; cbn; repeat split; congruence.
Qed.

(** X3: a position, once known, stays known: whatever reports follow, a
    latitude, a longitude or an altitude that has a value never goes back
    to None. *)
Theorem known_position_stays_known (w : HeadUpDisplay) (reports : list report) :
  (latitude w <> None -> latitude (handle_reports w reports) <> None) /\
  (longitude w <> None -> longitude (handle_reports w reports) <> None) /\
  (altitude w <> None -> altitude (handle_reports w reports) <> None).
Proof.
  induction reports as [|r rs IH] using rev_ind; [cbn; auto|].
  rewrite handle_reports_snoc.
  destruct IH as [Hlat [Hlon Halt]].
  destruct r as [data|data|]; cbn [handle_report].
  - destruct (update_speed_keeps_position (handle_reports w rs) data)
      as [H1 [H2 H3]].
    repeat split; auto.
  - repeat split; auto.
  - repeat split; auto.
Qed.

Lemma known_position_stays_known_witness :
  latitude (handle_reports (update_speed initial_widget report_with_eph)
              [TPVReport report_without_eph; SKYReport sky_with_counts;
               TPVReport report_eph_no_position]) <> None.
Proof.
  apply (known_position_stays_known
           (update_speed initial_widget report_with_eph)).
  discriminate.
Defined.

Lemma handle_reports_no_tpv (w : HeadUpDisplay) (rs : list report) :
  forallb (fun r => negb (is_tpv r)) rs = true ->
  last_tpv (handle_reports w rs) = last_tpv w /\
  last_mode (handle_reports w rs) = last_mode w /\
  last_status (handle_reports w rs) = last_status w /\
  last_speed (handle_reports w rs) = last_speed w /\
  last_heading (handle_reports w rs) = last_heading w /\
  latitude (handle_reports w rs) = latitude w /\
  longitude (handle_reports w rs) = longitude w /\
  altitude (handle_reports w rs) = altitude w.
Proof.
  revert w. induction rs as [|r rs IH]; intros w H; [cbn; repeat split|].
  cbn [forallb] in H. apply andb_true_iff in H as [Hr Hrs].
  change (handle_reports w (r :: rs)) with (handle_reports (handle_report w r) rs).
  destruct r as [data|data|]; [discriminate| |]; cbn [handle_report].
  - destruct (IH (update_sky w data) Hrs) as [H1 [H2 [H3 [H4 [H5 [H6 [H7 H8]]]]]]].
    repeat split; assumption.
  - now apply IH.
Qed.

Lemma update_speed_merge_fields (w : HeadUpDisplay) (data : TPV) :
  last_mode (update_speed w data) = tpv_mode data /\
  last_tpv (update_speed w data) = Some data /\
  (forall v, tpv_lat data = Some v -> latitude (update_speed w data) = Some v) /\
  (forall v, tpv_lon data = Some v -> longitude (update_speed w data) = Some v).
Proof.
  unfold update_speed.
  destruct data as [m st sp tr la lo al eh ev ti]; cbn [tpv_mode tpv_status
    tpv_speed tpv_track tpv_lat tpv_lon tpv_altHAE].
  destruct st, sp, tr, la, lo, al; cbn; repeat split; congruence.
Qed.

(** X4: what the display knows from TPV reports is decided by the last TPV
    report of the stream: after it, and any SKY or other reports behind it,
    the mode is that report's mode, the stored report is that report, and
    the eph and epv read by the display are the ones it carries. *)
Theorem last_tpv_report_decides (w : HeadUpDisplay) (before after : list report)
        (data : TPV) :
  forallb (fun r => negb (is_tpv r)) after = true ->
  let w' := handle_reports w (before ++ TPVReport data :: after) in
  last_mode w' = tpv_mode data /\
  last_tpv w' = Some data /\
  known_eph w' = tpv_eph data /\
  known_epv w' = tpv_epv data /\
  (forall v, tpv_lat data = Some v -> latitude w' = Some v) /\
  (forall v, tpv_lon data = Some v -> longitude w' = Some v).
Proof.
  intros Hafter. cbv zeta.
  rewrite handle_reports_app.
  change (handle_reports (handle_reports w before) (TPVReport data :: after))
    with (handle_reports (update_speed (handle_reports w before) data) after).
  destruct (handle_reports_no_tpv
              (update_speed (handle_reports w before) data) after Hafter)
    as [H1 [H2 [_ [_ [_ [H6 [H7 _]]]]]]].
  unfold known_eph, known_epv. rewrite H1, H2, H6, H7.
  destruct (update_speed_merge_fields (handle_reports w before) data)
    as [M1 [M2 [M3 M4]]].
  rewrite M1, M2. repeat split; auto.
Qed.

Lemma last_tpv_report_decides_witness :
  let w' := handle_reports initial_widget
              [TPVReport report_with_eph; TPVReport report_eph_no_position;
               SKYReport sky_with_counts; OtherReport] in
  last_mode w' = 1 /\ known_eph w' = Some 4%Q /\ known_epv w' = None.
Proof.
  cbv zeta.
  destruct (last_tpv_report_decides initial_widget
              [TPVReport report_with_eph]
              [SKYReport sky_with_counts; OtherReport]
              report_eph_no_position eq_refl) as [H1 [_ [H3 [H4 _]]]].
  split; [exact H1|]. split; [exact H3 | exact H4].
Defined.

(** ** When the fix text raises *)

Lemma GNSS_FLAG_unknown (g : Z) :
  ~ 0 <= g <= 6 -> dict_getitem GNSS_FLAG g = Raise KeyError.
Proof.
  intros H. unfold dict_getitem.
  let flags := eval vm_compute in GNSS_FLAG in change GNSS_FLAG with flags.
  cbn [dict_get].
  repeat match goal with
         | |- context [?a =? g] =>
             destruct (Z.eqb_spec a g) as [E | _]; [exfalso; lia|]
         end.
  reflexivity.
Qed.

Lemma svlist_items_key_error (uc : dict Z) (keys : list Z) (g : Z) :
  In g keys -> 0 < defaultdict_get 0 uc g -> ~ 0 <= g <= 6 ->
  svlist_items uc keys = Raise KeyError.
Proof.
  intros Hin Hpos Hbad. induction keys as [|k rest IH]; [contradiction|].
  cbn [svlist_items]. destruct Hin as [-> | Hin].
  - apply Z.ltb_lt in Hpos. rewrite Hpos, (GNSS_FLAG_unknown g Hbad).
    reflexivity.
  - specialize (IH Hin).
    destruct (0 <? defaultdict_get 0 uc k); [|exact IH].
    destruct (dict_getitem GNSS_FLAG k) as [flag|e] eqn:Ef; cbn [bind].
    + now rewrite IH.
    + unfold dict_getitem in Ef. destruct (dict_get GNSS_FLAG k); congruence.
Qed.

Lemma svlist_items_flagged (uc : dict Z) (keys : list Z) :
  (forall g, In g keys -> 0 < defaultdict_get 0 uc g -> 0 <= g <= 6) ->
  exists items, svlist_items uc keys = Ok items.
Proof.
  induction keys as [|g rest IH]; intros H; cbn [svlist_items]; [eauto|].
  destruct IH as [items Hi]; [intros k Hk; apply H; now right|].
  destruct (0 <? defaultdict_get 0 uc g) eqn:E; [|eauto].
  apply Z.ltb_lt in E.
  destruct (GNSS_FLAG_known g) as [flag Hf]; [apply H; [now left | exact E]|].
  rewrite Hf, Hi. cbn [bind]. eauto.
Qed.

Lemma ucount_positive (sats : list Satellite) (g : Z) :
  0 < defaultdict_get 0 (ucount (count_satellites sats)) g <->
  exists sat, In sat sats /\ gnssid sat = Some g /\ used sat = true.
Proof.
  rewrite ucount_counts. split.
  - intros H. destruct (filter (used_in g) sats) as [|sat l] eqn:F;
      [simpl in H; lia|].
    assert (Hin : In sat (filter (used_in g) sats)) by (rewrite F; now left).
    apply filter_In in Hin as [Hin Hu]. unfold used_in in Hu.
    destruct (gnssid sat) as [g'|] eqn:Eg; [|discriminate].
    apply andb_true_iff in Hu as [Hg Hu]. apply Z.eqb_eq in Hg. subst g'.
    exists sat. auto.
  - intros [sat [Hin [Hg Hu]]].
    assert (Hf : In sat (filter (used_in g) sats)).
    { apply filter_In. split; [exact Hin|].
      unfold used_in. now rewrite Hg, Hu, Z.eqb_refl. }
    destruct (filter (used_in g) sats); [contradiction | simpl; lia].
Qed.

Lemma ucount_positive_key (sats : list Satellite) (g : Z) :
  0 < defaultdict_get 0 (ucount (count_satellites sats)) g ->
  In g (dict_keys (ucount (count_satellites sats))).
Proof.
  intros H. apply dict_get_keys. intros Hnone.
  unfold defaultdict_get in H. rewrite Hnone in H. lia.
Qed.

Lemma used_unflagged_spec (sats : list Satellite) :
  existsb used_unflagged sats = true <->
  exists sat g, In sat sats /\ gnssid sat = Some g /\ used sat = true /\
                ~ 0 <= g <= 6.
Proof.
  rewrite existsb_exists. unfold used_unflagged. split.
  - intros [sat [Hin H]]. destruct (gnssid sat) as [g|] eqn:Eg; [|discriminate].
    apply andb_true_iff in H as [Hu Hg]. apply negb_true_iff in Hg.
    exists sat, g. repeat split; auto.
    intros [H0 H6]. apply Z.leb_le in H0, H6. rewrite H0, H6 in Hg. discriminate.
  - intros [sat [g [Hin [Eg [Hu Hg]]]]]. exists sat. split; [exact Hin|].
    rewrite Eg, Hu. cbn [andb]. apply negb_true_iff.
    destruct (0 <=? g) eqn:E0; [|reflexivity].
    destruct (g <=? 6) eqn:E6; [|reflexivity].
    apply Z.leb_le in E0, E6. exfalso. apply Hg. lia.
Qed.

Lemma svlist_of_sats (sats : list Satellite) :
  let uc := ucount (count_satellites sats) in
  (existsb used_unflagged sats = true ->
   svlist_items uc (dict_keys uc) = Raise KeyError) /\
  (existsb used_unflagged sats = false ->
   exists items, svlist_items uc (dict_keys uc) = Ok items).
Proof.
  cbv zeta. split.
  - intros H. apply used_unflagged_spec in H as [sat [g [Hin [Eg [Hu Hg]]]]].
    assert (Hpos : 0 < defaultdict_get 0 (ucount (count_satellites sats)) g)
      by (apply ucount_positive; eauto).
    eapply svlist_items_key_error; eauto using ucount_positive_key.
  - intros H. apply svlist_items_flagged. intros g _ Hpos.
    apply ucount_positive in Hpos as [sat [Hin [Eg Hu]]].
    destruct (Z_le_dec 0 g) as [H0|H0];
      [destruct (Z_le_dec g 6) as [H6|H6]; [lia|]|];
      exfalso;
      (assert (E : existsb used_unflagged sats = true);
       [apply used_unflagged_spec; exists sat, g; repeat split; auto; lia
       |congruence]).
Qed.

Lemma fix_status_text_cases (status : Z) :
  (-10 <= status <= 9 -> exists label, fix_status_text status = Ok label) /\
  (status < -10 \/ 9 < status -> fix_status_text status = Raise IndexError).
Proof.
  split.
  - intros H.
    assert (E : status = -10 \/ status = -9 \/ status = -8 \/ status = -7 \/
                status = -6 \/ status = -5 \/ status = -4 \/ status = -3 \/
                status = -2 \/ status = -1 \/ status = 0 \/ status = 1 \/
                status = 2 \/ status = 3 \/ status = 4 \/ status = 5 \/
                status = 6 \/ status = 7 \/ status = 8 \/ status = 9) by lia.
    repeat (destruct E as [E | E]; [subst status; eexists; reflexivity|]).
    subst status; eexists; reflexivity.
  - intros H. unfold fix_status_text, tuple_getitem.
    destruct (Z.eqb_spec status 0) as [E|_]; [lia|].
    change (Z.of_nat (List.length STATUS_TEXT)) with 10.
    destruct (Z.ltb_spec status 0) as [Hn|Hn].
    + destruct (Z.ltb_spec (status + 10) 0) as [_|Hc]; [reflexivity | lia].
    + destruct (Z.ltb_spec status 0) as [Hc|_]; [lia|].
      destruct (Z.leb_spec 10 status) as [_|Hc]; [reflexivity | lia].
Qed.

Lemma fix_sky_text_cases (sky : option SKY) (fixtext : string) :
  match sky with
  | Some sv =>
      match uSat sv, nSat sv with
      | Some _, Some _ =>
          match satellites sv with
          | Some sats =>
              if existsb used_unflagged sats
              then fix_sky_text sky fixtext = Raise KeyError
              else exists t, fix_sky_text sky fixtext = Ok t
          | None => fix_sky_text sky fixtext = Raise AttributeError
          end
      | _, _ => fix_sky_text sky fixtext = Ok fixtext
      end
  | None => fix_sky_text sky fixtext = Ok fixtext
  end.
Proof.
  destruct sky as [sv|]; [|reflexivity].
  unfold fix_sky_text.
  destruct (uSat sv) as [u|]; [|reflexivity].
  destruct (nSat sv) as [n|]; [|reflexivity].
  destruct (satellites sv) as [sats|]; [|reflexivity].
  cbn [bind]. destruct (svlist_of_sats sats) as [Hbad Hgood].
  destruct (existsb used_unflagged sats).
  - rewrite (Hbad eq_refl). reflexivity.
  - destruct (Hgood eq_refl) as [items ->]. cbn [bind].
    destruct (append_snr_line "All SNR" (sigstrength (count_satellites sats)))
      as [l1 [H1 _]].
    destruct (append_snr_line "Used SNR" (usedsigstrength (count_satellites sats)))
      as [l2 [H2 _]].
    rewrite H1. cbn [bind]. rewrite H2. eauto.
Qed.

(** X7: the status label is fetched by tuple index before the mode is
    looked at, so the fix text raises IndexError exactly when the status is
    above 9 or below -10, even with mode NoFix or Unknown, where the label
    would be thrown away; a status from -9 to -1 counts from the end of the
    table and shows the label of status + 10. *)
Theorem fix_text_index_error (w : HeadUpDisplay) :
  (fix_text w = Raise IndexError <->
   last_status w < -10 \/ 9 < last_status w) /\
  (-9 <= last_status w <= -1 ->
   fix_status_text (last_status w) = fix_status_text (last_status w + 10)).
Proof.
  destruct (fix_status_text_cases (last_status w)) as [Hin Hout].
  split.
  - split.
    + intros H.
      destruct (Z_lt_dec (last_status w) (-10)) as [|H1]; [now left|].
      destruct (Z_lt_dec 9 (last_status w)) as [|H2]; [now right|].
      exfalso. destruct Hin as [label Hl]; [lia|].
      unfold fix_text in H. rewrite Hl in H. cbn [bind] in H.
      pose proof (fix_sky_text_cases (skyview w)
                    (fix_mode_text (last_mode w) label)) as C.
      destruct (skyview w) as [sv|]; [|rewrite C in H; discriminate].
      destruct (uSat sv); [|rewrite C in H; discriminate].
      destruct (nSat sv); [|rewrite C in H; discriminate].
      destruct (satellites sv) as [sats|]; [|rewrite C in H; discriminate].
      destruct (existsb used_unflagged sats);
        [rewrite C in H; discriminate|].
      destruct C as [t C]. rewrite C in H. discriminate.
    + intros H. unfold fix_text. now rewrite (Hout H).
  - intros H.
    assert (E : last_status w = -9 \/ last_status w = -8 \/
                last_status w = -7 \/ last_status w = -6 \/
                last_status w = -5 \/ last_status w = -4 \/
                last_status w = -3 \/ last_status w = -2 \/
                last_status w = -1) by lia.
    repeat (destruct E as [E | E]; [rewrite E; reflexivity|]).
    rewrite E; reflexivity.
Qed.

Lemma fix_text_index_error_witness :
  fix_text (set_last_status (set_last_mode initial_widget NoFix) 10) =
    Raise IndexError /\
  fix_status_text (-1) = Ok "P(Y)".
Proof.
  split.
  - destruct (fix_text_index_error
                (set_last_status (set_last_mode initial_widget NoFix) 10))
      as [[_ H] _].
    apply H. right. simpl. lia.
  - destruct (fix_text_index_error
                (set_last_status initial_widget (-1))) as [_ H].
    simpl in H. rewrite H by lia. reflexivity.
Defined.

(** X8: with a status from -10 to 9, the fix text fails in two cases only,
    both under a SKY report that carries uSat and nSat: with AttributeError
    exactly when that report has no satellite list, and with KeyError
    exactly when some used satellite belongs to a constellation outside 0
    to 6, which has no flag.  Unused satellites of such a constellation do
    no harm, and in every other case the text is produced. *)
Theorem fix_text_sky_errors (w : HeadUpDisplay) :
  -10 <= last_status w <= 9 ->
  (fix_text w = Raise AttributeError <->
   exists sv, counted_sky w = Some sv /\ satellites sv = None) /\
  (fix_text w = Raise KeyError <->
   exists sv sats sat g,
     counted_sky w = Some sv /\ satellites sv = Some sats /\
     In sat sats /\ gnssid sat = Some g /\ used sat = true /\ ~ 0 <= g <= 6) /\
  ((exists t, fix_text w = Ok t) <->
   forall sv, counted_sky w = Some sv ->
     exists sats, satellites sv = Some sats /\
       forall sat g, In sat sats -> gnssid sat = Some g -> used sat = true ->
                     0 <= g <= 6).
Proof.
  intros Hs.
  destruct (fix_status_text_cases (last_status w)) as [Hin _].
  destruct (Hin Hs) as [label Hl].
  unfold fix_text, counted_sky. rewrite Hl. cbn [bind].
  pose proof (fix_sky_text_cases (skyview w)
                (fix_mode_text (last_mode w) label)) as C.
  destruct (skyview w) as [sv|].
  2:{ rewrite C. cbn [bind]. split; [|split].
      - split; [discriminate | intros [sv [H _]]; discriminate].
      - split; [discriminate | intros [sv [s [a [g [H _]]]]]; discriminate].
      - split; [discriminate | eauto]. }
  destruct (uSat sv) as [u|].
  2:{ rewrite C. cbn [bind]. split; [|split].
      - split; [discriminate | intros [sv' [H _]]; discriminate].
      - split; [discriminate | intros [sv' [s [a [g [H _]]]]]; discriminate].
      - split; [discriminate | eauto]. }
  destruct (nSat sv) as [n|].
  2:{ rewrite C. cbn [bind]. split; [|split].
      - split; [discriminate | intros [sv' [H _]]; discriminate].
      - split; [discriminate | intros [sv' [s [a [g [H _]]]]]; discriminate].
      - split; [discriminate | eauto]. }
  destruct (satellites sv) as [sats|] eqn:Esats.
  2:{ rewrite C. cbn [bind]. split; [|split].
      - split; [intros _; exists sv; auto | reflexivity].
      - split; [discriminate|].
        intros [sv' [s [a [g [H [H' _]]]]]]. injection H as <-. congruence.
      - split; [intros [t H]; discriminate|].
        intros H. destruct (H sv eq_refl) as [s [H' _]]. congruence. }
  destruct (existsb used_unflagged sats) eqn:Eb.
  - rewrite C. cbn [bind].
    apply used_unflagged_spec in Eb as [sat [g [Hin' [Eg [Hu Hg]]]]].
    split; [|split].
    + split; [discriminate|].
      intros [sv' [H H']]. injection H as <-. congruence.
    + split; [|reflexivity]. intros _. exists sv, sats, sat, g. auto 10.
    + split; [intros [t H]; discriminate|].
      intros H. destruct (H sv eq_refl) as [s [H' Hall]].
      assert (s = sats) by congruence. subst s.
      exfalso. apply Hg. eapply Hall; eauto.
  - destruct C as [t C]. rewrite C. cbn [bind].
    split; [|split].
    + split; [discriminate|].
      intros [sv' [H H']]. injection H as <-. congruence.
    + split; [discriminate|].
      intros [sv' [s [sat [g [H [H' [Hin' [Eg [Hu Hg]]]]]]]]].
      injection H as <-. assert (s = sats) by congruence. subst s.
      assert (E : existsb used_unflagged sats = true)
        by (apply used_unflagged_spec; eauto 10).
      congruence.
    + split; [|eauto]. intros _ sv' H. injection H as <-.
      exists sats. split; [exact Esats|].
      intros sat g Hin' Eg Hu.
      destruct (Z_le_dec 0 g) as [H0|H0];
        [destruct (Z_le_dec g 6) as [H6|H6]; [lia|]|];
        exfalso;
        (assert (E : existsb used_unflagged sats = true);
         [apply used_unflagged_spec; exists sat, g; repeat split; auto; lia
         |congruence]).
Qed.

Lemma fix_text_sky_errors_witness :
  fix_text (set_skyview initial_widget
              (Some (sky_of [sat_gps_used; sat_navic_used]))) = Raise KeyError /\
  (exists t, fix_text (set_skyview initial_widget
                         (Some (sky_of [sat_gps_used; sat_navic_unused])))
             = Ok t).
Proof.
  split.
  - destruct (fix_text_sky_errors
                (set_skyview initial_widget
                   (Some (sky_of [sat_gps_used; sat_navic_used]))))
      as [_ [[_ H] _]]; [simpl; lia|].
    apply H.
    exists (sky_of [sat_gps_used; sat_navic_used]),
           [sat_gps_used; sat_navic_used], sat_navic_used, 7.
    repeat split; try reflexivity; [right; left; reflexivity | lia].
  - destruct (fix_text_sky_errors
                (set_skyview initial_widget
                   (Some (sky_of [sat_gps_used; sat_navic_unused]))))
      as [_ [_ [_ H]]]; [simpl; lia|].
    apply H. intros sv E. injection E as <-.
    exists [sat_gps_used; sat_navic_unused]. split; [reflexivity|].
    intros sat g [<- | [<- | []]] Eg Hu.
    + injection Eg as <-. lia.
    + discriminate.
Defined.

(** ** What the satellite loop keeps *)

Lemma dict_keys_set_same {V W : Type} (d1 : dict V) (d2 : dict W) (k : Z)
      (v : V) (v' : W) :
  dict_keys d1 = dict_keys d2 ->
  dict_keys (dict_set d1 k v) = dict_keys (dict_set d2 k v').
Proof.
  revert d2. induction d1 as [|[k1 v1] d1 IH]; intros [|[k2 v2] d2] H;
    try discriminate; [reflexivity|].
  unfold dict_keys in *. cbn [map fst] in H. injection H as -> H.
  cbn [dict_set]. destruct (k2 =? k); cbn [map fst]; f_equal; auto.
Qed.

Lemma dict_set_nodup {V : Type} (d : dict V) (k : Z) (v : V) :
  NoDup (dict_keys d) -> NoDup (dict_keys (dict_set d k v)).
Proof.
  induction d as [|[k' v'] d IH]; intros H.
  - cbn. constructor; [intros [] | constructor].
  - cbn [dict_set]. destruct (Z.eqb_spec k' k) as [E|E]; [exact H|].
    unfold dict_keys in *. cbn [map fst] in *.
    inversion H as [|? ? Hnot Hnd]; subst.
    constructor; [|now apply IH].
    intros Hin. apply (dict_keys_set d k k' v) in Hin as [Hin | Hin];
      [congruence | contradiction].
Qed.

Lemma count_keys_agree (sats : list Satellite) :
  dict_keys (ncount (count_satellites sats)) =
  dict_keys (ucount (count_satellites sats)).
Proof.
  induction sats as [|sat sats IH] using rev_ind; [reflexivity|].
  rewrite count_satellites_snoc. unfold count_satellite.
  destruct (gnssid sat) as [g|]; [|exact IH].
  cbn [ucount ncount]. now apply dict_keys_set_same.
Qed.

Lemma ucount_nodup (sats : list Satellite) :
  NoDup (dict_keys (ucount (count_satellites sats))).
Proof.
  induction sats as [|sat sats IH] using rev_ind; [constructor|].
  rewrite count_satellites_snoc. unfold count_satellite.
  destruct (gnssid sat) as [g|]; [|exact IH].
  cbn [ucount]. now apply dict_set_nodup.
Qed.

Lemma ucount_keys_in (sats : list Satellite) (sat : Satellite) (g : Z) :
  In sat sats -> gnssid sat = Some g ->
  In g (dict_keys (ucount (count_satellites sats))).
Proof.
  induction sats as [|s sats IH] using rev_ind; [contradiction|].
  intros Hin Hg. rewrite count_satellites_snoc. unfold count_satellite.
  apply in_app_or in Hin as [Hin | [<- | []]].
  - specialize (IH Hin Hg). destruct (gnssid s) as [g'|]; [|exact IH].
    cbn [ucount]. apply dict_keys_set. now right.
  - rewrite Hg. cbn [ucount]. apply dict_keys_set. now left.
Qed.

(** X9: the satellite loop counts per constellation: the used count of a
    constellation is the number of entries of the report with that gnssid
    and the used flag, the total count the number of entries with that
    gnssid, so the used count is never above the total; a constellation is
    listed exactly when some entry carries its gnssid, used or not, under
    the same keys in both counts and never twice. *)
Theorem satellite_counts (sats : list Satellite) (g : Z) :
  let st := count_satellites sats in
  defaultdict_get 0 (ucount st) g =
    Z.of_nat (List.length (filter (used_in g) sats)) /\
  defaultdict_get 0 (ncount st) g =
    Z.of_nat (List.length (filter (seen_in g) sats)) /\
  0 <= defaultdict_get 0 (ucount st) g <= defaultdict_get 0 (ncount st) g /\
  (In g (dict_keys (ucount st)) <->
   exists sat, In sat sats /\ gnssid sat = Some g) /\
  dict_keys (ncount st) = dict_keys (ucount st) /\
  NoDup (dict_keys (ucount st)).
Proof.
  cbv zeta.
  split; [apply ucount_counts|].
  split; [apply ncount_counts|].
  split; [apply used_count_le_total|].
  split; [|split; [apply count_keys_agree | apply ucount_nodup]].
  split; [apply ucount_keys|].
  intros [sat [Hin Hg]]. eapply ucount_keys_in; eassumption.
Qed.

Lemma sigstrength_nodup (sats : list Satellite) :
  NoDup (dict_keys (sigstrength (count_satellites sats))) /\
  NoDup (dict_keys (usedsigstrength (count_satellites sats))).
Proof.
  induction sats as [|sat sats [IH1 IH2]] using rev_ind;
    [split; constructor|].
  rewrite count_satellites_snoc. unfold count_satellite.
  destruct (gnssid sat) as [g|]; [|now split].
  cbn [sigstrength usedsigstrength].
  destruct (ss sat) as [v|]; [|now split].
  split; [now apply dict_set_nodup|].
  destruct (used sat); [now apply dict_set_nodup | exact IH2].
Qed.

Lemma used_snr_key_in_all (sats : list Satellite) (prn : Z) :
  In prn (dict_keys (usedsigstrength (count_satellites sats))) ->
  In prn (dict_keys (sigstrength (count_satellites sats))).
Proof.
  rewrite !dict_get_keys, usedsigstrength_last, sigstrength_last.
  intros H. destruct (last_ss heard_used sats prn) as [v|] eqn:E;
    [|congruence].
  apply last_ss_found in E as [sat [Hin [Hsel [<- _]]]].
  apply andb_true_iff in Hsel as [Hh _].
  apply last_ss_present; auto using heard_has_ss.
Qed.

(** X10: the two signal-strength dicts agree with each other: every PRN
    of used_snr is a PRN of all_snr, every PRN of all_snr is the PRN of an
    entry of the report, no PRN is held twice, and so used_snr never has
    more samples than all_snr: a Used SNR line is never written without an
    All SNR line. *)
Theorem snr_dicts_nest (sats : list Satellite) :
  let st := count_satellites sats in
  (forall prn, In prn (dict_keys (usedsigstrength st)) ->
               In prn (dict_keys (sigstrength st))) /\
  (forall prn, In prn (dict_keys (sigstrength st)) ->
               exists sat, In sat sats /\ PRN sat = prn) /\
  NoDup (dict_keys (sigstrength st)) /\
  NoDup (dict_keys (usedsigstrength st)) /\
  (List.length (dict_values (usedsigstrength st)) <=
   List.length (dict_values (sigstrength st)))%nat /\
  (usedsigstrength st <> [] -> sigstrength st <> []).
Proof.
  cbv zeta. destruct (sigstrength_nodup sats) as [N1 N2].
  assert (L : (List.length (dict_values (usedsigstrength (count_satellites sats)))
               <= List.length (dict_values (sigstrength (count_satellites sats))))%nat).
  { unfold dict_values. rewrite !length_map.
    rewrite <- (length_map fst (usedsigstrength _)),
            <- (length_map fst (sigstrength _)).
    apply NoDup_incl_length; [exact N2|].
    intros prn. apply used_snr_key_in_all. }
  split; [apply used_snr_key_in_all|].
  split; [|split; [exact N1 | split; [exact N2 | split; [exact L|]]]].
  - intros prn H. apply dict_get_keys in H. rewrite sigstrength_last in H.
    destruct (last_ss heard sats prn) as [v|] eqn:E; [|congruence].
    apply last_ss_found in E as [sat [Hin [_ [Hp _]]]]. eauto.
  - intros Hu Ha. rewrite Ha in L.
    destruct (usedsigstrength (count_satellites sats)); [congruence|].
    simpl in L. lia.
Qed.

(** ** Minimum, maximum and mean of the signal strengths *)

Lemma Qltb_true (x y : Q) : Qltb x y = true -> (x < y)%Q.
Proof.
  unfold Qltb. intros H. apply negb_true_iff in H.
  apply Qnot_le_lt. intros C. apply Qle_bool_iff in C. congruence.
Qed.

Lemma Qltb_false (x y : Q) : Qltb x y = false -> (y <= x)%Q.
Proof.
  unfold Qltb. intros H. apply negb_false_iff in H. now apply Qle_bool_iff.
Qed.

Lemma fold_min_spec (rest : list Q) (m : Q) :
  let r := fold_left (fun m y => if Qltb y m then y else m) rest m in
  (r = m \/ In r rest) /\ (r <= m)%Q /\ forall x, In x rest -> (r <= x)%Q.
Proof.
  cbv zeta. revert m. induction rest as [|y rest IH]; intros m.
  - cbn. split; [now left|]. split; [apply Qle_refl | contradiction].
  - cbn [fold_left]. destruct (Qltb y m) eqn:E.
    + apply Qltb_true in E. destruct (IH y) as [H1 [H2 H3]].
      split; [destruct H1 as [-> | H1]; right; [now left | now right]|].
      split; [apply Qle_trans with y; [exact H2 | now apply Qlt_le_weak]|].
      intros x [<- | Hx]; auto.
    + apply Qltb_false in E. destruct (IH m) as [H1 [H2 H3]].
      split; [destruct H1 as [-> | H1]; [now left | right; now right]|].
      split; [exact H2|].
      intros x [<- | Hx]; [now apply Qle_trans with m | auto].
Qed.

Lemma fold_max_spec (rest : list Q) (m : Q) :
  let r := fold_left (fun m y => if Qltb m y then y else m) rest m in
  (r = m \/ In r rest) /\ (m <= r)%Q /\ forall x, In x rest -> (x <= r)%Q.
Proof.
  cbv zeta. revert m. induction rest as [|y rest IH]; intros m.
  - cbn. split; [now left|]. split; [apply Qle_refl | contradiction].
  - cbn [fold_left]. destruct (Qltb m y) eqn:E.
    + apply Qltb_true in E. destruct (IH y) as [H1 [H2 H3]].
      split; [destruct H1 as [-> | H1]; right; [now left | now right]|].
      split; [apply Qle_trans with y; [now apply Qlt_le_weak | exact H2]|].
      intros x [<- | Hx]; auto.
    + apply Qltb_false in E. destruct (IH m) as [H1 [H2 H3]].
      split; [destruct H1 as [-> | H1]; [now left | right; now right]|].
      split; [exact H2|].
      intros x [<- | Hx]; [now apply Qle_trans with m | auto].
Qed.

Lemma Qlen_cons (x : Q) (xs : list Q) : (Qlen (x :: xs) == Qlen xs + 1)%Q.
Proof.
  unfold Qlen. cbn [List.length]. rewrite Nat2Z.inj_succ.
  unfold Z.succ. now rewrite inject_Z_plus.
Qed.

Lemma fold_sum_bounds (xs : list Q) (lo hi a : Q) :
  (forall x, In x xs -> (lo <= x)%Q /\ (x <= hi)%Q) ->
  (a + Qlen xs * lo <= fold_left Qplus xs a)%Q /\
  (fold_left Qplus xs a <= a + Qlen xs * hi)%Q.
Proof.
  revert a. induction xs as [|x xs IH]; intros a H.
  - unfold Qlen. cbn [List.length Z.of_nat fold_left].
    change (inject_Z 0) with 0%Q. split; lra.
  - cbn [fold_left].
    destruct (H x (or_introl eq_refl)) as [Hlo Hhi].
    destruct (IH (a + x)%Q) as [H1 H2]; [intros y Hy; apply H; now right|].
    pose proof (Qlen_cons x xs) as E.
    assert (Hn : (0 <= Qlen xs)%Q).
    { unfold Qlen. change 0%Q with (inject_Z 0). rewrite <- Zle_Qle. lia. }
    split.
    + apply Qle_trans with (a + x + Qlen xs * lo)%Q; [|exact H1].
      rewrite E. lra.
    + apply Qle_trans with (a + x + Qlen xs * hi)%Q; [exact H2|].
      rewrite E. lra.
Qed.

(** X11: the minimum and the maximum written on a signal-strength line
    are samples of the set and bracket every sample, so the minimum is
    never above the maximum.  The mean is the rounded quotient of the
    rounded sum: it lies between them when the count times the minimum and
    the count times the maximum are binary64 numbers, as for whole-number
    strengths. *)
Theorem snr_min_max_bracket (xs : list Q) (lo hi : Q) :
  builtin_min xs = Ok lo -> builtin_max xs = Ok hi ->
  In lo xs /\ In hi xs /\
  (forall x, In x xs -> (lo <= x)%Q /\ (x <= hi)%Q) /\
  (lo <= hi)%Q /\
  (binary64 lo = true -> binary64 hi = true ->
   binary64 (Qlen xs * lo) = true -> binary64 (Qlen xs * hi) = true ->
   forall mean, fmean xs = Ok mean -> (lo <= mean)%Q /\ (mean <= hi)%Q).
Proof.
  destruct xs as [|x rest]; [discriminate|].
  cbn [builtin_min builtin_max]. intros Hlo Hhi.
  injection Hlo as <-. injection Hhi as <-.
  destruct (fold_min_spec rest x) as [L1 [L2 L3]].
  destruct (fold_max_spec rest x) as [M1 [M2 M3]].
  assert (B : forall y, In y (x :: rest) ->
    (fold_left (fun m y => if Qltb y m then y else m) rest x <= y)%Q /\
    (y <= fold_left (fun m y => if Qltb m y then y else m) rest x)%Q).
  { intros y [<- | Hy]; split; auto. }
  split; [destruct L1 as [-> | L1]; [now left | now right]|].
  split; [destruct M1 as [-> | M1]; [now left | now right]|].
  split; [exact B|].
  split; [now apply Qle_trans with x|].
  set (lo := fold_left (fun m y => if Qltb y m then y else m) rest x) in *.
  set (hi := fold_left (fun m y => if Qltb m y then y else m) rest x) in *.
  intros Flo Fhi Fnlo Fnhi mean Hm.
  apply binary64_float53 in Flo, Fhi, Fnlo, Fnhi.
  assert (E : mean = fdiv (round64 (Qsum (x :: rest))) (Qlen (x :: rest)))
    by (unfold fmean in Hm; congruence).
  subst mean.
  destruct (fold_sum_bounds (x :: rest) _ _ 0%Q B) as [S1 S2].
  fold (Qsum (x :: rest)) in S1, S2.
  assert (Hn : (0 < Qlen (x :: rest))%Q).
  { unfold Qlen. change 0%Q with (inject_Z 0). rewrite <- Zlt_Qlt.
    cbn [List.length]. lia. }
  set (n := Qlen (x :: rest)) in *.
  assert (T1 : (n * lo <= round64 (Qsum (x :: rest)))%Q)
    by (apply round64_ge; [exact Fnlo | lra]).
  assert (T2 : (round64 (Qsum (x :: rest)) <= n * hi)%Q)
    by (apply round64_le; [exact Fnhi | lra]).
  unfold fdiv. split.
  - apply round64_ge; [exact Flo|].
    apply Qle_shift_div_l; [exact Hn|]. lra.
  - apply round64_le; [exact Fhi|].
    apply Qle_shift_div_r; [exact Hn|]. lra.
Qed.

Lemma snr_min_max_bracket_witness :
  In 20%Q [30%Q; 20%Q; 40%Q] /\ (20 <= 40)%Q /\
  exists mean, fmean [30%Q; 20%Q; 40%Q] = Ok mean /\
               (20 <= mean)%Q /\ (mean <= 40)%Q.
Proof.
  destruct (snr_min_max_bracket [30%Q; 20%Q; 40%Q] 20%Q 40%Q eq_refl eq_refl)
    as [H1 [_ [_ [H4 H5]]]].
  split; [exact H1|]. split; [exact H4|].
  eexists. split; [reflexivity|].
  apply H5; vm_compute; reflexivity.
Defined.

(** Where the products are not binary64 numbers the mean can leave the
    bracket: three samples of the binary64 number 21.6 have the mean
    21.600000000000005. *)
Example fmean_above_max :
  let x := (3039929748475085 # 140737488355328)%Q in
  binary64 x = true /\
  builtin_max [x; x; x] = Ok x /\
  exists mean, fmean [x; x; x] = Ok mean /\ (x < mean)%Q /\
               (mean == 6079859496950171 # 281474976710656)%Q.
Proof.
  cbv zeta. split; [vm_compute; reflexivity|]. split; [reflexivity|].
  eexists. split; [reflexivity|]. split; vm_compute; reflexivity.
Qed.

(** ** The speed text *)

Lemma round_half_even_near (n : Z) (d : positive) :
  0 <= n ->
  0 <= round_half_even n d /\
  2 * Z.abs (round_half_even n d * Zpos d - n) <= Zpos d.
Proof.
  intros Hn. unfold round_half_even.
  pose proof (Z.div_mod n (Zpos d) ltac:(lia)) as E.
  pose proof (Z.mod_pos_bound n (Zpos d) ltac:(lia)) as B.
  assert (Hq : 0 <= n / Zpos d) by (apply Z.div_pos; lia).
  set (q := n / Zpos d) in *. set (r := n mod Zpos d) in *.
  destruct (Z.compare_spec (2 * r) (Zpos d)) as [C|C|C].
  - destruct (Z.even q); split; nia.
  - split; nia.
  - split; nia.
Qed.

Lemma float53_0 : float53 0.
Proof. float53_const 0 0. Qed.

(** X12: without a fix (mode 0 or 1) the speed text is a dash; with any
    other mode it is the decimal writing of an integer, with no decimal
    point, and for a speed that is not negative (and a product below the
    overflow threshold) this integer is within one half of the binary64
    product of the speed and the unit factor, ties going to the even
    integer. *)
Theorem speed_text_rounds_product (w : HeadUpDisplay) (speed : Q) :
  (last_mode w = 0 \/ last_mode w = 1 -> get_speed_text w speed = "-") /\
  (last_mode w <> 0 -> last_mode w <> 1 ->
   (0 <= speed * speedfactor w)%Q -> (speed * speedfactor w < 2 ^ 1023)%Q ->
   exists n : Z,
     0 <= n /\ get_speed_text w speed = format_int n /\
     (0 <= fmul speed (speedfactor w))%Q /\
     (Qabs (inject_Z n - fmul speed (speedfactor w)) <= 1 # 2)%Q /\
     ((Qabs (inject_Z n - fmul speed (speedfactor w)) == 1 # 2)%Q ->
      Z.even n = true)).
Proof.
  unfold get_speed_text. split.
  - intros [-> | ->]; reflexivity.
  - intros H0 H1 Hv _.
    destruct (Z.eqb_spec (last_mode w) 0) as [|_]; [contradiction|].
    destruct (Z.eqb_spec (last_mode w) 1) as [|_]; [contradiction|].
    cbn [orb].
    assert (Hp : (0 <= fmul speed (speedfactor w))%Q)
      by (apply round64_ge; [apply float53_0 | exact Hv]).
    set (v := fmul speed (speedfactor w)) in *.
    destruct v as [a d]. unfold Qle in Hp. cbn [Qnum Qden] in Hp.
    assert (Ha : 0 <= a) by lia.
    destruct (round_half_even_near a d Ha) as [Hm Hnear].
    exists (round_half_even a d). split; [exact Hm|].
    split; [|split; [|split]].
    + unfold format_fixed. cbn [Qnum Qden Z.of_nat].
      destruct (Z.ltb_spec a 0) as [C|_]; [lia|].
      change (10 ^ 0) with 1.
      rewrite Z.abs_eq, Z.mul_1_r, Z.div_1_r by lia.
      cbn [append]. apply app_empty_r.
    + unfold Qle. cbn [Qnum Qden]. lia.
    + apply Qabs_Qle_condition. unfold Qle, Qminus, Qplus, Qopp, inject_Z.
      cbn [Qnum Qden]. split; lia.
    + unfold Qeq, Qabs, Qminus, Qplus, Qopp, inject_Z. cbn [Qnum Qden].
      clear Hm Hnear. unfold round_half_even.
      pose proof (Z.div_mod a (Zpos d) ltac:(lia)) as E.
      pose proof (Z.mod_pos_bound a (Zpos d) ltac:(lia)) as B.
      set (q := a / Zpos d) in *. set (r := a mod Zpos d) in *.
      destruct (Z.compare_spec (2 * r) (Zpos d)) as [C|C|C].
      * destruct (Z.even q) eqn:Ev; [intros _; exact Ev|].
        intros _. rewrite Z.even_add, Ev. reflexivity.
      * intros T. exfalso. nia.
      * intros T. exfalso. nia.
Qed.

Lemma speed_text_rounds_product_witness :
  exists n : Z,
    get_speed_text (widget_in_mode Fix3D) 10 = format_int n /\
    (Qabs (inject_Z n - fmul 10 (speedfactor (widget_in_mode Fix3D))) <= 1 # 2)%Q.
Proof.
  destruct (speed_text_rounds_product (widget_in_mode Fix3D) 10) as [_ H].
  destruct H as [n [_ [Hn [_ [Hq _]]]]];
    [discriminate | discriminate | discriminate | reflexivity |].
  exists n. split; [exact Hn | exact Hq].
Defined.

Example speed_text_example :
  get_speed_text (widget_in_mode Fix3D) 10 = "22".
Proof. vm_compute. reflexivity. Qed.

(** The product is rounded before it is written: at 0.1388888888888889 m/s
    and the factor 3.6 it is one half, written as 0, while the exact
    product is above one half. *)
Example speed_text_half :
  let speed := (2501999792983609 # 18014398509481984)%Q in
  let factor := (8106479329266893 # 2251799813685248)%Q in
  binary64 speed = true /\ binary64 factor = true /\
  (1 # 2 < speed * factor)%Q /\ (fmul speed factor == 1 # 2)%Q /\
  format_fixed 0 (fmul speed factor) = "0".
Proof.
  cbv zeta. split; [vm_compute; reflexivity|].
  split; [vm_compute; reflexivity|]. split; [reflexivity|].
  split; vm_compute; reflexivity.
Qed.

(** ** Latitude and longitude *)

Lemma unsigned_app (a b : string) : unsigned (a ++ b) = unsigned a && unsigned b.
Proof.
  induction a as [|x a IH]; simpl; [reflexivity | now rewrite IH, andb_assoc].
Qed.

Lemma unsigned_occurs (c : ascii) (s : string) :
  unsigned s = true -> unsigned_char c = false -> occurs c s = false.
Proof.
  intros Hs Hc. induction s as [|a s IH]; [reflexivity|].
  simpl in *. apply andb_true_iff in Hs as [Ha Hs].
  rewrite (IH Hs), orb_false_r. apply Ascii.eqb_neq. congruence.
Qed.

Lemma unsigned_uint (d : Decimal.uint) : unsigned (NilEmpty.string_of_uint d) = true.
Proof. induction d; simpl; auto. Qed.

Lemma unsigned_format_int (i : Z) : 0 <= i -> unsigned (format_int i) = true.
Proof.
  intros H. unfold format_int, NilZero.string_of_int.
  destruct i as [|p|p]; [reflexivity| |lia].
  cbn [Z.to_int]. unfold NilZero.string_of_uint.
  destruct (Pos.to_uint p); simpl; auto using unsigned_uint.
Qed.

Lemma unsigned_digit_char (d : Z) : unsigned_char (digit_char d) = true.
Proof.
  unfold digit_char.
  assert (H : 0 <= d mod 10 < 10) by (apply Z.mod_pos_bound; lia).
  assert (E : d mod 10 = 0 \/ d mod 10 = 1 \/ d mod 10 = 2 \/ d mod 10 = 3 \/
              d mod 10 = 4 \/ d mod 10 = 5 \/ d mod 10 = 6 \/ d mod 10 = 7 \/
              d mod 10 = 8 \/ d mod 10 = 9) by lia.
  repeat (destruct E as [E | E]; [rewrite E; reflexivity|]).
  rewrite E; reflexivity.
Qed.

Lemma unsigned_frac_digits (prec : nat) (m : Z) : unsigned (frac_digits prec m) = true.
Proof.
  induction prec as [|p IH]; [reflexivity|].
  cbn [frac_digits unsigned]. now rewrite unsigned_digit_char, IH.
Qed.

Lemma unsigned_format_fixed (prec : nat) (x : Q) :
  0 <= Qnum x -> unsigned (format_fixed prec x) = true.
Proof.
  intros H. unfold format_fixed.
  destruct (Z.ltb_spec (Qnum x) 0) as [C|_]; [lia|].
  cbn [append]. rewrite unsigned_app.
  assert (Hm : 0 <= round_half_even (Z.abs (Qnum x) * 10 ^ Z.of_nat prec)
                                    (Qden x)).
  { apply round_half_even_near. apply Z.mul_nonneg_nonneg; [lia|].
    apply Z.pow_nonneg. lia. }
  rewrite unsigned_format_int
    by (apply Z.div_pos; [exact Hm | apply Z.pow_pos_nonneg; lia]).
  destruct prec as [|p]; [reflexivity|].
  cbn [unsigned]. rewrite unsigned_frac_digits. reflexivity.
Qed.

Lemma Qabs_opp_eq (x : Q) : Qabs (- x) = Qabs x.
Proof. destruct x as [n d]. unfold Qabs, Qopp. cbn. now rewrite Z.abs_opp. Qed.

Lemma Qabs_num_nonneg (x : Q) : 0 <= Qnum (Qabs x).
Proof. destruct x as [n d]. cbn. apply Z.abs_nonneg. Qed.

(** X13: a latitude or a longitude is written without a sign: the text
    holds no minus sign, the hemisphere letter carries the sign.  A value
    and its opposite give the same digits; a positive latitude reads N and
    its opposite S, a positive longitude E and its opposite W, and zero
    reads N and E. *)
Theorem coordinates_are_unsigned (x : Q) :
  occurs minus_sign (format_latitude x) = false /\
  occurs minus_sign (format_longitude x) = false /\
  ((0 < x)%Q ->
   format_latitude x =
     format_fixed 5 (Qabs x) ++ degree_sign ++ hair_space ++ "N" /\
   format_latitude (- x) =
     format_fixed 5 (Qabs x) ++ degree_sign ++ hair_space ++ "S" /\
   format_longitude x =
     format_fixed 5 (Qabs x) ++ degree_sign ++ hair_space ++ "E" /\
   format_longitude (- x) =
     format_fixed 5 (Qabs x) ++ degree_sign ++ hair_space ++ "W") /\
  ((x == 0)%Q ->
   format_latitude x = "0.00000" ++ degree_sign ++ hair_space ++ "N" /\
   format_longitude x = "0.00000" ++ degree_sign ++ hair_space ++ "E").
Proof.
  assert (U : occurs minus_sign (format_fixed 5 (Qabs x)) = false).
  { apply unsigned_occurs; [|reflexivity].
    apply unsigned_format_fixed, Qabs_num_nonneg. }
  split; [|split; [|split]].
  - unfold format_latitude. rewrite !occurs_app, U.
    now destruct (Qle_bool 0 x).
  - unfold format_longitude. rewrite !occurs_app, U.
    now destruct (Qle_bool 0 x).
  - intros Hpos. unfold format_latitude, format_longitude.
    rewrite Qabs_opp_eq.
    assert (E1 : Qle_bool 0 x = true)
      by (apply Qle_bool_iff; now apply Qlt_le_weak).
    assert (E2 : Qle_bool 0 (- x) = false).
    { destruct (Qle_bool 0 (- x)) eqn:E; [|reflexivity].
      apply Qle_bool_iff in E. lra. }
    rewrite E1, E2. repeat split; reflexivity.
  - intros Hz. unfold format_latitude, format_longitude.
    assert (E1 : Qle_bool 0 x = true) by (apply Qle_bool_iff; lra).
    rewrite E1.
    assert (E : format_fixed 5 (Qabs x) = "0.00000").
    { destruct x as [n d]. unfold Qeq in Hz. cbn [Qnum Qden] in Hz.
      assert (n = 0) by lia. subst n. reflexivity. }
    rewrite E. split; reflexivity.
Qed.

Lemma coordinates_are_unsigned_witness :
  format_latitude (- (5225 # 100)) =
    format_fixed 5 (Qabs (5225 # 100)) ++ degree_sign ++ hair_space ++ "S" /\
  format_longitude (0 # 7) = "0.00000" ++ degree_sign ++ hair_space ++ "E".
Proof.
  destruct (coordinates_are_unsigned (5225 # 100)) as [_ [_ [H _]]].
  destruct (coordinates_are_unsigned (0 # 7)) as [_ [_ [_ H0]]].
  split.
  - apply H. reflexivity.
  - apply H0. reflexivity.
Defined.

Example format_latitude_south :
  format_latitude (- (5225 # 100)) =
  "52.25000" ++ degree_sign ++ hair_space ++ "S".
Proof. vm_compute. reflexivity. Qed.

(** ** The range of the direction text *)

Lemma compass_getitem_cases (i : Z) :
  (-9 <= i <= 8 -> exists point, tuple_getitem COMPASS i = Ok point) /\
  (i < -9 \/ 8 < i -> tuple_getitem COMPASS i = Raise IndexError).
Proof.
  split.
  - intros H.
    assert (E : i = -9 \/ i = -8 \/ i = -7 \/ i = -6 \/ i = -5 \/ i = -4 \/
                i = -3 \/ i = -2 \/ i = -1 \/ i = 0 \/ i = 1 \/ i = 2 \/
                i = 3 \/ i = 4 \/ i = 5 \/ i = 6 \/ i = 7 \/ i = 8) by lia.
    repeat (destruct E as [E | E]; [subst i; eexists; reflexivity|]).
    subst i; eexists; reflexivity.
  - intros H. unfold tuple_getitem.
    change (Z.of_nat (List.length COMPASS)) with 9.
    destruct (Z.ltb_spec i 0) as [Hn|Hn].
    + destruct (Z.ltb_spec (i + 9) 0) as [_|Hc]; [reflexivity | lia].
    + destruct (Z.ltb_spec i 0) as [Hc|_]; [lia|].
      destruct (Z.leb_spec 9 i) as [_|Hc]; [reflexivity | lia].
Qed.

(** A float of magnitude 256 or more is a multiple of [2^-44]. *)
Lemma float53_grid_256 (h : Q) :
  float53 h -> (256 <= Qabs h)%Q ->
  exists j : Z, (h == inject_Z j * 2 ^ (-44))%Q.
Proof.
  intros Fh H. apply (float53_grid h 8 Fh).
  rewrite (pow2_Z 8) by lia. exact H.
Qed.

(** Below 382.5 the rounded sum stays below 405, and below -427.5 it stays
    below -405: the floats next to the two bounds have exact sums. *)
Lemma fadd_below_405 (h : Q) :
  float53 h -> (h < 382.5)%Q -> (fadd h 22.5 < 405)%Q.
Proof.
  intros Fh H. unfold fadd.
  destruct (Qlt_le_dec h 256) as [Hs|Hb].
  - apply Qle_lt_trans with 278.5%Q; [|reflexivity].
    apply round64_le; [float53_const 557 (-1) | lra].
  - destruct (float53_grid_256 h Fh) as [j Ej];
      [rewrite Qabs_pos; lra|].
    pose proof (grid_gap (-44) j (765 * 2 ^ 43) h 382.5 Ej
                  ltac:(vm_compute; reflexivity) H) as G.
    apply Qle_lt_trans with (405 - 2 ^ (-44))%Q; [|reflexivity].
    apply round64_le; [float53_const (405 * 2 ^ 44 - 1) (-44)|].
    lra.
Qed.

Lemma fadd_below_minus_405 (h : Q) :
  float53 h -> (h < -427.5)%Q -> (fadd h 22.5 < -405)%Q.
Proof.
  intros Fh H. unfold fadd.
  destruct (float53_grid_256 h Fh) as [j Ej];
    [rewrite Qabs_neg; lra|].
  pose proof (grid_gap (-44) j (- (855 * 2 ^ 43)) h (-427.5) Ej
                ltac:(vm_compute; reflexivity) H) as G.
  apply Qle_lt_trans with (-405 - 2 ^ (-44))%Q; [|reflexivity].
  apply round64_le; [float53_const (- (405 * 2 ^ 44 + 1)) (-44)|].
  lra.
Qed.

(** X14: with a mode other than 0 and 1, the direction text of a binary64
    heading exists exactly for a heading from -427.5 up to, but not
    including, 382.5 degrees, and raises IndexError outside; the ninth
    entry of the tuple makes the headings from 337.5 up to 382.5, those of
    360 and just above among them, read N. *)
Theorem direction_text_range (w : HeadUpDisplay) (heading : Q) :
  last_mode w <> 0 -> last_mode w <> 1 ->
  binary64 heading = true ->
  (get_direction_text w heading = Raise IndexError <->
   (heading < -427.5)%Q \/ (382.5 <= heading)%Q) /\
  ((337.5 <= heading)%Q -> (heading < 382.5)%Q ->
   get_direction_text w heading = Ok "N").
Proof.
  intros H0 H1 Fh. apply binary64_float53 in Fh. unfold get_direction_text.
  destruct (Z.eqb_spec (last_mode w) 0) as [|_]; [contradiction|].
  destruct (Z.eqb_spec (last_mode w) 1) as [|_]; [contradiction|].
  cbn [orb].
  assert (F405 : float53 405) by float53_const 405 0.
  assert (Fm405 : float53 (-405)) by float53_const (-405) 0.
  assert (F360 : float53 360) by float53_const 360 0.
  set (r := fadd heading 22.5).
  assert (Rge : forall c, float53 c -> (c <= heading + 22.5)%Q -> (c <= r)%Q)
    by (intros c Fc Hc; apply round64_ge; assumption).
  set (x := (r / 45)%Q).
  assert (Ex : (r == x * 45)%Q) by (unfold x; field).
  destruct (compass_getitem_cases (Qfloor x)) as [Hin Hout].
  split; [split|].
  - intros Hr.
    destruct (Z_lt_dec (Qfloor x) (-9)) as [Hlo|Hlo].
    + left. apply Qfloor_lt_iff in Hlo.
      change (inject_Z (-9)) with (-9)%Q in Hlo.
      apply Qnot_le_lt. intros Hc.
      pose proof (Rge (-405)%Q Fm405 ltac:(lra)). lra.
    + destruct (Z_lt_dec 8 (Qfloor x)) as [Hhi|Hhi].
      * right. assert (H9 : 9 <= Qfloor x) by lia.
        apply Qfloor_ge_iff in H9.
        change (inject_Z 9) with 9%Q in H9.
        apply Qnot_lt_le. intros Hc.
        pose proof (fadd_below_405 heading Fh Hc). fold r in H. lra.
      * destruct Hin as [p Hp]; [lia|]. congruence.
  - intros [Hlo | Hhi]; apply Hout.
    + left. apply Qfloor_lt_iff.
      change (inject_Z (-9)) with (-9)%Q.
      pose proof (fadd_below_minus_405 heading Fh Hlo). fold r in H. lra.
    + right. assert (H9 : 9 <= Qfloor x); [|lia].
      apply Qfloor_ge_iff. change (inject_Z 9) with 9%Q.
      pose proof (Rge 405%Q F405 ltac:(lra)). lra.
  - intros Hlo Hhi.
    assert (E : Qfloor x = 8).
    { pose proof (Rge 360%Q F360 ltac:(lra)).
      pose proof (fadd_below_405 heading Fh Hhi) as Hb. fold r in Hb.
      assert (H8 : 8 <= Qfloor x)
        by (apply Qfloor_ge_iff; change (inject_Z 8) with 8%Q; lra).
      assert (H9 : Qfloor x < 9)
        by (apply Qfloor_lt_iff; change (inject_Z 9) with 9%Q; lra).
      lia. }
    rewrite E. reflexivity.
Qed.

Lemma direction_text_range_witness :
  get_direction_text (widget_in_mode Fix3D) 400 = Raise IndexError /\
  get_direction_text (widget_in_mode Fix3D) 360 = Ok "N".
Proof.
  destruct (direction_text_range (widget_in_mode Fix3D) 400)
    as [[_ H] _]; [discriminate | discriminate | vm_compute; reflexivity |].
  destruct (direction_text_range (widget_in_mode Fix3D) 360)
    as [_ H']; [discriminate | discriminate | vm_compute; reflexivity |].
  split.
  - apply H. right. discriminate.
  - apply H'; [discriminate | reflexivity].
Defined.

(** ** The constructor *)

Lemma str_dict_get_speed (a b c : Q) (unit : string) :
  str_dict_get (conversions a b c) unit <> None <->
  unit = "mph" \/ unit = "km/h" \/ unit = "knots".
Proof.
  unfold conversions. cbn [str_dict_get].
  destruct (String.eqb_spec "mph" unit) as [<-|H1];
    [split; [auto | discriminate]|].
  destruct (String.eqb_spec "km/h" unit) as [<-|H2];
    [split; [auto | discriminate]|].
  destruct (String.eqb_spec "knots" unit) as [<-|H3];
    [split; [auto | discriminate]|].
  split; [congruence|]. intros [E | [E | E]]; congruence.
Qed.

Lemma str_dict_get_altitude (f : Q) (unit : string) :
  str_dict_get (alt_conversions f) unit <> None <->
  unit = "m" \/ unit = "ft".
Proof.
  unfold alt_conversions. cbn [str_dict_get].
  destruct (String.eqb_spec "m" unit) as [<-|H1];
    [split; [auto | discriminate]|].
  destruct (String.eqb_spec "ft" unit) as [<-|H2];
    [split; [auto | discriminate]|].
  split; [congruence|]. intros [E | E]; congruence.
Qed.

(** X15: the constructor builds the widget exactly when the speed unit,
    mph when the argument is None or empty, is one of mph, km/h and knots,
    and the altitude unit, ft when the argument is None or empty, is m or
    ft; otherwise it raises TypeError, about the speed unit when both are
    wrong.  The widget it builds has these units with their own factors,
    mode 0, status 0, no position, no sky view and no stored report. *)
Theorem constructor_checks_units
        (MPS_TO_MPH MPS_TO_KPH MPS_TO_KNOTS METERS_TO_FEET : Q)
        (repr : option string -> string)
        (speed_unit_arg altitude_unit_arg : option string) :
  let init := HeadUpDisplay_init MPS_TO_MPH MPS_TO_KPH MPS_TO_KNOTS
                                 METERS_TO_FEET repr in
  let su := or_default speed_unit_arg "mph" in
  let au := or_default altitude_unit_arg "ft" in
  ((exists w, init speed_unit_arg altitude_unit_arg = Built w) <->
   (su = "mph" \/ su = "km/h" \/ su = "knots") /\ (au = "m" \/ au = "ft")) /\
  (~ (su = "mph" \/ su = "km/h" \/ su = "knots") ->
   init speed_unit_arg altitude_unit_arg =
   TypeError (repr speed_unit_arg ++ " is not a valid speed unit")) /\
  (forall w, init speed_unit_arg altitude_unit_arg = Built w ->
     speed_unit w = su /\ altitude_unit w = au /\
     str_dict_get (conversions MPS_TO_MPH MPS_TO_KPH MPS_TO_KNOTS) su =
       Some (speedfactor w) /\
     str_dict_get (alt_conversions METERS_TO_FEET) au = Some (altfactor w) /\
     last_mode w = 0 /\ last_status w = 0 /\
     latitude w = None /\ longitude w = None /\ altitude w = None /\
     skyview w = None /\ last_tpv w = None).
Proof.
  cbv zeta. unfold HeadUpDisplay_init.
  pose proof (str_dict_get_speed MPS_TO_MPH MPS_TO_KPH MPS_TO_KNOTS
                (or_default speed_unit_arg "mph")) as Hs.
  pose proof (str_dict_get_altitude METERS_TO_FEET
                (or_default altitude_unit_arg "ft")) as Ha.
  destruct (str_dict_get (conversions _ _ _) _) as [sf|].
  - destruct (str_dict_get (alt_conversions _) _) as [af|].
    + split; [|split].
      * split; [intros _|eauto].
        split; [apply Hs | apply Ha]; discriminate.
      * intros H. exfalso. apply H, Hs. discriminate.
      * intros w E. injection E as <-. cbn. repeat split; reflexivity.
    + split; [|split].
      * split; [intros [w E]; discriminate|].
        intros [_ H]. apply Ha in H. congruence.
      * intros H. exfalso. apply H, Hs. discriminate.
      * intros w E. discriminate.
  - split; [|split].
    + split; [intros [w E]; discriminate|].
      intros [H _]. apply Hs in H. congruence.
    + reflexivity.
    + intros w E. discriminate.
Qed.

(** X16: the script never fails in the constructor: for every value of
    the units option that the parser accepts, and without the option
    whatever the default units of the gps library are, the units handed to
    the constructor are mph and ft (traditional, imperial), knots and ft
    (nautical) or km/h and m (metric), and the widget is built. *)
Theorem script_units_are_valid
        (MPS_TO_MPH MPS_TO_KPH MPS_TO_KNOTS METERS_TO_FEET : Q)
        (repr : option string -> string)
        (given : option string) (default_speed default_alt units : string) :
  parse_units given default_alt = Some units ->
  In units UNITS_CHOICES /\
  In (main_units units default_speed default_alt)
     [("mph", "ft"); ("knots", "ft"); ("km/h", "m")] /\
  exists w,
    main_widget MPS_TO_MPH MPS_TO_KPH MPS_TO_KNOTS METERS_TO_FEET repr
                given default_speed default_alt = Some (Built w) /\
    (speed_unit w, altitude_unit w) =
      main_units units default_speed default_alt.
Proof.
  intros Hp.
  assert (Hin : In units UNITS_CHOICES).
  { unfold parse_units in Hp. destruct given as [u|].
    - destruct (existsb (String.eqb u) UNITS_CHOICES) eqn:E; [|discriminate].
      injection Hp as <-. apply existsb_exists in E as [c [Hc E]].
      apply String.eqb_eq in E. now subst c.
    - injection Hp as <-. unfold default_units_argument.
      destruct (String.eqb default_alt "ft"); simpl; auto. }
  split; [exact Hin|].
  unfold main_widget. rewrite Hp.
  destruct Hin as [<- | [<- | [<- | [<- | []]]]]; cbn.
  - split; [auto|]. eexists. split; reflexivity.
  - split; [auto|]. eexists. split; reflexivity.
  - split; [auto|]. eexists. split; reflexivity.
  - split; [auto|]. eexists. split; reflexivity.
Qed.

Lemma script_units_are_valid_witness :
  exists w,
    main_widget 2 3 4 5 (fun _ => EmptyString) None "furlongs" "cubits" =
      Some (Built w) /\
    (speed_unit w, altitude_unit w) = ("km/h", "m").
Proof.
  destruct (script_units_are_valid 2 3 4 5 (fun _ => EmptyString) None
              "furlongs" "cubits" "metric" eq_refl) as [_ [_ [w [H1 H2]]]].
  exists w. split; [exact H1 | exact H2].
Defined.

(** ** The font *)

Lemma generator_contains_spec (x : string) (generator : list string) :
  (In x generator -> fst (generator_contains x generator) = true) /\
  (~ In x generator -> generator_contains x generator = (false, [])).
Proof.
  induction generator as [|y rest [IH1 IH2]]; cbn [generator_contains].
  - split; [contradiction | reflexivity].
  - destruct (String.eqb_spec y x) as [->|Hne].
    + split; [reflexivity|]. intros H. exfalso. apply H. now left.
    + split.
      * intros [E | H]; [congruence | now apply IH1].
      * intros H. apply IH2. intros C. apply H. now right.
Qed.

Lemma choose_font_exhausted (fonts : list string) :
  choose_font fonts [] = EmptyString.
Proof. induction fonts as [|f rest IH]; [reflexivity | exact IH]. Qed.

(** X17: the font loop reads the generator of family names to its end when
    the first font of the list is not installed, and finds nothing after
    that: the font face is Roboto Slab when a family of that name exists
    and empty otherwise; none of Inter, Roboto, Piboto, Open Sans and
    DejaVu Sans is ever chosen, installed or not. *)
Theorem font_face_first_or_none (family_names : list string) :
  (In "Roboto Slab" family_names -> font_face family_names = "Roboto Slab") /\
  (~ In "Roboto Slab" family_names -> font_face family_names = EmptyString) /\
  (font_face family_names = "Roboto Slab" \/
   font_face family_names = EmptyString).
Proof.
  unfold font_face, FONTS. cbn [choose_font].
  destruct (generator_contains_spec "Roboto Slab" family_names) as [H1 H2].
  assert (Hyes : In "Roboto Slab" family_names ->
                 (let (found, families) :=
                    generator_contains "Roboto Slab" family_names in
                  if found then "Roboto Slab"
                  else choose_font
                         ["Inter"; "Roboto"; "Piboto"; "Open Sans";
                          "DejaVu Sans"] families) = "Roboto Slab").
  { intros H. specialize (H1 H).
    destruct (generator_contains "Roboto Slab" family_names) as [found fams].
    cbn in H1. now rewrite H1. }
  assert (Hno : ~ In "Roboto Slab" family_names ->
                (let (found, families) :=
                   generator_contains "Roboto Slab" family_names in
                 if found then "Roboto Slab"
                 else choose_font
                        ["Inter"; "Roboto"; "Piboto"; "Open Sans";
                         "DejaVu Sans"] families) = EmptyString).
  { intros H. rewrite (H2 H). apply choose_font_exhausted. }
  split; [exact Hyes|]. split; [exact Hno|].
  destruct (in_dec string_dec "Roboto Slab" family_names) as [H|H];
    [left; now apply Hyes | right; now apply Hno].
Qed.

Lemma font_face_first_or_none_witness :
  font_face ["DejaVu Sans"; "Inter"; "Roboto"] = EmptyString /\
  font_face ["DejaVu Sans"; "Roboto Slab"; "Inter"] = "Roboto Slab".
Proof.
  destruct (font_face_first_or_none ["DejaVu Sans"; "Inter"; "Roboto"])
    as [_ [H _]].
  destruct (font_face_first_or_none ["DejaVu Sans"; "Roboto Slab"; "Inter"])
    as [H' _].
  split.
  - apply H. simpl. intros [E | [E | [E | []]]]; discriminate.
  - apply H'. simpl. auto.
Defined.

(** ** The labels *)

Section DisplayFacts.

Variable face : string.
Variable daylight : Observer -> Z -> Z -> result (Z * Z).
Variable noon : Observer -> Z -> Z.
Variable zenith : Observer -> Z -> Q.
Variable isoparse : string -> result Z.
Variable strftime : string -> Z -> string.
Variable format_n5 : Q -> string.

Lemma update_data_stale (w : HeadUpDisplay) (solar wall : Z) (labels : Labels) :
  display_time isoparse w wall = Raise AttributeError ->
  let out := update_data face daylight noon zenith isoparse strftime
                         format_n5 w solar wall labels in
  snd out <> None /\
  Date (fst out) = Date labels /\
  Time_visible (fst out) = Time_visible labels /\
  Fix (fst out) = Fix labels /\
  Position (fst out) = Position labels /\
  (forall day direction,
     is_day daylight noon zenith w solar = Ok day ->
     get_direction_text w (last_heading w) = Ok direction ->
     snd out = Some AttributeError /\
     Heading (fst out) =
       heading_markup face (if day then "#FFFFFF" else "#BBBBBB") direction /\
     Speed (fst out) =
       speed_markup face (if day then "#FFFFFF" else "#BBBBBB")
                    (get_speed_text w (last_speed w))).
Proof.
  intros Ht. cbv zeta. unfold update_data.
  destruct (is_day daylight noon zenith w solar) as [day|e].
  - destruct (get_direction_text w (last_heading w)) as [dir|e].
    + rewrite Ht. cbn [fst snd].
      split; [discriminate|]. do 4 (split; [reflexivity|]).
      intros day' dir' E1 E2. injection E1 as <-. injection E2 as <-.
      split; [reflexivity|]. split; reflexivity.
    + cbn [fst snd].
      split; [discriminate|]. do 4 (split; [reflexivity|]).
      intros day' dir' _ E2. discriminate.
  - cbn [fst snd].
    split; [discriminate|]. do 4 (split; [reflexivity|]).
    intros day' dir' E1 _. discriminate.
Qed.

End DisplayFacts.

(** X18: a TPV report with a 2D or 3D fix (mode 2 or more) and no time key
    never reaches the display: the date label reads the time of the stored
    report, so the call of update_data that ends update_speed raises, with
    AttributeError once day or night and the direction are found, and the
    date, fix and position labels keep the markup they had before the
    report, while heading and speed already show the new one. *)
Theorem fix_without_time_is_not_shown
        (face : string)
        (daylight : Observer -> Z -> Z -> result (Z * Z))
        (noon : Observer -> Z -> Z) (zenith : Observer -> Z -> Q)
        (isoparse : string -> result Z) (strftime : string -> Z -> string)
        (format_n5 : Q -> string)
        (w0 : HeadUpDisplay) (data : TPV) (solar wall : Z) (labels : Labels) :
  2 <= tpv_mode data -> tpv_time data = None ->
  let shown := show_tpv face daylight noon zenith isoparse strftime format_n5
                        w0 data solar wall labels in
  let w := fst shown in
  let out := snd shown in
  w = update_speed w0 data /\
  snd out <> None /\
  Date (fst out) = Date labels /\
  Fix (fst out) = Fix labels /\
  Position (fst out) = Position labels /\
  (forall day direction,
     is_day daylight noon zenith w solar = Ok day ->
     get_direction_text w (last_heading w) = Ok direction ->
     snd out = Some AttributeError /\
     Heading (fst out) =
       heading_markup face (if day then "#FFFFFF" else "#BBBBBB") direction /\
     Speed (fst out) =
       speed_markup face (if day then "#FFFFFF" else "#BBBBBB")
                    (get_speed_text w (last_speed w))).
Proof.
  intros Hm Ht. cbv zeta. unfold show_tpv. cbn [fst snd].
  split; [reflexivity|].
  assert (E : display_time isoparse (update_speed w0 data) wall =
              Raise AttributeError).
  { unfold display_time.
    destruct (update_speed_merge_fields w0 data) as [-> [-> _]].
    apply Z.leb_le in Hm. now rewrite Hm, Ht. }
  destruct (update_data_stale face daylight noon zenith isoparse strftime
              format_n5 (update_speed w0 data) solar wall labels E)
    as [H1 [H2 [_ [H4 [H5 H6]]]]].
  split; [exact H1|]. split; [exact H2|]. split; [exact H4|].
  split; [exact H5 | exact H6].
Qed.

Lemma fix_without_time_is_not_shown_witness :
  let shown := show_tpv "Roboto Slab" sample_daylight sample_noon sample_zenith
                        sample_isoparse sample_strftime (format_fixed 1)
                        initial_widget report_fix_without_time 0 0
                        blank_labels in
  snd (snd shown) = Some AttributeError /\
  Fix (fst (snd shown)) = EmptyString.
Proof.
  cbv zeta.
  destruct (fix_without_time_is_not_shown
              "Roboto Slab" sample_daylight sample_noon sample_zenith
              sample_isoparse sample_strftime (format_fixed 1)
              initial_widget report_fix_without_time 0 0 blank_labels)
    as [_ [_ [_ [H4 [_ H6]]]]]; [simpl; lia | reflexivity |].
  split; [|exact H4].
  apply (H6 true "E"); reflexivity.
Defined.

(** X19: where the sun does not rise or set on the current date (daylight
    raises ValueError), with a known position and a longitude from -180 to
    180, update_data raises AttributeError before it sets any label: the
    whole display keeps what it showed before. *)
Theorem polar_display_is_not_refreshed
        (face : string)
        (daylight : Observer -> Z -> Z -> result (Z * Z))
        (noon : Observer -> Z -> Z) (zenith : Observer -> Z -> Q)
        (isoparse : string -> result Z) (strftime : string -> Z -> string)
        (format_n5 : Q -> string)
        (w : HeadUpDisplay) (lat lon : Q) (solar wall : Z) (labels : Labels) :
  latitude w = Some lat -> longitude w = Some lon ->
  (-180 <= lon)%Q -> (lon <= 180)%Q ->
  daylight {| obs_latitude := lat; obs_longitude := lon |}
           (local_date (Qfloor (fadd lon 7.5 / 15)%Q) solar)
           (Qfloor (fadd lon 7.5 / 15)%Q) = Raise ValueError ->
  update_data face daylight noon zenith isoparse strftime format_n5
              w solar wall labels = (labels, Some AttributeError).
Proof.
  intros Hlat Hlon Hlo Hhi Hd. unfold update_data.
  rewrite (is_day_unfold daylight noon zenith w solar lat lon Hlat Hlon Hlo Hhi).
  cbv zeta. rewrite Hd. reflexivity.
Qed.

Lemma polar_display_is_not_refreshed_witness :
  update_data "Roboto Slab" sample_daylight sample_noon sample_zenith
              sample_isoparse sample_strftime (format_fixed 1)
              (widget_at 85 0) 0 0 blank_labels =
  (blank_labels, Some AttributeError).
Proof.
  apply (polar_display_is_not_refreshed
           "Roboto Slab" sample_daylight sample_noon sample_zenith
           sample_isoparse sample_strftime (format_fixed 1)
           (widget_at 85 0) 85%Q 0%Q 0 0 blank_labels eq_refl eq_refl);
    [discriminate | discriminate | vm_compute; reflexivity].
Defined.

(** X20: before the first fix, that is without a position and with mode 0
    or 1, update_data fails only where the fix text fails; when the fix
    text is produced it sets every label, in the day colours: heading and
    speed show a dash, the unit its name in capitals, the date label the
    wall clock, the fix label the fix text and the position label an empty
    text, and the Time label is hidden. *)
Theorem display_before_first_fix
        (face : string)
        (daylight : Observer -> Z -> Z -> result (Z * Z))
        (noon : Observer -> Z -> Z) (zenith : Observer -> Z -> Q)
        (isoparse : string -> result Z) (strftime : string -> Z -> string)
        (format_n5 : Q -> string)
        (w : HeadUpDisplay) (solar wall : Z) (labels : Labels) :
  latitude w = None \/ longitude w = None ->
  last_mode w = 0 \/ last_mode w = 1 ->
  let out := update_data face daylight noon zenith isoparse strftime
                         format_n5 w solar wall labels in
  (forall e, fix_text w = Raise e -> snd out = Some e) /\
  (forall fixtext, fix_text w = Ok fixtext ->
     out =
     ({| Heading := heading_markup face "#FFFFFF" "-";
         Speed := speed_markup face "#FFFFFF" "-";
         Unit := unit_markup face "#888888" (str_upper (speed_unit w));
         Date := today_markup face "#FFFFFF" (strftime date_fmt wall) ++
                 newline ++
                 now_markup face "#FFFFFF" (strftime now_fmt wall);
         Time_visible := false;
         Fix := fix_markup face "#FFFFFF" fixtext;
         Position := position_markup face "#FFFFFF" EmptyString |}, None)).
Proof.
  intros Hpos Hmode. cbv zeta. unfold update_data.
  rewrite (is_day_without_position daylight noon zenith w solar Hpos).
  assert (Ed : get_direction_text w (last_heading w) = Ok "-").
  { unfold get_direction_text. now destruct Hmode as [-> | ->]. }
  assert (Es : get_speed_text w (last_speed w) = "-").
  { unfold get_speed_text. now destruct Hmode as [-> | ->]. }
  assert (Et : display_time isoparse w wall = Ok wall).
  { unfold display_time. now destruct Hmode as [-> | ->]. }
  assert (Ep : position_text format_n5 w = EmptyString).
  { unfold position_text. destruct Hpos as [-> | ->]; [reflexivity|].
    now destruct (latitude w). }
  rewrite Ed, Es, Et, Ep. split.
  - intros e ->. reflexivity.
  - intros fixtext ->. reflexivity.
Qed.

Lemma display_before_first_fix_witness :
  snd (update_data "Roboto Slab" sample_daylight sample_noon sample_zenith
                   sample_isoparse sample_strftime (format_fixed 1)
                   initial_widget 0 0 blank_labels) = None /\
  Unit (fst (update_data "Roboto Slab" sample_daylight sample_noon
                         sample_zenith sample_isoparse sample_strftime
                         (format_fixed 1) initial_widget 0 0 blank_labels)) =
  unit_markup "Roboto Slab" "#888888" "MPH".
Proof.
  destruct (display_before_first_fix
              "Roboto Slab" sample_daylight sample_noon sample_zenith
              sample_isoparse sample_strftime (format_fixed 1)
              initial_widget 0 0 blank_labels)
    as [_ H]; [left; reflexivity | left; reflexivity |].
  rewrite (H "Unknown fix" eq_refl). split; reflexivity.
Defined.

(** ** More on the CEP line and the solar time zone *)

(** X21: with latitude and longitude known, a status of the data model
    and a sky view of the data model, the fix text is produced and ends
    with the CEP line exactly when the stored report carries eph: the line
    gives the binary64 product of eph and the altitude factor (below the
    overflow threshold) to one decimal and the altitude unit; without eph
    in the stored report the text is what the earlier stages wrote. *)
Theorem cep_line_with_position (w : HeadUpDisplay) (lat lon : Q) :
  latitude w = Some lat -> longitude w = Some lon ->
  0 <= last_status w <= 9 -> sky_well_formed (skyview w) ->
  exists before,
    (fixtext <- fix_narrative (last_status w) (last_mode w) ;;
     fix_sky_text (skyview w) fixtext) = Ok before /\
    (forall e, known_eph w = Some e ->
       (Qabs (e * altfactor w) < 2 ^ 1023)%Q ->
       fix_text w =
       Ok (before ++ newline ++ "CEP: " ++ plus_minus ++ hair_space ++
           format_fixed 1 (fmul e (altfactor w)) ++ " " ++ altitude_unit w)) /\
    (known_eph w = None -> fix_text w = Ok before).
Proof.
  intros Hlat Hlon Hs Hsky.
  destruct (fix_status_text_defined _ Hs) as [label Hl].
  destruct (fix_sky_text_defined (skyview w)
              (fix_mode_text (last_mode w) label) Hsky) as [before Hb].
  exists before. unfold fix_narrative, fix_text.
  rewrite Hl. cbn [bind]. rewrite Hb. cbn [bind].
  split; [reflexivity|].
  unfold fix_cep_text, known_eph. rewrite Hlat, Hlon.
  split.
  - intros e He _. destruct (last_tpv w) as [tpv|]; [|discriminate].
    rewrite He. reflexivity.
  - intros He. destruct (last_tpv w) as [tpv|]; [|reflexivity].
    now rewrite He.
Qed.

Lemma cep_line_with_position_witness :
  fix_text (update_speed initial_widget report_with_eph) =
  Ok ("Normal 3D fix" ++ newline ++ "CEP: " ++ plus_minus ++ hair_space ++
      format_fixed 1 (fmul 4 (altfactor initial_widget)) ++ " " ++ "ft").
Proof.
  destruct (cep_line_with_position
              (update_speed initial_widget report_with_eph) 50%Q 8%Q
              eq_refl eq_refl) as [before [Hb [He _]]];
    [simpl; lia | exact I |].
  injection Hb as <-. apply (He 4%Q); reflexivity.
Defined.

(** The product is rounded before it is written: for the binary64 number
    10.287 and the factor 1/0.3048 it is 33.75, written as 33.8, while the
    exact product is below 33.75. *)
Example cep_line_rounded_product :
  let eph := (5791066170845037 # 562949953421312)%Q in
  let factor := (7387794664321679 # 2251799813685248)%Q in
  binary64 eph = true /\ binary64 factor = true /\
  (eph * factor < 33.75)%Q /\ (fmul eph factor == 33.75)%Q /\
  format_fixed 1 (fmul eph factor) = "33.8".
Proof.
  cbv zeta. split; [vm_compute; reflexivity|].
  split; [vm_compute; reflexivity|]. split; [reflexivity|].
  split; vm_compute; reflexivity.
Qed.

(** X22: for a longitude from -180 to 180 degrees the solar time zone is a
    whole number of hours from -12 to 12 whose meridian, 15 degrees per
    hour, lies less than 7.5 degrees west of the longitude and at most 7.5
    degrees east of it, up to the rounding of the sum: less than
    7.5 + 2^-45 degrees east. *)
Theorem solar_timezone_meridian (lon : Q) :
  (-180 <= lon)%Q -> (lon <= 180)%Q ->
  exists hours : Z,
    solar_timezone lon = Ok hours /\
    -12 <= hours <= 12 /\
    (-7.5 - 2 ^ (-45) < lon - 15 * inject_Z hours)%Q /\
    (lon - 15 * inject_Z hours < 7.5)%Q.
Proof.
  intros Hlo Hhi.
  destruct (solar_timezone_defined lon Hlo Hhi) as [E R].
  exists (Qfloor (fadd lon 7.5 / 15)%Q).
  split; [exact E|]. split; [exact R|].
  pose proof (solar_offset_exact_range lon Hlo Hhi) as Hb.
  unfold fadd.
  remember (lon + 7.5)%Q as x eqn:Dx.
  assert (Dx' : (x == lon + 7.5)%Q) by (subst x; reflexivity).
  clear Dx.
  set (c := Qfloor (x / 15)%Q) in *.
  assert (Ex : (x == x / 15 * 15)%Q) by field.
  pose proof (Qfloor_le (x / 15)%Q) as H1. fold c in H1.
  pose proof (Qlt_floor (x / 15)%Q) as H2. fold c in H2.
  rewrite inject_Z_plus in H2. change (inject_Z 1) with 1%Q in H2.
  pose proof (floor_round_step x 15 ltac:(lia)) as Hstep.
  change (inject_Z 15) with 15%Q in Hstep. cbv zeta in Hstep. fold c in Hstep.
  assert (H53 : 2 ^ 53 = 9007199254740992) by reflexivity.
  assert (Hp : (0 < 2 ^ (-45))%Q) by apply pow2_pos.
  destruct Hstep as [Ec | [Er Ec]]; [lia | lia | |]; rewrite Ec.
  - split; lra.
  - rewrite inject_Z_plus. change (inject_Z 1) with 1%Q.
    split; [|lra].
    set (k := 15 * (c + 1)) in *.
    assert (Ff : float53 (inject_Z k - 2 ^ (-45))).
    { exists (k * 2 ^ 45 - 1), (-45).
      assert (H45 : 2 ^ 45 = 35184372088832) by reflexivity.
      split; [unfold k; lia|]. split; [lia|].
      unfold Z.sub at 1. rewrite inject_Z_plus, inject_Z_mult.
      change (inject_Z (-1)) with (-(1))%Q.
      assert (Eu : (inject_Z (2 ^ 45) * 2 ^ (-45) == 1)%Q)
        by (vm_compute; reflexivity).
      setoid_replace ((inject_Z k * inject_Z (2 ^ 45) + - (1)) * 2 ^ (-45))%Q
        with (inject_Z k * (inject_Z (2 ^ 45) * 2 ^ (-45)) - 2 ^ (-45))%Q
        by ring.
      rewrite Eu. ring. }
    pose proof (round64_nearest x _ Ff) as Hn.
    assert (Ek : (inject_Z k == 15 * (inject_Z c + 1))%Q).
    { unfold k. rewrite inject_Z_mult, inject_Z_plus. reflexivity. }
    destruct (Qlt_le_dec (inject_Z k - 2 ^ (-45)) x) as [Hx|Hx]; [lra|].
    exfalso.
    rewrite Er, (Qabs_pos (inject_Z k - x)),
      (Qabs_pos (inject_Z k - 2 ^ (-45) - x)) in Hn by lra.
    lra.
Qed.

Lemma solar_timezone_meridian_witness :
  exists hours : Z,
    solar_timezone (-1225 # 10) = Ok hours /\
    (-7.5 - 2 ^ (-45) < (-1225 # 10) - 15 * inject_Z hours)%Q /\
    ((-1225 # 10) - 15 * inject_Z hours < 7.5)%Q.
Proof.
  destruct (solar_timezone_meridian (-1225 # 10)) as [hours [H1 [_ [H3 H4]]]];
    [discriminate | discriminate |].
  exists hours. split; [exact H1|]. split; [exact H3 | exact H4].
Defined.

Lemma snr_dicts_nest_witness :
  usedsigstrength (count_satellites sample_satellites) <> [] /\
  sigstrength (count_satellites sample_satellites) <> [].
Proof.
  assert (H : usedsigstrength (count_satellites sample_satellites) <> [])
    by discriminate.
  split; [exact H|].
  destruct (snr_dicts_nest sample_satellites) as [_ [_ [_ [_ [_ Hn]]]]].
  apply Hn. exact H.
Defined.

Lemma constructor_checks_units_witness :
  HeadUpDisplay_init 2 3 4 5 (fun _ => "'mi/h'") (Some "mi/h") None =
  TypeError "'mi/h' is not a valid speed unit" /\
  exists w, HeadUpDisplay_init 2 3 4 5 (fun _ => EmptyString)
                               (Some "knots") (Some EmptyString) = Built w.
Proof.
  split.
  - destruct (constructor_checks_units 2 3 4 5 (fun _ => "'mi/h'")
                (Some "mi/h") None) as [_ [H _]].
    apply H. intros [E | [E | E]]; discriminate.
  - destruct (constructor_checks_units 2 3 4 5 (fun _ => EmptyString)
                (Some "knots") (Some EmptyString)) as [[_ H] _].
    apply H. split; [right; right; reflexivity | right; reflexivity].
Defined.

(** ** The loop of [Main.run] *)

Section RunLoop.

Variable face : string.
Variable daylight : Observer -> Z -> Z -> result (Z * Z).
Variable noon : Observer -> Z -> Z.
Variable zenith : Observer -> Z -> Q.
Variable isoparse : string -> result Z.
Variable strftime : string -> Z -> string.
Variable format_n5 : Q -> string.

Local Abbreviation loop :=
  (run_loop face daylight noon zenith isoparse strftime format_n5).
Local Abbreviation display :=
  (update_data face daylight noon zenith isoparse strftime format_n5).

(** A part of the stream that the loop reads to its end is behind it. *)
Lemma run_loop_app (w w1 : HeadUpDisplay) (l l1 : Labels)
      (before rest : list event) :
  loop w l before = (w1, l1, StreamEnd, []) ->
  loop w l (before ++ rest) = loop w1 l1 rest.
Proof.
  revert w l. induction before as [|[r [sc wc]] before IH]; intros w l.
  - cbn [run_loop app]. intros E. now injection E as <- <-.
  - destruct r as [data|data|]; cbn [run_loop app];
      unfold show_tpv, show_sky; cbv zeta.
    + destruct (display (update_speed w data) sc wc l) as [l' [e|]];
        [discriminate|].
      destruct (0 <=? tpv_mode data); [discriminate | apply IH].
    + destruct (display (update_sky w data) sc wc l) as [l' [e|]];
        [discriminate | apply IH].
    + apply IH.
Qed.


(** X6: the loop of [run] ends at the first TPV report with a mode that is
    not negative, so with the modes 0 to 3 of the protocol at the first TPV
    report that it reaches, fix or no fix: by [break] when [update_data]
    returns, by the exception when it raises, and in both cases with
    nothing behind that report read.  A report with mode 2 or 3 and no
    [time] ends it by an exception. *)
Theorem run_loop_ends_at_first_tpv (w w1 : HeadUpDisplay) (l l1 : Labels)
        (before after : list event) (data : TPV) (sc wc : Z) :
  loop w l before = (w1, l1, StreamEnd, []) ->
  0 <= tpv_mode data ->
  let shown := display (update_speed w1 data) sc wc l1 in
  loop w l (before ++ (TPVReport data, (sc, wc)) :: after) =
  (update_speed w1 data, fst shown,
   match snd shown with
   | Some e => Uncaught e
   | None => Break
   end, after) /\
  (2 <= tpv_mode data -> tpv_time data = None -> snd shown <> None).
Proof.
  intros Hb Hm. cbv zeta. split.
  - rewrite (run_loop_app w w1 l l1 before _ Hb). cbn [run_loop].
    unfold show_tpv. cbv zeta.
    destruct (display (update_speed w1 data) sc wc l1) as [l' [e|]];
      [reflexivity|].
    apply Z.leb_le in Hm. now rewrite Hm.
  - intros H2 Ht.
    apply (update_data_stale face daylight noon zenith isoparse strftime
             format_n5 (update_speed w1 data) sc wc l1).
    destruct (update_speed_merge_fields w1 data) as [M1 [M2 _]].
    unfold display_time. rewrite M1, M2, Ht.
    apply Z.leb_le in H2. now rewrite H2.
Qed.

End RunLoop.

Lemma run_loop_ends_at_first_tpv_witness :
  run_loop "Roboto Slab" sample_daylight sample_noon sample_zenith
           sample_isoparse sample_strftime (format_fixed 1)
           initial_widget blank_labels
           [(OtherReport, (0, 0));
            (TPVReport report_fix_without_time, (0, 0));
            (TPVReport report_with_eph, (0, 0))] =
  (update_speed initial_widget report_fix_without_time,
   fst (update_data "Roboto Slab" sample_daylight sample_noon sample_zenith
                    sample_isoparse sample_strftime (format_fixed 1)
                    (update_speed initial_widget report_fix_without_time)
                    0 0 blank_labels),
   Uncaught AttributeError,
   [(TPVReport report_with_eph, (0, 0))]).
Proof.
  destruct (run_loop_ends_at_first_tpv
              "Roboto Slab" sample_daylight sample_noon sample_zenith
              sample_isoparse sample_strftime (format_fixed 1)
              initial_widget initial_widget blank_labels blank_labels
              [(OtherReport, (0, 0))]
              [(TPVReport report_with_eph, (0, 0))]
              report_fix_without_time 0 0 eq_refl) as [H _];
    [simpl; lia | exact H].
Defined.

Example run_loop_breaks_without_fix :
  snd (fst (run_loop "Roboto Slab" sample_daylight sample_noon sample_zenith
                     sample_isoparse sample_strftime (format_fixed 1)
                     initial_widget blank_labels
                     [(SKYReport sky_with_counts, (0, 0));
                      (TPVReport report_eph_no_position, (0, 0));
                      (TPVReport report_with_eph, (0, 0))])) = Break.
Proof. vm_compute. reflexivity. Qed.
